(** * cex: the generic REST request pipeline and its Binance collaborators

    A shallow embedding of the Go sources

    - [cex] core: [Request], [request], the structured errors
      ([RequestError], [HTTPError], [RespBodyUnmarshalerError]),
      [StdBodyUnmarshaler] and [Api.Sign];
    - [bnc]: [fuBodyUnmshWrapper], [fuBodyUnmshCodeMsg], [klineBodyUnmsher],
      [obBodyUnmsher], [convRawStrBookToFloatBook], [User.Make],
      [makePublicReq], [makePrivateReq], [signReqData], [User.HandleResp].

    Go values are modelled as the code has them: [int] and [int64] as [Z],
    [string] and [[]byte] as [string] (a sequence of bytes), [map] as [gmap],
    a nillable pointer or interface as [option], a panic as the [Panics]
    outcome.  Calls that leave the process (the clock, the HTTP transport,
    a request maker) thread an explicit world and leave an [event] each. *)

From Stdlib Require Import ZArith List String Ascii Lia Bool.
From stdpp Require Import base option list gmap strings sorting pretty.

Set Warnings "-register-all".

Local Open Scope Z_scope.
Local Open Scope string_scope.

(** ** Go outcomes: a call returns or panics *)

Inductive outcome (A : Type) : Type :=
| Returns (a : A)
| Panics.
Arguments Returns {A} a.
Arguments Panics {A}.

(** ** Go errors

    The values of interface type [error] that the pipeline builds or inspects:
    - [errorString]: the result of [errors.New]; a pointer, so two of them are
      the same error only when they are the same package-level variable
      ([var_name] is [Some] name) -- one made on the fly ([None]) equals no
      target that existed before it;
    - [wrapError], [wrapErrors]: what [fmt.Errorf] returns for one, resp.
      several [%w] verbs; the text is fixed when the error is made;
    - [asError p]: a [*RespBodyUnmarshalerError] stored in an [error]
      interface; [p = None] is the typed nil pointer, which is a non-nil
      interface value. *)

Inductive error : Type :=
| errorString (var_name : option string) (s : string)
| wrapError (msg : string) (err : option error)
| wrapErrors (msg : string) (errs : list error)
| asError (p : option RespBodyUnmarshalerError)
with RespBodyUnmarshalerError : Type :=
| Build_RespBodyUnmarshalerError (CexErrCode : Z) (CexErrMsg : string) (Err : option error).

Definition CexErrCode (e : RespBodyUnmarshalerError) : Z :=
  match e with Build_RespBodyUnmarshalerError c _ _ => c end.
Definition CexErrMsg (e : RespBodyUnmarshalerError) : string :=
  match e with Build_RespBodyUnmarshalerError _ m _ => m end.
Definition Err (e : RespBodyUnmarshalerError) : option error :=
  match e with Build_RespBodyUnmarshalerError _ _ x => x end.

(** [strconv.FormatInt(n, 10)], also what [%d] and [%v] print for an integer. *)
Definition FormatInt (n : Z) : string := pretty n.

(** The method [Error()].  The one of [RespBodyUnmarshalerError] has a
    pointer receiver and reads its fields, so it panics on the nil pointer
    ([None] here). *)
Fixpoint Error (e : error) : option string :=
  match e with
  | errorString _ s => Some s
  | wrapError msg _ => Some msg
  | wrapErrors msg _ => Some msg
  | asError None => None
  | asError (Some (Build_RespBodyUnmarshalerError code msg err)) =>
      let shown :=
        match err with
        | None => "<nil>"
        | Some e' => match Error e' with Some s => s | None => "<nil>" end
        end in
      Some ("code: " ++ FormatInt code ++ ", msg: " ++ msg ++ ", err: " ++ shown)
  end.

(** [%v] on an [error] operand: a nil interface prints [<nil>]; otherwise
    [Error()] is called and a panic of it on a nil receiver is caught by
    [fmt] and printed as [<nil>] too. *)
Definition fmt_v (e : option error) : string :=
  match e with
  | None => "<nil>"
  | Some e' => match Error e' with Some s => s | None => "<nil>" end
  end.

(** [%w] inside [fmt.Errorf]: as [%v], but a nil interface operand is not an
    [error] and prints as a bad verb. *)
Definition fmt_w (e : option error) : string :=
  match e with
  | None => "%!w(<nil>)"
  | Some _ => fmt_v e
  end.

(** [err == target] on interface values: same dynamic type and same pointer. *)
Definition same_error (err target : error) : bool :=
  match err, target with
  | errorString (Some a) _, errorString (Some b) _ => bool_decide (a = b)
  | asError None, asError None => true
  | _, _ => false
  end.

(** The loop [is] of package [errors] (Go 1.20 and later): compare, then ask
    the error's own [Is] method, then unwrap.  The only [Is] method among
    these values is the one of [RespBodyUnmarshalerError] (pointer receiver),
      [return e.Err != nil && errors.Is(e.Err, target)],
    which dereferences its receiver and so panics on the typed nil pointer. *)
Fixpoint errors_is (target : error) (err : error) {struct err} : outcome bool :=
  if same_error err target then Returns true else
  match err with
  | errorString _ _ => Returns false
  | wrapError _ None => Returns false
  | wrapError _ (Some e) => errors_is target e
  | wrapErrors _ errs =>
      (fix any (l : list error) : outcome bool :=
         match l with
         | [] => Returns false
         | e :: l' =>
             match errors_is target e with
             | Returns true => Returns true
             | Returns false => any l'
             | Panics => Panics
             end
         end) errs
  | asError None => Panics
  | asError (Some (Build_RespBodyUnmarshalerError _ _ None)) => Returns false
  | asError (Some (Build_RespBodyUnmarshalerError _ _ (Some e))) => errors_is target e
  end.

(** [errors.Is(err, target)]. *)
Definition errors_Is (err target : option error) : outcome bool :=
  match err, target with
  | Some e, Some t => errors_is t e
  | None, None => Returns true
  | _, _ => Returns false
  end.

(** Modelled from the spec: the sentinel errors of package cex
    ([var ErrInvalidTimestamp = errors.New(...)] and the like), which are
    declared in another file of the package.  The spec names the first by its
    cause, "invalid/expired timestamp"; only the identity of a sentinel
    enters [errors.Is], its text is carried along for the composite
    messages. *)
Definition ErrInvalidTimestamp : error :=
  errorString (Some "cex.ErrInvalidTimestamp") "cex: invalid timestamp".
Definition ErrUnexpected : error :=
  errorString (Some "cex.ErrUnexpected") "cex: unexpected".
Definition ErrJsonUnmarshal : error :=
  errorString (Some "cex.ErrJsonUnmarshal") "cex: json unmarshal".
Definition ErrJsonMarshal : error :=
  errorString (Some "cex.ErrJsonMarshal") "cex: json marshal".
Definition ErrS2M : error :=
  errorString (Some "cex.ErrS2M") "cex: struct to map".

(** ** JSON bodies

    A body is a sequence of bytes; [encoding/json] scans all of it before it
    decodes anything ([checkValid]) and either rejects it or has read exactly
    one JSON value.  The scanner is Go's; a body carries what it finds, a
    [SyntaxError] with its text or the [Value] read.  A number keeps its
    literal, as the decoder does. *)

Inductive json : Type :=
| JNull
| JBool (b : bool)
| JNumber (lit : string)
| JString (s : string)
| JArray (items : list json)
| JObject (members : list (string * json)).

Inductive json_scan : Type :=
| SyntaxError (msg : string)
| Value (v : json).

Record Body : Type := {
  bytes : string;
  scan : json_scan
}.

(** ** Core types of package cex *)

Record ReqBaseConfig : Type := {
  BaseUrl : string;
  Path : string;
  Method : string;
  IsUserData : bool;
  UserTimeInterval : Z;
  IpTimeInterval : Z
}.

Definition HTTPStatusCodeChecker : Type := Z -> option error.

Definition RespBodyUnmarshaler (D : Type) : Type :=
  Body -> D * option RespBodyUnmarshalerError.

(** [ReqConfig]: the base config with the two strategy slots, each of which
    may be nil. *)
Record ReqConfig (D : Type) : Type := {
  base : ReqBaseConfig;
  config_HTTPStatusCodeChecker : option HTTPStatusCodeChecker;
  config_RespBodyUnmarshaler : option (RespBodyUnmarshaler D)
}.
Arguments base {D} _.
Arguments config_HTTPStatusCodeChecker {D} _.
Arguments config_RespBodyUnmarshaler {D} _.

(** What the executor reads of a [*resty.Response]. *)
Record Response : Type := {
  resp_StatusCode : Z;
  resp_Status : string;
  resp_Body : Body
}.

Record HTTPError : Type := {
  StatusCode : Z;
  Status : string;
  HTTPError_Err : option error
}.

Record RequestError : Type := {
  RequestError_ReqBaseConfig : ReqBaseConfig;
  RequestError_HTTPError : option HTTPError;
  RequestError_RespBodyUnmarshalerError : option RespBodyUnmarshalerError;
  RequestError_Err : option error
}.

Definition SetErr (e : RequestError) (err : error) : RequestError :=
  {| RequestError_ReqBaseConfig := RequestError_ReqBaseConfig e;
     RequestError_HTTPError := RequestError_HTTPError e;
     RequestError_RespBodyUnmarshalerError := RequestError_RespBodyUnmarshalerError e;
     RequestError_Err := Some err |}.

(** [func (e *RequestError) Is(target error) bool]. *)
Definition RequestError_Is (e : RequestError) (target : option error) : outcome bool :=
  match RequestError_Err e with
  | None => Returns false
  | Some err => errors_Is (Some err) target
  end.

Definition IsNil (e : RequestError) : bool :=
  match RequestError_Err e with None => true | Some _ => false end.

Definition IsNotNil (e : RequestError) : bool := negb (IsNil e).

(** ** Effects

    What a call of the executor does outside itself, in order. *)

Inductive verb : Type := Get | Post | Put | Delete.

Inductive event : Type :=
| MakeCalled
| TransportCalled (v : verb)
| StatusChecked (code : Z)
| BodyDecoded (body : Body).

(** A computation over a world [W]: its outcome, the events it left, and the
    world after it. *)
Definition M (W A : Type) : Type := W -> outcome A * list event * W.

Definition ret {W A} (a : A) : M W A := fun w => (Returns a, [], w).

Definition bind {W A B} (c : M W A) (k : A -> M W B) : M W B :=
  fun w =>
    match c w with
    | (Returns a, t1, w1) =>
        match k a w1 with
        | (r, t2, w2) => (r, (t1 ++ t2)%list, w2)
        end
    | (Panics, t1, w1) => (Panics, t1, w1)
    end.

Definition tell {W} (e : event) : M W unit := fun w => (Returns tt, [e], w).

Definition lift {W A} (x : outcome A) : M W A := fun w => (x, [], w).

Definition panic {W A} : M W A := lift Panics.

Notation "'let*' x ':=' c 'in' k" := (bind c (fun x => k))
  (at level 10, x pattern, c at level 100, k at level 200).

Section Executor.

(** The world, the transport's request handle, and the two type parameters
    of [Request] (the request data and the response data with its zero
    value). *)
Context {W Rq ReqDataType RespDataType Opt : Type}.
Context (zero : RespDataType).

(** [ReqMaker.Make(config, reqData, opts...)]: both results may be nil. *)
Context (Make : ReqBaseConfig -> ReqDataType -> list Opt -> W -> (option Rq * option error) * W).

(** The transport: [req.Get("")], [req.Post("")], [req.Put("")] and
    [req.Delete("")] on a non-nil request; both results may be nil. *)
Context (Execute : verb -> Rq -> W -> (option Response * option error) * W).

Definition call_Make (config : ReqBaseConfig) (reqData : ReqDataType) (opts : list Opt)
  : M W (option Rq * option error) :=
  fun w => let (r, w') := Make config reqData opts w in (Returns r, [MakeCalled], w').

(** A method call on a nil [*resty.Request] dereferences it. *)
Definition call_Execute (v : verb) (req : option Rq) : M W (option Response * option error) :=
  match req with
  | None => panic
  | Some rq => fun w => let (r, w') := Execute v rq w in (Returns r, [TransportCalled v], w')
  end.

(** The [switch config.Method] over [http.MethodGet], ... *)
Definition method_verb (m : string) : option verb :=
  if bool_decide (m = "GET") then Some Get
  else if bool_decide (m = "POST") then Some Post
  else if bool_decide (m = "PUT") then Some Put
  else if bool_decide (m = "DELETE") then Some Delete
  else None.

Definition attempt_result : Type := option Response * RespDataType * RequestError.

(** [fmt.Errorf] with three [%w]: the operands that are non-nil interface
    values are wrapped; a [*RespBodyUnmarshalerError] is one even when the
    pointer is nil. *)
Definition request_Errorf (errResty errHttp : option error)
    (errBodyUnmarshal : option RespBodyUnmarshalerError) : error :=
  wrapErrors
    ("cex: request, resty err: " ++ fmt_w errResty ++
     ", http err: " ++ fmt_w errHttp ++
     ", body unmarshal err: " ++ fmt_w (Some (asError errBodyUnmarshal)))
    (option_list errResty ++ option_list errHttp ++ [asError errBodyUnmarshal])%list.

Definition request (config : ReqConfig RespDataType) (reqData : ReqDataType) (opts : list Opt)
  : M W attempt_result :=
  let reqErr :=
    {| RequestError_ReqBaseConfig := base config;
       RequestError_HTTPError := None;
       RequestError_RespBodyUnmarshalerError := None;
       RequestError_Err := None |} in
  let respData := zero in
  let* (req, err) := call_Make (base config) reqData opts in
  match err with
  | Some e =>
      ret (None, respData,
           SetErr reqErr (wrapError ("cex: make request, " ++ fmt_w (Some e)) (Some e)))
  | None =>
  match method_verb (Method (base config)) with
  | None =>
      ret (None, respData,
           SetErr reqErr (errorString None
             ("cex: http method " ++ Method (base config) ++ " is not supported")))
  | Some v =>
  let* (resp, err) := call_Execute v req in
  match err, resp with
  | Some e, None =>
      ret (None, respData,
           SetErr reqErr (wrapError ("cex: request err: " ++ fmt_w (Some e)) (Some e)))
  | None, None =>
      ret (None, respData,
           SetErr reqErr (errorString None
             "cex: resp and err are all nil, resty may have bugs"))
  | errResty, Some r =>
  match config_HTTPStatusCodeChecker config with
  | None =>
      ret (Some r, respData,
           SetErr reqErr (errorString None "cex: config http status code checker is nil"))
  | Some checker =>
  match config_RespBodyUnmarshaler config with
  | None =>
      ret (Some r, respData,
           SetErr reqErr (errorString None "cex: config resp body unmarshaler is nil"))
  | Some unmarshaler =>
  let* _ := tell (StatusChecked (resp_StatusCode r)) in
  let errHttp := checker (resp_StatusCode r) in
  let* _ := tell (BodyDecoded (resp_Body r)) in
  let (respData, errBodyUnmarshal) := unmarshaler (resp_Body r) in
  match errHttp, errBodyUnmarshal with
  | None, None => ret (Some r, respData, reqErr)
  | _, _ =>
      ret (Some r, respData,
           {| RequestError_ReqBaseConfig := base config;
              RequestError_HTTPError :=
                match errHttp with
                | Some eh =>
                    Some {| StatusCode := resp_StatusCode r;
                            Status := resp_Status r;
                            HTTPError_Err := Some eh |}
                | None => None
                end;
              RequestError_RespBodyUnmarshalerError := errBodyUnmarshal;
              RequestError_Err := Some (request_Errorf errResty errHttp errBodyUnmarshal) |})
  end
  end
  end
  end
  end
  end.

(** The loop of [Request]: [for i := 0; i < 3; i++], with [last] the values
    of [resp, data, err] so far. *)
Fixpoint Request_loop (n : nat) (last : attempt_result)
    (config : ReqConfig RespDataType) (reqData : ReqDataType) (opts : list Opt)
  : M W attempt_result :=
  match n with
  | O => ret last
  | S n' =>
      let* r := request config reqData opts in
      let* again := lift (RequestError_Is (snd r) (Some ErrInvalidTimestamp)) in
      if again then Request_loop n' r config reqData opts else ret r
  end.

Definition zero_ReqBaseConfig : ReqBaseConfig :=
  {| BaseUrl := ""; Path := ""; Method := ""; IsUserData := false;
     UserTimeInterval := 0; IpTimeInterval := 0 |}.

Definition zero_RequestError : RequestError :=
  {| RequestError_ReqBaseConfig := zero_ReqBaseConfig;
     RequestError_HTTPError := None;
     RequestError_RespBodyUnmarshalerError := None;
     RequestError_Err := None |}.

Definition Request (config : ReqConfig RespDataType) (reqData : ReqDataType) (opts : list Opt)
  : M W attempt_result :=
  Request_loop 3 (None, zero, zero_RequestError) config reqData opts.

End Executor.

(** ** Credentials: [cex.Api] *)

(** [type Signer func(payload, key string) []byte]; a [[]byte] may be nil. *)
Definition Signer : Type := string -> string -> outcome (option string).

Record Api : Type := {
  ApiKey : string;
  SecretKey : string;
  Passphrase : string;
  signer : option Signer
}.

(** [func (api Api) Sign(payload, key string) []byte]. *)
Definition Sign (api : Api) (payload key : string) : outcome (option string) :=
  match signer api with
  | Some f => f payload key
  | None => Returns None
  end.

(** ** Decoding with [encoding/json]

    [json.Unmarshal(data, &v)] for the three targets the sources use.  A
    syntax error is found before anything is stored.  After that a JSON value
    that does not fit its target is skipped, the first such mismatch is
    remembered and returned at the end, and everything else is stored
    (the package's documented behaviour for [UnmarshalTypeError]). *)

Definition kind_name (v : json) : string :=
  match v with
  | JNull => "null"
  | JBool _ => "bool"
  | JNumber _ => "number"
  | JString _ => "string"
  | JArray _ => "array"
  | JObject _ => "object"
  end.

(** A [*json.UnmarshalTypeError], by its text: what was read ([value]) and
    where it did not fit. *)
Definition UnmarshalTypeError (value into : string) : error :=
  errorString None ("json: cannot unmarshal " ++ value ++ " into Go " ++ into).

(** Keep the first saved error. *)
Definition saveError (saved : option error) (e : error) : option error :=
  match saved with
  | Some _ => saved
  | None => Some e
  end.

Definition is_digit (c : ascii) : bool :=
  (48 <=? nat_of_ascii c)%nat && (nat_of_ascii c <=? 57)%nat.

Fixpoint parse_digits (acc : Z) (s : string) : option Z :=
  match s with
  | EmptyString => Some acc
  | String c s' =>
      if is_digit c
      then parse_digits (10 * acc + (Z.of_nat (nat_of_ascii c) - 48)) s'
      else None
  end.

(** [strconv.ParseInt(s, 10, 64)]: an optional sign, then one digit at
    least, and the value within [int64]. *)
Definition ParseInt (s : string) : option Z :=
  let signed (neg : bool) (ds : string) :=
    match ds with
    | EmptyString => None
    | _ =>
        match parse_digits 0 ds with
        | Some n =>
            let z := if neg then - n else n in
            if ((- 2 ^ 63 <=? z) && (z <? 2 ^ 63))%Z then Some z else None
        | None => None
        end
    end in
  match s with
  | String "-" ds => signed true ds
  | String "+" ds => signed false ds
  | _ => signed false s
  end.

(** The name folding of [encoding/json] ([foldName]): ASCII letters to upper
    case; of the runes outside ASCII only U+017F (long s) and U+212A (Kelvin
    sign) fold to an ASCII letter, every other one folds to a rune outside
    ASCII. *)
Fixpoint foldName (s : string) : string :=
  match s with
  | EmptyString => EmptyString
  | String c s' =>
      let n := nat_of_ascii c in
      if (97 <=? n)%nat && (n <=? 122)%nat then String (ascii_of_nat (n - 32)) (foldName s')
      else
        match n, s' with
        | 197%nat, String d s'' =>
            if (nat_of_ascii d =? 191)%nat then String "S" (foldName s'')
            else String c (foldName s')
        | 226%nat, String d (String e s'') =>
            if (nat_of_ascii d =? 132)%nat && (nat_of_ascii e =? 170)%nat
            then String "K" (foldName s'')
            else String c (foldName s')
        | _, _ => String c (foldName s')
        end
  end.

(** A member key selects a struct field by its exact name or, failing that,
    by its folded name; with the two fields below this is equality of the
    folded names. *)
Definition key_is (field key : string) : bool :=
  bool_decide (foldName key = foldName field).

(** Modelled from the spec: the type [CodeMsg] of package bnc, declared in
    another file; it is the "minimal error envelope ({code, message}-shaped)"
    of the spec, with the keys of the envelope quoted in [config_fu_test.go],
    [{"code":-1022,"msg":"Signature for this request is not valid."}]. *)
Record CodeMsg : Type := {
  Code : Z;
  Msg : string
}.

Definition store_Code (v : json) (st : CodeMsg * option error) : CodeMsg * option error :=
  let (c, saved) := st in
  match v with
  | JNull => st
  | JNumber lit =>
      match ParseInt lit with
      | Some n => ({| Code := n; Msg := Msg c |}, saved)
      | None =>
          (c, saveError saved
                (UnmarshalTypeError ("number " ++ lit) "struct field CodeMsg.code of type int"))
      end
  | _ =>
      (c, saveError saved
            (UnmarshalTypeError (kind_name v) "struct field CodeMsg.code of type int"))
  end.

Definition store_Msg (v : json) (st : CodeMsg * option error) : CodeMsg * option error :=
  let (c, saved) := st in
  match v with
  | JNull => st
  | JString s => ({| Code := Code c; Msg := s |}, saved)
  | _ =>
      (c, saveError saved
            (UnmarshalTypeError (kind_name v) "struct field CodeMsg.msg of type string"))
  end.

Fixpoint store_members (members : list (string * json)) (st : CodeMsg * option error)
  : CodeMsg * option error :=
  match members with
  | [] => st
  | (k, v) :: rest =>
      store_members rest
        (if key_is "code" k then store_Code v st
         else if key_is "msg" k then store_Msg v st
         else st)
  end.

(** [json.Unmarshal(body, &codeMsg)]. *)
Definition json_Unmarshal_CodeMsg (body : Body) (codeMsg : CodeMsg) : CodeMsg * option error :=
  match scan body with
  | SyntaxError msg => (codeMsg, Some (errorString None msg))
  | Value JNull => (codeMsg, None)
  | Value (JObject members) => store_members members (codeMsg, None)
  | Value v => (codeMsg, Some (UnmarshalTypeError (kind_name v) "value of type bnc.CodeMsg"))
  end.

(** What [fuBodyUnmshCodeMsg] has in [codeMsg] after
    [_ = json.Unmarshal(body, &codeMsg)], and the error it drops. *)
Definition decoded_envelope (body : Body) : CodeMsg :=
  fst (json_Unmarshal_CodeMsg body {| Code := 0; Msg := "" |}).

Definition envelope_error (body : Body) : option error :=
  snd (json_Unmarshal_CodeMsg body {| Code := 0; Msg := "" |}).

(** ** The futures body unmarshaler *)

Section FuBodyUnmsh.

(** [spotCexCustomErrCodes], the code-to-cause table ([map[int]error]) of
    package bnc; it is declared in another file. *)
Context (spotCexCustomErrCodes : gmap Z error).

Definition fuBodyUnmshCodeMsg (body : Body) : option RespBodyUnmarshalerError :=
  let codeMsg := decoded_envelope body in
  let code := Code codeMsg in
  let msg := Msg codeMsg in
  if ((code =? 0) || (code =? 200))%Z then None
  else if (0 <? code)%Z then
    Some (Build_RespBodyUnmarshalerError code msg
      (Some (wrapError
         ("bnc: " ++ fmt_w (Some ErrUnexpected) ++ ": code: " ++ FormatInt code ++ ", msg: " ++ msg)
         (Some ErrUnexpected))))
  else
    let errCtm :=
      match spotCexCustomErrCodes !! code with
      | Some e => e
      | None => errorString None (FormatInt code ++ ", " ++ msg)
      end in
    Some (Build_RespBodyUnmarshalerError code msg
      (Some (wrapError ("bnc: " ++ fmt_w (Some errCtm)) (Some errCtm)))).

(** [fuBodyUnmshWrapper]. *)
Definition fuBodyUnmshWrapper {D} (zero : D) (unmarshaler : RespBodyUnmarshaler D)
  : RespBodyUnmarshaler D :=
  fun body =>
    let d := zero in
    match fuBodyUnmshCodeMsg body with
    | Some err => (d, Some err)
    | None => unmarshaler body
    end.

End FuBodyUnmsh.

(** ** The kline body unmarshaler *)

Definition klineMapKeys : list string := [
  "openTime";
  "openPrice";
  "highPrice";
  "lowPrice";
  "closePrice";
  "volume";
  "closeTime";
  "quoteAssetVolume";
  "tradesNumber";
  "takerBuyBaseAssetVolume";
  "takerBuyQuoteAssetVolume";
  "unused"
].

Definition klineLastIndex : Z := Z.of_nat (length klineMapKeys) - 1.

Section Kline.

(** [float64] and [strconv.ParseFloat(s, 64)], which fails on a literal out
    of range; the type [Kline] (declared in another file of package bnc), and the
    two library calls made on each row. *)
Context {float64 Kline : Type}.
Context (ParseFloat : string -> option float64).

(** The values [encoding/json] stores in an [any]. *)
Inductive any : Type :=
| AnyNil
| AnyBool (b : bool)
| AnyFloat64 (f : float64)
| AnyString (s : string)
| AnySlice (items : list any)
| AnyMap (members : gmap string any).

Context (zero_Kline : Kline).
Context (json_Marshal : gmap string any -> string * option error).
Context (json_Unmarshal_Kline : string -> Kline -> Kline * option error).

(** A JSON value into an [any]: only a number can fail; [nil] is stored for
    it and decoding goes on. *)
Fixpoint store_any (v : json) (saved : option error) {struct v} : any * option error :=
  match v with
  | JNull => (AnyNil, saved)
  | JBool b => (AnyBool b, saved)
  | JNumber lit =>
      match ParseFloat lit with
      | Some f => (AnyFloat64 f, saved)
      | None =>
          (AnyNil, saveError saved (UnmarshalTypeError ("number " ++ lit) "value of type float64"))
      end
  | JString s => (AnyString s, saved)
  | JArray items =>
      let fix go (l : list json) (saved : option error) : list any * option error :=
        match l with
        | [] => ([], saved)
        | x :: l' =>
            let (a, saved1) := store_any x saved in
            let (r, saved2) := go l' saved1 in
            (a :: r, saved2)
        end in
      let (r, saved') := go items saved in (AnySlice r, saved')
  | JObject members =>
      let fix go (l : list (string * json)) (m : gmap string any) (saved : option error)
        : gmap string any * option error :=
        match l with
        | [] => (m, saved)
        | (k, x) :: l' =>
            let (a, saved1) := store_any x saved in
            go l' (<[k := a]> m) saved1
        end in
      let (m, saved') := go members ∅ saved in (AnyMap m, saved')
  end.

Fixpoint store_items (l : list json) (saved : option error) : list any * option error :=
  match l with
  | [] => ([], saved)
  | x :: l' =>
      let (a, saved1) := store_any x saved in
      let (r, saved2) := store_items l' saved1 in
      (a :: r, saved2)
  end.

(** One element of the outer array into a [[]any]. *)
Definition store_row (v : json) (saved : option error) : list any * option error :=
  match v with
  | JNull => ([], saved)
  | JArray items => store_items items saved
  | _ => ([], saveError saved (UnmarshalTypeError (kind_name v) "value of type []interface {}"))
  end.

Fixpoint store_rows (l : list json) (saved : option error) : list (list any) * option error :=
  match l with
  | [] => ([], saved)
  | x :: l' =>
      let (row, saved1) := store_row x saved in
      let (r, saved2) := store_rows l' saved1 in
      (row :: r, saved2)
  end.

(** [json.Unmarshal(body, &data)] with [var data [][]any]. *)
Definition json_Unmarshal_rows (body : Body) : list (list any) * option error :=
  match scan body with
  | SyntaxError msg => ([], Some (errorString None msg))
  | Value JNull => ([], None)
  | Value (JArray rows) => store_rows rows None
  | Value v => ([], Some (UnmarshalTypeError (kind_name v) "value of type [][]interface {}"))
  end.

(** The inner loop,
      [for i, v := range kline { if i > klineLastIndex { break }; m[klineMapKeys[i]] = v }],
    from index [i] on.  An index past the keys would panic. *)
Fixpoint kline_fill (i : nat) (kline : list any) (m : gmap string any)
  : outcome (gmap string any) :=
  match kline with
  | [] => Returns m
  | v :: rest =>
      if (klineLastIndex <? Z.of_nat i)%Z then Returns m
      else
        match klineMapKeys !! i with
        | Some key => kline_fill (S i) rest (<[key := v]> m)
        | None => Panics
        end
  end.

(** The outer loop over [data], with [klines] the slice so far; a nil slice
    is the empty list. *)
Fixpoint kline_rows (data : list (list any)) (klines : list Kline)
  : outcome (list Kline * option RespBodyUnmarshalerError) :=
  match data with
  | [] => Returns (klines, None)
  | kline :: rest =>
      match kline_fill 0 kline ∅ with
      | Panics => Panics
      | Returns m =>
          match json_Marshal m with
          | (_, Some err) =>
              Returns ([], Some (Build_RespBodyUnmarshalerError 0 ""
                (Some (wrapErrors (fmt_w (Some ErrJsonMarshal) ++ ": " ++ fmt_w (Some err))
                         [ErrJsonMarshal; err]))))
          | (d, None) =>
              match json_Unmarshal_Kline d zero_Kline with
              | (_, Some err) =>
                  Returns ([], Some (Build_RespBodyUnmarshalerError 0 ""
                    (Some (wrapErrors (fmt_w (Some ErrJsonUnmarshal) ++ ": " ++ fmt_w (Some err))
                             [ErrJsonUnmarshal; err]))))
              | (k, None) => kline_rows rest (klines ++ [k])%list
              end
          end
      end
  end.

Definition klineBodyUnmsher (body : Body)
  : outcome (list Kline * option RespBodyUnmarshalerError) :=
  match json_Unmarshal_rows body with
  | (_, Some err) =>
      Returns ([], Some (Build_RespBodyUnmarshalerError 0 ""
        (Some (wrapErrors (fmt_w (Some ErrJsonUnmarshal) ++ ": " ++ fmt_w (Some err))
                 [ErrJsonUnmarshal; err]))))
  | (data, None) => kline_rows data []
  end.

(** Setting keys one after the other. *)
Definition set_pairs (m : gmap string any) (kvs : list (string * any)) : gmap string any :=
  fold_left (fun acc kv => <[kv.1 := kv.2]> acc) kvs m.

(** A row decodes to [k] when the map made of its first twelve positions
    marshals and the result unmarshals to [k]. *)
Definition row_decodes (row : list any) (k : Kline) : Prop :=
  exists m d,
    kline_fill 0 (take 12 row) ∅ = Returns m /\
    json_Marshal m = (d, None) /\
    json_Unmarshal_Kline d zero_Kline = (k, None).

End Kline.

(** ** The signer

    HMAC (RFC 2104) over SHA-256 (FIPS 180-4), as [crypto/hmac] and
    [crypto/sha256] compute them.  Bytes are integers in [0, 256), words
    integers in [0, 2^32). *)

Module SHA256.

Definition add32 (x y : Z) : Z := (x + y) mod 2 ^ 32.
Definition rotr (n x : Z) : Z :=
  Z.lor (Z.shiftr x n) (Z.shiftl x (32 - n) mod 2 ^ 32).
Definition not32 (x : Z) : Z := Z.lxor x (2 ^ 32 - 1).
Definition Ch (e f g : Z) : Z := Z.lxor (Z.land e f) (Z.land (not32 e) g).
Definition Maj (a b c : Z) : Z :=
  Z.lxor (Z.lxor (Z.land a b) (Z.land a c)) (Z.land b c).
Definition Sigma0 (a : Z) : Z := Z.lxor (Z.lxor (rotr 2 a) (rotr 13 a)) (rotr 22 a).
Definition Sigma1 (e : Z) : Z := Z.lxor (Z.lxor (rotr 6 e) (rotr 11 e)) (rotr 25 e).
Definition sigma0 (x : Z) : Z := Z.lxor (Z.lxor (rotr 7 x) (rotr 18 x)) (Z.shiftr x 3).
Definition sigma1 (x : Z) : Z := Z.lxor (Z.lxor (rotr 17 x) (rotr 19 x)) (Z.shiftr x 10).

Definition K : list Z := [
  1116352408; 1899447441; 3049323471; 3921009573; 961987163; 1508970993;
  2453635748; 2870763221; 3624381080; 310598401; 607225278; 1426881987;
  1925078388; 2162078206; 2614888103; 3248222580; 3835390401; 4022224774;
  264347078; 604807628; 770255983; 1249150122; 1555081692; 1996064986;
  2554220882; 2821834349; 2952996808; 3210313671; 3336571891; 3584528711;
  113926993; 338241895; 666307205; 773529912; 1294757372; 1396182291;
  1695183700; 1986661051; 2177026350; 2456956037; 2730485921; 2820302411;
  3259730800; 3345764771; 3516065817; 3600352804; 4094571909; 275423344;
  430227734; 506948616; 659060556; 883997877; 958139571; 1322822218;
  1537002063; 1747873779; 1955562222; 2024104815; 2227730452; 2361852424;
  2428436474; 2756734187; 3204031479; 3329325298
].

Record state : Type := {
  ha : Z; hb : Z; hc : Z; hd : Z; he : Z; hf : Z; hg : Z; hh : Z
}.

Definition init : state :=
  {| ha := 1779033703; hb := 3144134277; hc := 1013904242; hd := 2773480762;
     he := 1359893119; hf := 2600822924; hg := 528734635; hh := 1541459225 |}.

(** Big-endian words of a block. *)
Fixpoint be_words (bs : list Z) : list Z :=
  match bs with
  | a :: b :: c :: d :: rest => (((a * 256 + b) * 256 + c) * 256 + d) :: be_words rest
  | _ => []
  end.

(** The message schedule, newest word first. *)
Fixpoint extend (n : nat) (rev_w : list Z) : list Z :=
  match n with
  | O => rev_w
  | S n' =>
      let w2 := nth 1 rev_w 0 in
      let w7 := nth 6 rev_w 0 in
      let w15 := nth 14 rev_w 0 in
      let w16 := nth 15 rev_w 0 in
      extend n' (add32 (add32 (sigma1 w2) w7) (add32 (sigma0 w15) w16) :: rev_w)
  end.

Definition schedule (block : list Z) : list Z :=
  rev (extend 48 (rev (be_words block))).

Definition round (s : state) (kw : Z * Z) : state :=
  let t1 := add32 (add32 (add32 (hh s) (Sigma1 (he s))) (Ch (he s) (hf s) (hg s)))
                  (add32 (fst kw) (snd kw)) in
  let t2 := add32 (Sigma0 (ha s)) (Maj (ha s) (hb s) (hc s)) in
  {| ha := add32 t1 t2; hb := ha s; hc := hb s; hd := hc s;
     he := add32 (hd s) t1; hf := he s; hg := hf s; hh := hg s |}.

Definition compress (s : state) (block : list Z) : state :=
  let r := fold_left round (combine K (schedule block)) s in
  {| ha := add32 (ha s) (ha r); hb := add32 (hb s) (hb r);
     hc := add32 (hc s) (hc r); hd := add32 (hd s) (hd r);
     he := add32 (he s) (he r); hf := add32 (hf s) (hf r);
     hg := add32 (hg s) (hg r); hh := add32 (hh s) (hh r) |}.

(** [n] as [k] big-endian bytes. *)
Fixpoint be_bytes (k : nat) (n : Z) : list Z :=
  match k with
  | O => []
  | S k' => (be_bytes k' (n / 256) ++ [n mod 256])%list
  end.

Definition pad (msg : list Z) : list Z :=
  let len := Z.of_nat (length msg) in
  let zeros := Z.to_nat ((55 - len) mod 64) in
  (msg ++ [128] ++ repeat 0 zeros ++ be_bytes 8 (8 * len))%list.

Fixpoint blocks (fuel : nat) (bs : list Z) : list (list Z) :=
  match fuel, bs with
  | S fuel', _ :: _ => firstn 64 bs :: blocks fuel' (skipn 64 bs)
  | _, _ => []
  end.

Definition digest (s : state) : list Z :=
  (be_bytes 4 (ha s) ++ be_bytes 4 (hb s) ++ be_bytes 4 (hc s) ++ be_bytes 4 (hd s) ++
   be_bytes 4 (he s) ++ be_bytes 4 (hf s) ++ be_bytes 4 (hg s) ++ be_bytes 4 (hh s))%list.

Definition Sum256 (msg : list Z) : list Z :=
  let p := pad msg in
  digest (fold_left compress (blocks (length p) p) init).

End SHA256.

Definition string_bytes (s : string) : list Z :=
  map (fun c => Z.of_nat (nat_of_ascii c)) (list_ascii_of_string s).

(** [hmac.New(sha256.New, key)], [Write(payload)], [Sum(nil)]. *)
Definition hmac_sha256 (key msg : list Z) : list Z :=
  let k0 := if (64 <? length key)%nat then SHA256.Sum256 key else key in
  let k := (k0 ++ repeat 0 (64 - length k0)%nat)%list in
  let ipad := map (Z.lxor 54) k in
  let opad := map (Z.lxor 92) k in
  SHA256.Sum256 (opad ++ SHA256.Sum256 (ipad ++ msg))%list.

Definition hex_digit (n : Z) : ascii :=
  if (n <? 10)%Z then ascii_of_nat (Z.to_nat n + 48) else ascii_of_nat (Z.to_nat n + 87).

(** [hex.EncodeToString]. *)
Fixpoint hex_EncodeToString (bs : list Z) : string :=
  match bs with
  | [] => EmptyString
  | b :: rest => String (hex_digit (b / 16)) (String (hex_digit (b mod 16)) (hex_EncodeToString rest))
  end.

(** Modelled from the spec: [cex.SignByHmacSHA256ToHex(payload, key)], which
    [signReqData] calls and which is defined in another file of package cex.
    The spec has the signer as the "HMAC-class message authentication code
    over the canonical string using the secret key, rendered as lowercase
    hex"; the name fixes the hash. *)
Definition SignByHmacSHA256ToHex (payload key : string) : string :=
  hex_EncodeToString (hmac_sha256 (string_bytes key) (string_bytes payload)).

(** ** [net/url]: query escaping and [url.Values] *)

Definition upperhex (n : nat) : ascii :=
  if (n <? 10)%nat then ascii_of_nat (n + 48) else ascii_of_nat (n + 55).

(** The bytes [QueryEscape] leaves alone: letters, digits and [-_.~]. *)
Definition unreserved (c : ascii) : bool :=
  let n := nat_of_ascii c in
  ((97 <=? n) && (n <=? 122) || (65 <=? n) && (n <=? 90) || (48 <=? n) && (n <=? 57) ||
   (n =? 45) || (n =? 95) || (n =? 46) || (n =? 126))%nat.

(** [url.QueryEscape]: a space becomes [+], any other byte that is not
    unreserved becomes [%XX]. *)
Fixpoint QueryEscape (s : string) : string :=
  match s with
  | EmptyString => EmptyString
  | String c s' =>
      if unreserved c then String c (QueryEscape s')
      else if (nat_of_ascii c =? 32)%nat then String "+" (QueryEscape s')
      else String "%" (String (upperhex (nat_of_ascii c / 16))
                         (String (upperhex (nat_of_ascii c mod 16)) (QueryEscape s')))
  end.

(** [url.Values] is [map[string][]string]; [Set] replaces the values of a key. *)
Definition Values_Set (v : gmap string (list string)) (key value : string)
  : gmap string (list string) :=
  <[key := [value]]> v.

(** The inner loop of [Encode] over the values of one key, appending to the
    buffer. *)
Fixpoint Encode_key (keyEscaped : string) (vs : list string) (buf : string) : string :=
  match vs with
  | [] => buf
  | v :: vs' =>
      let buf1 := if (0 <? String.length buf)%nat then buf ++ "&" else buf in
      Encode_key keyEscaped vs' (buf1 ++ keyEscaped ++ "=" ++ QueryEscape v)
  end.

Fixpoint Encode_keys (v : gmap string (list string)) (keys : list string) (buf : string) : string :=
  match keys with
  | [] => buf
  | k :: keys' =>
      let vs := default [] (v !! k) in
      Encode_keys v keys' (Encode_key (QueryEscape k) vs buf)
  end.

(** [Values.Encode]: the keys are collected, sorted ([slices.Sort], byte-wise
    lexicographic order), and written in that order. *)
Definition Values_Encode (v : gmap string (list string)) : string :=
  let keys := merge_sort String.le (map fst (map_to_list v)) in
  Encode_keys v keys "".

(** ** [resty]: what a request maker sets on a client and its request

    A client and the request made from it ([clt.R()]) are one record: the
    request keeps a pointer to its client, and the hooks get both.  A header
    is kept under the name the maker gives it (on the wire the name is
    case-insensitive). *)

Record RestyRequest : Type := {
  BaseURL : string;
  Header : gmap string string;
  QueryString : string
}.

(** [resty.New()] with its [R()]. *)
Definition resty_New : RestyRequest :=
  {| BaseURL := ""; Header := ∅; QueryString := "" |}.

Definition SetBaseURL (url : string) (r : RestyRequest) : RestyRequest :=
  {| BaseURL := url; Header := Header r; QueryString := QueryString r |}.

Definition SetHeader (k v : string) (r : RestyRequest) : RestyRequest :=
  {| BaseURL := BaseURL r; Header := <[k := v]> (Header r); QueryString := QueryString r |}.

Definition SetQueryString (q : string) (r : RestyRequest) : RestyRequest :=
  {| BaseURL := BaseURL r; Header := Header r; QueryString := q |}.

(** [cex.ReqOpt]: a hook that may change the client and the request. *)
Definition ReqOpt : Type := RestyRequest -> RestyRequest.

Definition apply_opts (opts : list ReqOpt) (r : RestyRequest) : RestyRequest :=
  fold_left (fun r opt => opt r) opts r.

(** ** The Binance request maker: [bnc.User] *)

Record User : Type := {
  api : Api
}.

Definition NewUser (apiKey secretKey : string) : User :=
  {| api := {| ApiKey := apiKey; SecretKey := secretKey; Passphrase := ""; signer := None |} |}.

Section UserMake.

(** [s2m.ToStrMap] (a library of its own) turns the request data into string
    pairs or fails; the clock is read from the world. *)
Context {W ReqData : Type}.
Context (ToStrMap : ReqData -> gmap string string * option error).
Context (UnixMilli : W -> Z * W).

(** [for k, v := range m { val.Set(k, v) }]. *)
Definition set_all (m : gmap string string) (val : gmap string (list string))
  : gmap string (list string) :=
  map_fold (fun k v acc => Values_Set acc k v) val m.

Definition signReqData (data : ReqData) (key : string) (w : W)
  : (string * option error) * W :=
  match ToStrMap data with
  | (_, Some err) =>
      (("", Some (wrapErrors (fmt_w (Some ErrS2M) ++ ": " ++ fmt_w (Some err)) [ErrS2M; err])), w)
  | (m, None) =>
      let (now, w') := UnixMilli w in
      let val : gmap string (list string) := {[ "timestamp" := [FormatInt now] ]} in
      let val := set_all m val in
      let query := Values_Encode val in
      let sig := SignByHmacSHA256ToHex query key in
      ((query ++ "&signature=" ++ sig, None), w')
  end.

Definition sign (u : User) (data : ReqData) (w : W) : (string * option error) * W :=
  signReqData data (SecretKey (api u)) w.

(** The request that [makePublicReq] has in [req] when it reaches its last
    line. *)
Definition makePublicReq_req (config : ReqBaseConfig) (m : gmap string string)
    (opts : list ReqOpt) : RestyRequest :=
  let val := set_all m ∅ in
  let clt := SetBaseURL (BaseUrl config) resty_New in
  let req := SetQueryString (Values_Encode val) clt in
  apply_opts opts req.

(** [makePublicReq]; its last line is [return nil, nil]. *)
Definition makePublicReq (u : User) (config : ReqBaseConfig) (reqData : ReqData)
    (opts : list ReqOpt) (w : W) : (option RestyRequest * option error) * W :=
  match ToStrMap reqData with
  | (_, Some err) =>
      ((None, Some (wrapError ("bnc: make public request, " ++ fmt_w (Some err)) (Some err))), w)
  | (m, None) =>
      let req := makePublicReq_req config m opts in
      ((None, None), w)
  end.

Definition makePrivateReq (u : User) (config : ReqBaseConfig) (reqData : ReqData)
    (opts : list ReqOpt) (w : W) : (option RestyRequest * option error) * W :=
  match sign u reqData w with
  | ((_, Some err), w') => ((None, Some err), w')
  | ((query, None), w') =>
      let clt :=
        SetBaseURL (BaseUrl config ++ Path config ++ "?" ++ query)
          (SetHeader "X-MBX-APIKEY" (ApiKey (api u)) resty_New) in
      let req := apply_opts opts clt in
      ((Some req, None), w')
  end.

(** [func (u User) Make(config, reqData, opts...)]. *)
Definition User_Make (u : User) (config : ReqBaseConfig) (reqData : ReqData)
    (opts : list ReqOpt) (w : W) : (option RestyRequest * option error) * W :=
  if IsUserData config then makePrivateReq u config reqData opts w
  else makePublicReq u config reqData opts w.

End UserMake.

(** ** Reading a run *)

Definition is_MakeCalled (e : event) : bool :=
  match e with MakeCalled => true | _ => false end.

Definition is_TransportCalled (e : event) : bool :=
  match e with TransportCalled _ => true | _ => false end.

(** How often the request maker, resp. the transport, was called in a run. *)
Definition makes (t : list event) : nat := length (List.filter is_MakeCalled t).
Definition sends (t : list event) : nat := length (List.filter is_TransportCalled t).

Section Attempts.

Context {W Rq ReqDataType RespDataType Opt : Type}.
Context (zero : RespDataType).
Context (Make : ReqBaseConfig -> ReqDataType -> list Opt -> W -> (option Rq * option error) * W).
Context (Execute : verb -> Rq -> W -> (option Response * option error) * W).
Context (config : ReqConfig RespDataType) (reqData : ReqDataType) (opts : list Opt).

(** The test of the retry loop on the result of one attempt:
    [err.Is(ErrInvalidTimestamp)]. *)
Definition clock_skew (r : option Response * RespDataType * RequestError) : outcome bool :=
  RequestError_Is (snd r) (Some ErrInvalidTimestamp).

(** The world in which attempt number [k] (from 0) starts when the attempts
    before it ran one after the other from [w], and the events those left. *)
Fixpoint world_before (k : nat) (w : W) : list event * W :=
  match k with
  | O => ([], w)
  | S k' =>
      match request zero Make Execute config reqData opts w with
      | (_, t, w') => let (t', w'') := world_before k' w' in ((t ++ t')%list, w'')
      end
  end.

(** Attempt number [k] of a run of attempts from [w]. *)
Definition attempt (k : nat) (w : W)
  : outcome (option Response * RespDataType * RequestError) * list event * W :=
  request zero Make Execute config reqData opts (snd (world_before k w)).

(** Attempt [k] returns with the clock-skew cause. *)
Definition skewed (k : nat) (w : W) : Prop :=
  exists r t w', attempt k w = (Returns r, t, w') /\ clock_skew r = Returns true.

End Attempts.

(** ** A scripted world

    For examples: the request maker and the transport answer from two lists,
    one entry per call. *)

Record script : Type := {
  made : list (option nat * option error);
  replied : list (option Response * option error)
}.

Definition scripted_Make (c : ReqBaseConfig) (d : unit) (opts : list unit) (w : script)
  : (option nat * option error) * script :=
  match made w with
  | [] => ((None, None), w)
  | r :: rest => (r, {| made := rest; replied := replied w |})
  end.

Definition scripted_Execute (v : verb) (rq : nat) (w : script)
  : (option Response * option error) * script :=
  match replied w with
  | [] => ((None, None), w)
  | r :: rest => (r, {| made := made w; replied := rest |})
  end.

Definition example_base : ReqBaseConfig :=
  {| BaseUrl := "https://fapi.binance.com"; Path := "/fapi/v1/order"; Method := "GET";
     IsUserData := true; UserTimeInterval := 0; IpTimeInterval := 0 |}.

(** The code-to-cause table reduced to the clock-skew code of Binance. *)
Definition example_codes : gmap Z error := {[ (-1021)%Z := ErrInvalidTimestamp ]}.

Definition body_of (v : json) : Body := {| bytes := ""; scan := Value v |}.

(** A status checker in the manner of [bnc.HTTPStatusCodeChecker]. *)
Definition example_checker : HTTPStatusCodeChecker :=
  fun code => if (code =? 200)%Z then None
              else Some (errorString None ("bnc: http status " ++ FormatInt code)).

(** A decoder for a string-typed response behind the futures wrapper. *)
Definition example_unmarshaler : RespBodyUnmarshaler string :=
  fuBodyUnmshWrapper example_codes "" (fun body => (bytes body, None)).

Definition example_config : ReqConfig string :=
  {| base := example_base;
     config_HTTPStatusCodeChecker := Some example_checker;
     config_RespBodyUnmarshaler := Some example_unmarshaler |}.

Definition skew_body : Body :=
  body_of (JObject [("code", JNumber "-1021");
                    ("msg", JString "Timestamp for this request is outside of the recvWindow.")]).

Definition skew_response : Response :=
  {| resp_StatusCode := 400; resp_Status := "400 Bad Request"; resp_Body := skew_body |}.

Definition ok_response : Response :=
  {| resp_StatusCode := 200; resp_Status := "200 OK";
     resp_Body := {| bytes := "{}"; scan := Value (JObject []) |} |}.

(** Three attempts that each get the clock-skew answer. *)
Definition three_skews : script :=
  {| made := [(Some 1%nat, None); (Some 2%nat, None); (Some 3%nat, None)];
     replied := [(Some skew_response, None); (Some skew_response, None);
                 (Some skew_response, None)] |}.

(** A clock-skew answer, then a good one. *)
Definition skew_then_ok : script :=
  {| made := [(Some 1%nat, None); (Some 2%nat, None); (Some 3%nat, None)];
     replied := [(Some skew_response, None); (Some ok_response, None);
                 (Some ok_response, None)] |}.

(** A response with a bad status next to an error of the transport. *)
Definition bad_status : script :=
  {| made := [(Some 1%nat, None)];
     replied := [(Some skew_response, Some (errorString None "resty: status 400"))] |}.

(** A request maker that fails for a reason of its own. *)
Definition maker_fails : script :=
  {| made := [(None, Some (errorString None "s2m: unsupported field type"))];
     replied := [(Some ok_response, None)] |}.

(** A request maker that fails with the clock-skew cause. *)
Definition maker_fails_with_skew : script :=
  {| made := [(None, Some ErrInvalidTimestamp); (None, Some ErrInvalidTimestamp);
              (None, Some ErrInvalidTimestamp); (Some 4%nat, None)];
     replied := [(Some ok_response, None)] |}.

(** A transport that fails without a response. *)
Definition transport_fails : script :=
  {| made := [(Some 1%nat, None); (Some 2%nat, None)];
     replied := [(None, Some (errorString None "dial tcp: connection refused"));
                 (Some ok_response, None)] |}.

(** A transport that returns neither a response nor an error. *)
Definition transport_silent : script :=
  {| made := [(Some 1%nat, None); (Some 2%nat, None)];
     replied := [(None, None); (Some ok_response, None)] |}.

(** A server error with a body that is no envelope. *)
Definition server_error : script :=
  {| made := [(Some 1%nat, None); (Some 2%nat, None)];
     replied := [(Some {| resp_StatusCode := 500; resp_Status := "500 Internal Server Error";
                          resp_Body := {| bytes := "{}"; scan := Value (JObject []) |} |}, None);
                 (Some ok_response, None)] |}.

(** A transport that fails, without a response, with the clock-skew cause. *)
Definition transport_fails_with_skew : script :=
  {| made := [(Some 1%nat, None); (Some 2%nat, None); (Some 3%nat, None); (Some 4%nat, None)];
     replied := [(None, Some ErrInvalidTimestamp); (None, Some ErrInvalidTimestamp);
                 (None, Some ErrInvalidTimestamp); (Some ok_response, None)] |}.

(** [s] between double quotes. *)
Definition quoted (s : string) : string :=
  String (ascii_of_nat 34) s ++ String (ascii_of_nat 34) "".

(** An envelope whose [msg] has the wrong type: [{"code":-1021,"msg":5}]. *)
Definition half_envelope : Body :=
  {| bytes := "{" ++ quoted "code" ++ ":-1021," ++ quoted "msg" ++ ":5}";
     scan := Value (JObject [("code", JNumber "-1021"); ("msg", JNumber "5")]) |}.

(** An envelope with a positive code: [{"code":429,"msg":"busy"}]. *)
Definition positive_envelope : Body :=
  body_of (JObject [("code", JNumber "429"); ("msg", JString "busy")]).

(** A body that is no JSON at all. *)
Definition html_body : Body :=
  {| bytes := "<html>502 Bad Gateway</html>";
     scan := SyntaxError "invalid character '<' looking for beginning of value" |}.

(** The decoder of a string-typed response: the bytes as they are. *)
Definition string_unmarshaler : RespBodyUnmarshaler string :=
  fun body => (bytes body, None).

(** A stand-in for the library calls on a kline row: floats are the integer
    literals, the marshalled map is its sorted key list, and the decoded
    [Kline] is that text. *)
Definition example_ParseFloat (lit : string) : option Z := ParseInt lit.

Definition example_Marshal (m : gmap string (@any Z)) : string * option error :=
  (String.concat "," (merge_sort String.le (map fst (map_to_list m))), None).

Definition example_Unmarshal_Kline (d : string) (k : string) : string * option error :=
  (d, None).

(** One row of thirteen positions: the twelve of a kline and one more. *)
Definition long_row : json :=
  JArray [JNumber "1499040000000"; JString "0.01634790"; JString "0.80000000";
          JString "0.01575800"; JString "0.01577100"; JString "148976.11427815";
          JNumber "1499644799999"; JString "2434.19055334"; JNumber "308";
          JString "1756.87402397"; JString "28.46694368"; JString "0";
          JString "one more"].

(** ** Reading a query string *)

(** One parameter as [Encode] writes it. *)
Definition pair_text (kv : string * string) : string :=
  QueryEscape kv.1 ++ "=" ++ QueryEscape kv.2.

(** The parameters of a query string: its pieces between [&]
    ([strings.Split(q, "&")]). *)
Fixpoint params (q : string) : list string :=
  match q with
  | EmptyString => [EmptyString]
  | String c q' =>
      if Ascii.eqb c "&" then EmptyString :: params q'
      else
        match params q' with
        | p :: ps => String c p :: ps
        | [] => [String c EmptyString]
        end
  end.

Definition is_lower_hex (c : ascii) : bool :=
  let n := nat_of_ascii c in
  ((48 <=? n) && (n <=? 57) || (97 <=? n) && (n <=? 102))%nat.

Definition is_byte (b : Z) : Prop := (0 <= b < 256)%Z.

Fixpoint all_chars (p : ascii -> bool) (s : string) : bool :=
  match s with
  | EmptyString => true
  | String c s' => p c && all_chars p s'
  end.

(** What the buffer of [Encode] holds after the pieces [l] were written
    behind [buf]. *)
Definition written (buf : string) (l : list string) : string :=
  fold_left (fun b s => (if (0 <? String.length b)%nat then b ++ "&" else b) ++ s) l buf.

(** The pieces [l], each behind a [&]. *)
Definition amp_each (l : list string) : string :=
  fold_right (fun s acc => "&" ++ s ++ acc) "" l.

(** The entries of [m] as lists of one value each: what [Set] stores. *)
Definition singletons (m : gmap string string) : gmap string (list string) :=
  (fun v => [v]) <$> m.

(** Pairs in the order of their keys. *)
Definition by_key (a b : string * string) : Prop := String.le a.1 b.1.

(** [s2m.ToStrMap] on data that is a map of strings already, and a clock for
    examples: the world is the time. *)
Definition ToStrMap_id (m : gmap string string) : gmap string string * option error :=
  (m, None).

Definition clock (w : Z) : Z * Z := (w, w + 1).

Definition depth_config : ReqBaseConfig :=
  {| BaseUrl := "https://api.binance.com"; Path := "/api/v3/depth"; Method := "GET";
     IsUserData := false; UserTimeInterval := 0; IpTimeInterval := 0 |}.

(** A transport that is never reached with a request worth sending. *)
Definition no_transport (v : verb) (rq : RestyRequest) (w : Z)
  : (option Response * option error) * Z :=
  ((Some ok_response, None), w).

Definition depth_req_config : ReqConfig string :=
  {| base := depth_config;
     config_HTTPStatusCodeChecker := Some example_checker;
     config_RespBodyUnmarshaler := Some string_unmarshaler |}.

(** ** The standard body unmarshaler of package cex *)

(** [reflect.Kind] and its [String()]. *)
Module reflect.

Inductive Kind : Type :=
| Invalid | Bool | Int | Int8 | Int16 | Int32 | Int64
| Uint | Uint8 | Uint16 | Uint32 | Uint64 | Uintptr
| Float32 | Float64 | Complex64 | Complex128
| Array | Chan | Func | Interface | Map | Pointer | Slice | String | Struct
| UnsafePointer.

Definition Kind_String (k : Kind) : string :=
  match k with
  | Invalid => "invalid" | Bool => "bool" | Int => "int" | Int8 => "int8"
  | Int16 => "int16" | Int32 => "int32" | Int64 => "int64"
  | Uint => "uint" | Uint8 => "uint8" | Uint16 => "uint16" | Uint32 => "uint32"
  | Uint64 => "uint64" | Uintptr => "uintptr"
  | Float32 => "float32" | Float64 => "float64"
  | Complex64 => "complex64" | Complex128 => "complex128"
  | Array => "array" | Chan => "chan" | Func => "func" | Interface => "interface"
  | Map => "map" | Pointer => "ptr" | Slice => "slice" | String => "string"
  | Struct => "struct" | UnsafePointer => "unsafe.Pointer"
  end.

End reflect.

(** What [StdBodyUnmarshaler] asks of its type parameter [D]:
    - the kind of [D], [reflect.TypeOf(respData).Elem().Kind()];
    - the zero value, [*new(D)];
    - the name [%T] prints for a value of [D];
    - the type assertion [any(string(data)).(D)], which holds exactly when
      [D] is the type [string] itself ([of_string] is then the identity) and
      fails for a defined type whose underlying type is [string];
    - [json.Unmarshal(data, respData)] from the zero value, with the value it
      leaves behind the pointer. *)
Record GoType (D : Type) : Type := {
  type_Kind : reflect.Kind;
  type_zero : D;
  type_name : string;
  of_string : option (string -> D);
  type_Unmarshal : Body -> D -> D * option error
}.
Arguments type_Kind {D} _.
Arguments type_zero {D} _.
Arguments type_name {D} _.
Arguments of_string {D} _.
Arguments type_Unmarshal {D} _.

(** [func (e *RespBodyUnmarshalerError) SetErr(err error)]. *)
Definition RespBodyUnmarshalerError_SetErr (e : RespBodyUnmarshalerError) (err : error)
  : RespBodyUnmarshalerError :=
  Build_RespBodyUnmarshalerError (CexErrCode e) (CexErrMsg e) (Some err).

(** [new(RespBodyUnmarshalerError)]. *)
Definition new_RespBodyUnmarshalerError : RespBodyUnmarshalerError :=
  Build_RespBodyUnmarshalerError 0 "" None.

(** [func StdBodyUnmarshaler[D any](data []byte) (D, *RespBodyUnmarshalerError)]. *)
Definition StdBodyUnmarshaler {D : Type} (T : GoType D) : RespBodyUnmarshaler D :=
  fun data =>
    let errUnmar := new_RespBodyUnmarshalerError in
    let respData := type_zero T in
    let converted (anyRes : option D) : D * option RespBodyUnmarshalerError :=
      match anyRes with
      | Some res => (res, None)
      | None =>
          (type_zero T,
           Some (RespBodyUnmarshalerError_SetErr errUnmar
                   (errorString None ("cex: cannot convert to " ++ type_name T))))
      end in
    match type_Kind T with
    | reflect.String =>
        converted (match of_string T with
                   | Some conv => Some (conv (bytes data))
                   | None => None
                   end)
    | reflect.Slice | reflect.Struct | reflect.Map =>
        match type_Unmarshal T data respData with
        | (respData', Some err) =>
            (respData',
             Some (RespBodyUnmarshalerError_SetErr errUnmar
                     (wrapErrors
                        (fmt_w (Some ErrJsonUnmarshal) ++ ": unmarshal response body, " ++
                         fmt_w (Some err))
                        [ErrJsonUnmarshal; err])))
        | (respData', None) => converted (Some respData')
        end
    | k =>
        (respData,
         Some (RespBodyUnmarshalerError_SetErr errUnmar
                 (errorString None
                    ("response data type " ++ reflect.Kind_String k ++ " is not supported"))))
    end.

(** The kinds that [StdBodyUnmarshaler] hands to [json.Unmarshal]. *)
Definition is_json_kind (k : reflect.Kind) : bool :=
  match k with
  | reflect.Slice | reflect.Struct | reflect.Map => true
  | _ => false
  end.

(** The type [string], and a defined type [type Symbol string]. *)
Definition string_GoType : GoType string :=
  {| type_Kind := reflect.String; type_zero := ""; type_name := "string";
     of_string := Some (fun s => s);
     type_Unmarshal := fun _ d => (d, None) |}.

Inductive Symbol : Type := Symbol_of (s : string).

Definition Symbol_GoType : GoType Symbol :=
  {| type_Kind := reflect.String; type_zero := Symbol_of ""; type_name := "bnc.Symbol";
     of_string := None;
     type_Unmarshal := fun _ d => (d, None) |}.

(** The struct [CodeMsg] with its decoder, and [int]. *)
Definition CodeMsg_GoType : GoType CodeMsg :=
  {| type_Kind := reflect.Struct; type_zero := {| Code := 0; Msg := "" |};
     type_name := "bnc.CodeMsg"; of_string := None;
     type_Unmarshal := json_Unmarshal_CodeMsg |}.

Definition int_GoType : GoType Z :=
  {| type_Kind := reflect.Int; type_zero := 0; type_name := "int"; of_string := None;
     type_Unmarshal := fun _ d => (d, None) |}.

(** ** The response check of [bnc.User] *)

Section HandleResp.

(** [bnc.HTTPStatusCodeChecker], a function of package bnc that is declared
    in another file. *)
Context (bnc_HTTPStatusCodeChecker : Z -> option error).

(** [func (u User) HandleResp(resp *resty.Response, req *resty.Request) error]. *)
Definition HandleResp (u : User) (resp : option Response) (req : option RestyRequest)
  : option error :=
  match resp with
  | None => Some (errorString None "bnc: response checker: response is nil")
  | Some r =>
      let httpCode := resp_StatusCode r in
      let cexStdErr :=
        if negb (httpCode =? 200)%Z then bnc_HTTPStatusCodeChecker httpCode else None in
      match cexStdErr with
      | Some e =>
          Some (wrapError
                  ("bnc: http code: " ++ FormatInt httpCode ++ ", status: " ++ resp_Status r ++
                   ", err: " ++ fmt_w (Some e))
                  (Some e))
      | None =>
          let body := resp_Body r in
          match json_Unmarshal_CodeMsg body {| Code := 0; Msg := "" |} with
          | (_, Some _) => None
          | (codeMsg, None) =>
              if (0 <=? Code codeMsg)%Z then None
              else Some (errorString None
                           ("bnc: msg: " ++ Msg codeMsg ++ ", code: " ++ FormatInt (Code codeMsg)))
          end
      end
  end.

End HandleResp.

(** ** The order book unmarshaler *)

(** [%v] on a [[]string]. *)
Definition fmt_v_strings (l : list string) : string :=
  "[" ++ String.concat " " l ++ "]".

Section OrderBook.

(** [float64] with [strconv.ParseFloat(s, 64)], and the types of the three
    fields that [obBodyUnmsher] copies from the raw book, with their zero
    values. *)
Context {float64 UpdateId EventTime TransactTime : Type}.
Context (ParseFloat : string -> float64 * option error).
Context (zero_UpdateId : UpdateId) (zero_EventTime : EventTime)
        (zero_TransactTime : TransactTime).

(** The loop of [convRawStrBookToFloatBook], with [book] the slice so far; a
    nil slice is the empty list.  The two index expressions come after the
    test of the length. *)
Fixpoint convRawStrBookToFloatBook_loop (raw : list (list string)) (book : list (list float64))
  : list (list float64) * option error :=
  match raw with
  | [] => (book, None)
  | pq :: rest =>
      match pq with
      | [pq0; pq1] =>
          match ParseFloat pq0 with
          | (_, Some err) =>
              ([], Some (wrapError ("parse price " ++ pq0 ++ ", " ++ fmt_w (Some err)) (Some err)))
          | (p, None) =>
              match ParseFloat pq1 with
              | (_, Some err) =>
                  ([], Some (wrapError ("parse qty " ++ pq1 ++ ", " ++ fmt_w (Some err))
                               (Some err)))
              | (q, None) => convRawStrBookToFloatBook_loop rest (book ++ [[p; q]])%list
              end
          end
      | _ =>
          ([], Some (errorString None
                       ("price and qty in book " ++ fmt_v_strings pq ++ " len != 2")))
      end
  end.

Definition convRawStrBookToFloatBook (raw : list (list string))
  : list (list float64) * option error :=
  convRawStrBookToFloatBook_loop raw [].

(** The types [RawOrderBook] and [OrderBook] of package bnc are declared in
    another file; these are the fields that [obBodyUnmsher] reads and sets. *)
Record RawOrderBook : Type := {
  RawOrderBook_Code : Z;
  RawOrderBook_Msg : string;
  RawOrderBook_Bids : list (list string);
  RawOrderBook_Asks : list (list string);
  RawOrderBook_LastUpdateId : UpdateId;
  RawOrderBook_E : EventTime;
  RawOrderBook_T : TransactTime
}.

Record OrderBook : Type := {
  Bids : list (list float64);
  Asks : list (list float64);
  LastUpdateId : UpdateId;
  E : EventTime;
  T : TransactTime
}.

Definition zero_RawOrderBook : RawOrderBook :=
  {| RawOrderBook_Code := 0; RawOrderBook_Msg := ""; RawOrderBook_Bids := [];
     RawOrderBook_Asks := []; RawOrderBook_LastUpdateId := zero_UpdateId;
     RawOrderBook_E := zero_EventTime; RawOrderBook_T := zero_TransactTime |}.

Definition zero_OrderBook : OrderBook :=
  {| Bids := []; Asks := []; LastUpdateId := zero_UpdateId;
     E := zero_EventTime; T := zero_TransactTime |}.

(** [json.Unmarshal(body, raw)] into the raw book, and [SpotCodeMsgChecker],
    the function of package bnc that names the cause of a code; both belong
    to files that are not part of the sources. *)
Context (json_Unmarshal_RawOrderBook : Body -> RawOrderBook -> RawOrderBook * option error).
Context (SpotCodeMsgChecker : Z -> option error).

(** [func obBodyUnmsher(body []byte) (OrderBook, *cex.RespBodyUnmarshalerError)]. *)
Definition obBodyUnmsher (body : Body) : OrderBook * option RespBodyUnmarshalerError :=
  match json_Unmarshal_RawOrderBook body zero_RawOrderBook with
  | (_, Some err) =>
      (zero_OrderBook,
       Some (Build_RespBodyUnmarshalerError 0 ""
               (Some (wrapErrors (fmt_w (Some ErrJsonUnmarshal) ++ ": " ++ fmt_w (Some err))
                        [ErrJsonUnmarshal; err]))))
  | (raw, None) =>
      let code := RawOrderBook_Code raw in
      if negb (code =? 0)%Z then
        let errMsg :=
          match SpotCodeMsgChecker code with
          | Some e => e
          | None => errorString None (RawOrderBook_Msg raw)
          end in
        (zero_OrderBook,
         Some (Build_RespBodyUnmarshalerError code (RawOrderBook_Msg raw) (Some errMsg)))
      else
        match convRawStrBookToFloatBook (RawOrderBook_Bids raw) with
        | (_, Some err) =>
            (zero_OrderBook,
             Some (Build_RespBodyUnmarshalerError 0 ""
                     (Some (wrapError ("parse raw orderbook bids, " ++ fmt_w (Some err))
                              (Some err)))))
        | (bids, None) =>
            match convRawStrBookToFloatBook (RawOrderBook_Asks raw) with
            | (_, Some err) =>
                (zero_OrderBook,
                 Some (Build_RespBodyUnmarshalerError 0 ""
                         (Some (wrapError ("parse raw orderbook asks, " ++ fmt_w (Some err))
                                  (Some err)))))
            | (asks, None) =>
                ({| Bids := bids; Asks := asks;
                    LastUpdateId := RawOrderBook_LastUpdateId raw;
                    E := RawOrderBook_E raw; T := RawOrderBook_T raw |}, None)
            end
        end
  end.

(** One entry of a raw book and the row it converts to. *)
Definition converts (pq : list string) (row : list float64) : Prop :=
  exists pq0 pq1 p q,
    pq = [pq0; pq1] /\ ParseFloat pq0 = (p, None) /\ ParseFloat pq1 = (q, None) /\
    row = [p; q].

(** What is wrong with an entry, as the error of the conversion tells it: its
    length, or the first of its two strings that does not parse. *)
Definition refused (pq : list string) (err : error) : Prop :=
  (length pq <> 2%nat /\
   err = errorString None ("price and qty in book " ++ fmt_v_strings pq ++ " len != 2")) \/
  (exists pq0 pq1 f e,
     pq = [pq0; pq1] /\ ParseFloat pq0 = (f, Some e) /\
     err = wrapError ("parse price " ++ pq0 ++ ", " ++ fmt_v (Some e)) (Some e)) \/
  (exists pq0 pq1 p f e,
     pq = [pq0; pq1] /\ ParseFloat pq0 = (p, None) /\ ParseFloat pq1 = (f, Some e) /\
     err = wrapError ("parse qty " ++ pq1 ++ ", " ++ fmt_v (Some e)) (Some e)).

End OrderBook.

(** ** More scripted runs *)

(** A configuration with a method that the executor does not know. *)
Definition patch_config : ReqConfig string :=
  {| base := {| BaseUrl := "https://fapi.binance.com"; Path := "/fapi/v1/order";
                Method := "PATCH"; IsUserData := true;
                UserTimeInterval := 0; IpTimeInterval := 0 |};
     config_HTTPStatusCodeChecker := Some example_checker;
     config_RespBodyUnmarshaler := Some example_unmarshaler |}.

(** A configuration without a status checker. *)
Definition no_checker_config : ReqConfig string :=
  {| base := example_base;
     config_HTTPStatusCodeChecker := None;
     config_RespBodyUnmarshaler := Some example_unmarshaler |}.

(** A request maker that returns neither a request nor an error. *)
Definition maker_silent : script :=
  {| made := [(None, None)]; replied := [(Some ok_response, None)] |}.

(** A good response next to an error of the transport. *)
Definition ok_with_transport_error : script :=
  {| made := [(Some 1%nat, None); (Some 2%nat, None)];
     replied := [(Some ok_response, Some (errorString None "resty: redirect loop"));
                 (Some ok_response, None)] |}.

(** A payload that has a member of its own called [Code]:
    [{"symbol":"ETHUSDT","Code":7,"data":[]}]. *)
Definition tagged_payload : Body :=
  {| bytes := "{" ++ quoted "symbol" ++ ":" ++ quoted "ETHUSDT" ++ "," ++ quoted "Code" ++
              ":7," ++ quoted "data" ++ ":[]}";
     scan := Value (JObject [("symbol", JString "ETHUSDT"); ("Code", JNumber "7");
                             ("data", JArray [])]) |}.


(** A stand-in for [strconv.ParseFloat]: the floats are the integer
    literals. *)
Definition example_ParseFloat64 (s : string) : Z * option error :=
  match ParseInt s with
  | Some n => (n, None)
  | None =>
      (0, Some (errorString None
                  ("strconv.ParseFloat: parsing " ++ quoted s ++ ": invalid syntax")))
  end.

(** A stand-in for the decoder of the raw order book: the body's bytes are
    the code, and the book is a fixed one. *)
Definition example_Unmarshal_RawOrderBook (body : Body)
    (raw : @RawOrderBook Z Z Z) : @RawOrderBook Z Z Z * option error :=
  match ParseInt (bytes body) with
  | Some code =>
      ({| RawOrderBook_Code := code; RawOrderBook_Msg := "Invalid symbol.";
          RawOrderBook_Bids := [["4"; "431"]];
          RawOrderBook_Asks := [["5"; "12"]; ["6"; "1"]];
          RawOrderBook_LastUpdateId := 1027024; RawOrderBook_E := 0; RawOrderBook_T := 0 |},
       None)
  | None => (raw, Some (errorString None "unexpected end of JSON input"))
  end.

(** A code checker that knows no code. *)
Definition example_SpotCodeMsgChecker (code : Z) : option error := None.

(** Request data that [s2m.ToStrMap] refuses. *)
Definition ToStrMap_refuses (data : unit) : gmap string string * option error :=
  (∅, Some (errorString None "s2m: unsupported field type")).

(** ** Reading an escaped string *)

(** A character that is neither of the two separators of a query string. *)
Definition plain (c : ascii) : bool := negb (Ascii.eqb c "&") && negb (Ascii.eqb c "=").

(** * Properties *)

(** ** The executor *)

Section ExecutorFacts.

Context {W Rq ReqDataType RespDataType Opt : Type}.
Context (zero : RespDataType).
Context (Make : ReqBaseConfig -> ReqDataType -> list Opt -> W -> (option Rq * option error) * W).
Context (Execute : verb -> Rq -> W -> (option Response * option error) * W).
Context (config : ReqConfig RespDataType) (reqData : ReqDataType) (opts : list Opt).

Local Abbreviation request1 := (request zero Make Execute config reqData opts).
Local Abbreviation Request3 := (Request zero Make Execute config reqData opts).

(** Case analysis along the body of [request], in the order of its tests. *)
Ltac step_request w :=
  unfold request, bind, call_Make;
  destruct (Make (base config) reqData opts w) as [[?req [?e|]] ?w]; cbn;
  [ | destruct (method_verb (Method (base config))) as [?v|]; cbn;
      [ unfold call_Execute, panic, lift;
        destruct req as [?rq|]; cbn;
        [ match goal with
          | |- context [Execute ?v ?r ?w] =>
              destruct (Execute v r w) as [[[?resp|] [?e|]] ?w]; cbn
          end;
          try (destruct (config_HTTPStatusCodeChecker config) as [?checker|]; cbn;
               [ destruct (config_RespBodyUnmarshaler config) as [?unmarshaler|]; cbn;
                 [ match goal with
                   | |- context [unmarshaler ?b] =>
                       destruct (unmarshaler b) as [?d [?eb|]]; cbn
                   end;
                   match goal with
                   | |- context [checker ?c] => destruct (checker c) as [?eh|]; cbn
                   end
                 | ]
               | ])
        | ]
      | ] ].

(** One attempt asks the request maker exactly once, and the transport once
    at most. *)
Lemma request_makes w : makes (snd (fst (request1 w))) = 1%nat.
Proof. step_request w; reflexivity. Qed.

Lemma request_sends w : (sends (snd (fst (request1 w))) <= 1)%nat.
Proof. step_request w; cbn; lia. Qed.

(** An attempt starts with request construction. *)
Lemma request_starts_with_Make w : head (snd (fst (request1 w))) = Some MakeCalled.
Proof. step_request w; reflexivity. Qed.

Local Abbreviation loop := (fun n last => Request_loop zero Make Execute n last config reqData opts).
Local Abbreviation attempt_no := (attempt zero Make Execute config reqData opts).
Local Abbreviation before := (world_before zero Make Execute config reqData opts).
Local Abbreviation skewed_at := (skewed zero Make Execute config reqData opts).

Lemma makes_app t1 t2 : makes (t1 ++ t2) = (makes t1 + makes t2)%nat.
Proof. unfold makes. now rewrite List.filter_app, length_app. Qed.

Lemma sends_app t1 t2 : sends (t1 ++ t2) = (sends t1 + sends t2)%nat.
Proof. unfold sends. now rewrite List.filter_app, length_app. Qed.

(** One turn of the loop. *)
Lemma Request_loop_step n last w r t w' :
  request1 w = (Returns r, t, w') ->
  loop (S n) last w =
    match clock_skew r with
    | Returns true => let '(o, t', w'') := loop n r w' in (o, (t ++ t')%list, w'')
    | Returns false => (Returns r, t, w')
    | Panics => (Panics, t, w')
    end.
Proof.
  intros Hr. cbn [Request_loop]. unfold bind at 1. rewrite Hr.
  unfold bind, lift, clock_skew.
  destruct (RequestError_Is (snd r) (Some ErrInvalidTimestamp)) as [[|]|]; cbn.
  - now destruct (Request_loop _ _ _ n r config reqData opts w') as [[o t'] w''].
  - unfold ret. now rewrite app_nil_r.
  - now rewrite app_nil_r.
Qed.

Lemma Request_loop_panic n last w t w' :
  request1 w = (Panics, t, w') -> loop (S n) last w = (Panics, t, w').
Proof. intros Hr. cbn [Request_loop]. unfold bind at 1. now rewrite Hr. Qed.

Lemma attempt_0 w : attempt_no 0%nat w = request1 w.
Proof. reflexivity. Qed.

Lemma before_S k w :
  before (S k) w =
    ((snd (fst (request1 w)) ++ fst (before k (snd (request1 w))))%list,
     snd (before k (snd (request1 w)))).
Proof.
  cbn [world_before]. destruct (request1 w) as [[o t] w1]; cbn.
  now destruct (world_before _ _ _ _ _ _ k w1).
Qed.

Lemma attempt_S k w : attempt_no (S k) w = attempt_no k (snd (request1 w)).
Proof. unfold attempt. now rewrite before_S. Qed.

Lemma skewed_S k w : skewed_at (S k) w <-> skewed_at k (snd (request1 w)).
Proof. unfold skewed. now rewrite attempt_S. Qed.

(** The events before attempt [S k] are those before attempt [k] and those
    of attempt [k]. *)
Lemma before_snoc k w :
  before (S k) w =
    ((fst (before k w) ++ snd (fst (attempt_no k w)))%list, snd (attempt_no k w)).
Proof.
  revert w. induction k as [|k IH]; intros w.
  - rewrite before_S. cbn [world_before fst snd]. unfold attempt. cbn [world_before snd].
    now rewrite app_nil_r.
  - rewrite before_S, IH, attempt_S. rewrite (before_S k w). cbn [fst snd].
    now rewrite app_assoc.
Qed.

Lemma makes_before k w : makes (fst (before k w)) = k.
Proof.
  revert w. induction k as [|k IH]; intros w; [reflexivity|].
  rewrite before_S. cbn [fst]. now rewrite makes_app, request_makes, IH.
Qed.

Lemma sends_before k w : (sends (fst (before k w)) <= k)%nat.
Proof.
  revert w. induction k as [|k IH]; intros w; [cbn; lia|].
  rewrite before_S. cbn [fst]. rewrite sends_app.
  pose proof (request_sends w). pose proof (IH (snd (request1 w))). lia.
Qed.

(** The loop makes one attempt after the other for as long as they come back
    with the clock-skew cause, [n] at most; it ends with the first that does
    not, or with attempt [n - 1]. *)
Lemma Request_loop_stops n : forall k w last,
  (k < n)%nat ->
  (forall j, (j < k)%nat -> skewed_at j w) ->
  (k = (n - 1)%nat \/ ~ skewed_at k w) ->
  loop n last w =
    (match attempt_no k w with
     | (Returns r, _, _) =>
         match clock_skew r with Panics => Panics | Returns _ => Returns r end
     | (Panics, _, _) => Panics
     end,
     fst (before (S k) w), snd (before (S k) w)).
Proof.
  induction n as [|n IH]; intros k w last Hk Hbefore Hlast; [lia|].
  destruct k as [|k].
  - rewrite before_snoc, attempt_0. cbn [world_before fst snd app].
    destruct (request1 w) as [[[r|] t] w'] eqn:Hr; cbn [fst snd].
    + rewrite (Request_loop_step _ _ _ _ _ _ Hr).
      destruct (clock_skew r) as [[|]|] eqn:Hs; try reflexivity.
      destruct Hlast as [Hn | Hns].
      * assert (n = 0%nat) as -> by lia. cbn. unfold ret. now rewrite app_nil_r.
      * exfalso. apply Hns. exists r, t, w'. now rewrite attempt_0.
    + now rewrite (Request_loop_panic _ _ _ _ _ Hr).
  - destruct (Hbefore 0%nat ltac:(lia)) as (r & t & w' & Hr & Hs). rewrite attempt_0 in Hr.
    rewrite (Request_loop_step _ _ _ _ _ _ Hr), Hs.
    rewrite (IH k w' r); try lia.
    + rewrite attempt_S, (before_S (S k) w), Hr. reflexivity.
    + intros j Hj. specialize (Hbefore (S j) ltac:(lia)).
      apply skewed_S in Hbefore. now rewrite Hr in Hbefore.
    + destruct Hlast as [Hn | Hns]; [left; lia | right].
      intros Hsk. apply Hns. apply skewed_S. now rewrite Hr.
Qed.

Lemma skewed_dec k w : skewed_at k w \/ ~ skewed_at k w.
Proof.
  unfold skewed. destruct (attempt_no k w) as [[[r|] t] w'] eqn:Ha.
  - destruct (clock_skew r) as [[|]|] eqn:Hs.
    + left. now exists r, t, w'.
    + right. intros (r' & t' & w'' & Heq & Hs'). congruence.
    + right. intros (r' & t' & w'' & Heq & Hs'). congruence.
  - right. intros (r' & t' & w'' & Heq & Hs'). congruence.
Qed.

(** Some attempt among the first [n] is the last one. *)
Lemma last_attempt n w :
  (0 < n)%nat ->
  exists k, (k < n)%nat /\ (forall j, (j < k)%nat -> skewed_at j w) /\
            (k = (n - 1)%nat \/ ~ skewed_at k w).
Proof.
  intros Hn. induction n as [|n IH]; [lia|].
  destruct n as [|n].
  - exists 0%nat. repeat split; [lia | intros; lia | now left].
  - destruct IH as (k & Hk & Hbefore & Hlast); [lia|].
    destruct Hlast as [-> | Hns].
    + replace (S n - 1)%nat with n in * by lia.
      destruct (skewed_dec n w) as [Hs | Hns].
      * exists (S n). repeat split; [lia | | left; lia].
        intros j Hj. destruct (Nat.eq_dec j n) as [-> | Hne]; [assumption|].
        apply Hbefore. lia.
      * exists n. repeat split; [lia | assumption | now right].
    + exists k. repeat split; [lia | assumption | now right].
Qed.

(** C3.  A call of [Request] makes three attempts at most, each of which
    starts with request construction.  When every attempt comes back with
    the clock-skew cause, the call ends after the third and returns that
    attempt's result, its error included.  The first attempt that ends otherwise (with success,
    with another error, or in a panic) is the last: the call has made
    exactly the attempts up to it, and returns its result when there is
    one. *)
Theorem Request_retries_clock_skew_three_times w :
  ((1 <= makes (snd (fst (Request3 w))) <= 3)%nat /\
   (sends (snd (fst (Request3 w))) <= 3)%nat) /\
  (forall k, head (snd (fst (attempt_no k w))) = Some MakeCalled) /\
  ((forall k, (k < 3)%nat -> skewed_at k w) ->
   exists r t w',
     attempt_no 2%nat w = (Returns r, t, w') /\ clock_skew r = Returns true /\
     Request3 w = (Returns r, fst (before 3%nat w), w') /\
     makes (fst (before 3%nat w)) = 3%nat) /\
  (forall k, (k < 3)%nat -> (forall j, (j < k)%nat -> skewed_at j w) -> ~ skewed_at k w ->
     snd (fst (Request3 w)) = fst (before (S k) w) /\
     makes (snd (fst (Request3 w))) = S k /\
     forall r t w', attempt_no k w = (Returns r, t, w') -> clock_skew r = Returns false ->
       Request3 w = (Returns r, fst (before (S k) w), w')).
Proof.
  unfold Request. split; [|split; [|split]].
  - destruct (last_attempt 3 w) as (k & Hk & Hbefore & Hlast); [lia|].
    rewrite (Request_loop_stops 3 k w _ Hk Hbefore Hlast). cbn [fst snd].
    rewrite makes_before. pose proof (sends_before (S k) w). lia.
  - intros k. apply request_starts_with_Make.
  - intros Hall. destruct (Hall 2%nat ltac:(lia)) as (r & t & w' & Ha & Hs).
    exists r, t, w'. split; [assumption|]. split; [assumption|]. split.
    + rewrite (Request_loop_stops 3 2 w _ ltac:(lia)
                 (fun j Hj => Hall j ltac:(lia)) (or_introl eq_refl)).
      rewrite Ha, Hs. rewrite (before_snoc 2 w), Ha. reflexivity.
    + apply makes_before.
  - intros k Hk Hbefore Hnot.
    rewrite (Request_loop_stops 3 k w _ Hk Hbefore (or_intror Hnot)). cbn [fst snd].
    split; [reflexivity|]. split; [apply makes_before|].
    intros r t w' Ha Hs. rewrite Ha, Hs. rewrite (before_snoc k w), Ha. reflexivity.
Qed.

(** C4.  An attempt that obtains a transport response, with a checker and a
    decoder configured, runs the status checker and then the body decoder
    whatever the checker said.  It returns the decoded payload, and no error
    exactly when neither reported one.  Otherwise the structured error
    carries the HTTP error (status code, status, cause) when the checker
    failed, the body error when the decoder failed, and a composite error
    that wraps what the transport, the checker and the decoder reported and
    whose text strings the three together, a missing one printed as a nil
    marker. *)
Theorem request_checks_status_and_body
    w rq w1 v resp errResty w2 checker unmarshaler :
  Make (base config) reqData opts w = ((Some rq, None), w1) ->
  method_verb (Method (base config)) = Some v ->
  Execute v rq w1 = ((Some resp, errResty), w2) ->
  config_HTTPStatusCodeChecker config = Some checker ->
  config_RespBodyUnmarshaler config = Some unmarshaler ->
  let errHttp := checker (resp_StatusCode resp) in
  let respData := fst (unmarshaler (resp_Body resp)) in
  let errBody := snd (unmarshaler (resp_Body resp)) in
  exists reqErr,
    request1 w =
      (Returns (Some resp, respData, reqErr),
       [MakeCalled; TransportCalled v;
        StatusChecked (resp_StatusCode resp); BodyDecoded (resp_Body resp)],
       w2) /\
    RequestError_ReqBaseConfig reqErr = base config /\
    (IsNil reqErr = true <-> errHttp = None /\ errBody = None) /\
    (IsNil reqErr = true ->
       RequestError_HTTPError reqErr = None /\
       RequestError_RespBodyUnmarshalerError reqErr = None) /\
    (IsNil reqErr = false ->
       RequestError_HTTPError reqErr =
         match errHttp with
         | Some eh => Some {| StatusCode := resp_StatusCode resp;
                              Status := resp_Status resp;
                              HTTPError_Err := Some eh |}
         | None => None
         end /\
       RequestError_RespBodyUnmarshalerError reqErr = errBody /\
       RequestError_Err reqErr =
         Some (wrapErrors
                 ("cex: request, resty err: " ++
                    match errResty with
                    | Some e => fmt_v (Some e)
                    | None => "%!w(<nil>)"
                    end ++
                  ", http err: " ++
                    match errHttp with
                    | Some e => fmt_v (Some e)
                    | None => "%!w(<nil>)"
                    end ++
                  ", body unmarshal err: " ++
                    match errBody with
                    | Some b => default "<nil>" (Error (asError (Some b)))
                    | None => "<nil>"
                    end)
                 (option_list errResty ++ option_list errHttp ++ [asError errBody])%list)).
Proof.
  intros HMake Hverb HExecute Hchecker Hunmarshaler errHttp respData errBody.
  subst errHttp respData errBody.
  unfold request, bind, call_Make. rewrite HMake. cbn. rewrite Hverb. cbn.
  rewrite HExecute. cbn.
  destruct errResty as [e|]; cbn; rewrite Hchecker, Hunmarshaler; cbn;
    destruct (unmarshaler (resp_Body resp)) as [d [eb|]]; cbn;
    destruct (checker (resp_StatusCode resp)) as [eh|]; cbn;
    eexists; (split; [reflexivity|]); cbn;
    (split; [reflexivity|]);
    (split; [split; [discriminate || (intros _; now split) | intros [? ?]; congruence]|]);
    (split; [discriminate || (intros _; now split)|]);
    try discriminate; intros _; repeat split; now destruct eb.
Qed.

(** The loop's test looks through the wrapper that [request] puts around the
    error of a failed stage. *)
Lemma clock_skew_wrapError (resp : option Response) (d : RespDataType) msg e :
  clock_skew (resp, d, SetErr
    {| RequestError_ReqBaseConfig := base config;
       RequestError_HTTPError := None;
       RequestError_RespBodyUnmarshalerError := None;
       RequestError_Err := None |} (wrapError msg (Some e))) =
  errors_Is (Some e) (Some ErrInvalidTimestamp).
Proof. reflexivity. Qed.

(** An attempt that is not followed by another one. *)
Lemma Request_ends_with k w r t w' :
  (k < 3)%nat ->
  (forall j, (j < k)%nat -> skewed_at j w) ->
  attempt_no k w = (Returns r, t, w') ->
  clock_skew r = Returns false ->
  Request3 w = (Returns r, (fst (before k w) ++ t)%list, w').
Proof.
  intros Hk Hbefore Ha Hs. unfold Request.
  rewrite (Request_loop_stops 3 k w _ Hk Hbefore).
  - rewrite Ha, Hs, (before_snoc k w), Ha. reflexivity.
  - right. intros (r' & t' & w'' & Ha' & Hs'). congruence.
Qed.

(** An attempt that comes back with the clock-skew cause, like all before
    it, is followed by another one unless it was the third. *)
Lemma Request_goes_on k w :
  (k < 2)%nat ->
  (forall j, (j <= k)%nat -> skewed_at j w) ->
  (S k < makes (snd (fst (Request3 w))))%nat.
Proof.
  intros Hk Hall. unfold Request.
  destruct (last_attempt 3 w) as (k0 & Hk0 & Hbefore & Hlast); [lia|].
  rewrite (Request_loop_stops 3 k0 w _ Hk0 Hbefore Hlast). cbn [fst snd].
  rewrite makes_before.
  destruct (Nat.le_gt_cases k0 k) as [Hle | Hgt]; [|lia].
  destruct Hlast as [-> | Hnot]; [lia|]. destruct (Hnot (Hall k0 Hle)).
Qed.

(** C7, as the code has it.  An attempt in which the request maker fails
    returns a request-construction error that wraps the maker's error, and
    calls nothing but the maker: no transport call.  The call ends there,
    with that error, unless the maker's error itself has the clock-skew
    cause, which is the only thing the retry loop looks at: then another
    attempt follows, unless this was the third. *)
Theorem construction_failure_is_final_unless_clock_skew k w rq e w' :
  (k < 3)%nat ->
  (forall j, (j < k)%nat -> skewed_at j w) ->
  Make (base config) reqData opts (snd (before k w)) = ((rq, Some e), w') ->
  let reqErr :=
    {| RequestError_ReqBaseConfig := base config;
       RequestError_HTTPError := None;
       RequestError_RespBodyUnmarshalerError := None;
       RequestError_Err :=
         Some (wrapError ("cex: make request, " ++ fmt_v (Some e)) (Some e)) |} in
  attempt_no k w = (Returns (None, zero, reqErr), [MakeCalled], w') /\
  sends [MakeCalled] = 0%nat /\
  (errors_Is (Some e) (Some ErrInvalidTimestamp) = Returns false ->
   Request3 w = (Returns (None, zero, reqErr), (fst (before k w) ++ [MakeCalled])%list, w')) /\
  (errors_Is (Some e) (Some ErrInvalidTimestamp) = Returns true -> (k < 2)%nat ->
   (S k < makes (snd (fst (Request3 w))))%nat).
Proof.
  intros Hk Hbefore HMake reqErr.
  assert (attempt_no k w = (Returns (None, zero, reqErr), [MakeCalled], w')) as Ha.
  { unfold attempt, request, bind, call_Make. now rewrite HMake. }
  split; [assumption|]. split; [reflexivity|]. split.
  - intros Hnot. apply (Request_ends_with k w _ _ _ Hk Hbefore Ha).
    subst reqErr. exact Hnot.
  - intros Hskew Hk2. apply Request_goes_on; [assumption|].
    intros j Hj. destruct (Nat.eq_dec j k) as [-> | Hne]; [|apply Hbefore; lia].
    eexists _, _, _. split; [exact Ha|]. subst reqErr. exact Hskew.
Qed.

(** C8, as the code has it.  An attempt in which the transport returns no
    response calls the maker and the transport once each and returns a
    terminal error: one that wraps the transport's error when there is one,
    and otherwise a different one, made on the spot, that blames the
    transport library.  The call ends there with that error; only a
    transport error that itself has the clock-skew cause lets the loop go
    on to another attempt, unless this was the third. *)
Theorem no_response_is_final_unless_clock_skew k w rq w1 v err w2 :
  (k < 3)%nat ->
  (forall j, (j < k)%nat -> skewed_at j w) ->
  Make (base config) reqData opts (snd (before k w)) = ((Some rq, None), w1) ->
  method_verb (Method (base config)) = Some v ->
  Execute v rq w1 = ((None, err), w2) ->
  let cause :=
    match err with
    | Some e => wrapError ("cex: request err: " ++ fmt_v (Some e)) (Some e)
    | None => errorString None "cex: resp and err are all nil, resty may have bugs"
    end in
  let reqErr :=
    {| RequestError_ReqBaseConfig := base config;
       RequestError_HTTPError := None;
       RequestError_RespBodyUnmarshalerError := None;
       RequestError_Err := Some cause |} in
  attempt_no k w = (Returns (None, zero, reqErr), [MakeCalled; TransportCalled v], w2) /\
  (match err with
   | Some e => errors_Is (Some e) (Some ErrInvalidTimestamp) = Returns false
   | None => True
   end ->
   Request3 w =
     (Returns (None, zero, reqErr),
      (fst (before k w) ++ [MakeCalled; TransportCalled v])%list, w2)) /\
  (forall e, err = Some e ->
     errors_Is (Some e) (Some ErrInvalidTimestamp) = Returns true -> (k < 2)%nat ->
     (S k < makes (snd (fst (Request3 w))))%nat).
Proof.
  intros Hk Hbefore HMake Hverb HExecute cause reqErr.
  assert (attempt_no k w = (Returns (None, zero, reqErr), [MakeCalled; TransportCalled v], w2))
    as Ha.
  { unfold attempt, request, bind, call_Make. rewrite HMake. cbn. rewrite Hverb. cbn.
    rewrite HExecute. subst reqErr cause. now destruct err. }
  split; [assumption|]. split.
  - intros Hnot. apply (Request_ends_with k w _ _ _ Hk Hbefore Ha).
    subst reqErr cause. destruct err as [e|]; [exact Hnot | reflexivity].
  - intros e -> Hskew Hk2. apply Request_goes_on; [assumption|].
    intros j Hj. destruct (Nat.eq_dec j k) as [-> | Hne]; [|apply Hbefore; lia].
    eexists _, _, _. split; [exact Ha|]. subst reqErr cause. exact Hskew.
Qed.

End ExecutorFacts.

(** *** The executor on scripted worlds *)

Lemma Request_retries_clock_skew_three_times_witness :
  ((forall k, (k < 3)%nat ->
      skewed "" scripted_Make scripted_Execute example_config tt [] k three_skews) /\
   exists r t w',
     attempt "" scripted_Make scripted_Execute example_config tt [] 2%nat three_skews
       = (Returns r, t, w') /\
     clock_skew r = Returns true /\
     Request "" scripted_Make scripted_Execute example_config tt [] three_skews
       = (Returns r,
          fst (world_before "" scripted_Make scripted_Execute example_config tt [] 3%nat three_skews),
          w') /\
     makes (fst (world_before "" scripted_Make scripted_Execute example_config tt [] 3%nat
                   three_skews)) = 3%nat) /\
  (~ skewed "" scripted_Make scripted_Execute example_config tt [] 1%nat skew_then_ok /\
   makes (snd (fst (Request "" scripted_Make scripted_Execute example_config tt []
                      skew_then_ok))) = 2%nat).
Proof.
  assert (forall k, (k < 3)%nat ->
            skewed "" scripted_Make scripted_Execute example_config tt [] k three_skews) as Hall.
  { intros k Hk. destruct k as [|[|[|k]]]; [| | | lia];
      (eexists _, _, _; split; vm_compute; reflexivity). }
  assert (forall j, (j < 1)%nat ->
            skewed "" scripted_Make scripted_Execute example_config tt [] j skew_then_ok) as Hone.
  { intros j Hj. destruct j as [|j]; [| lia].
    eexists _, _, _; split; vm_compute; reflexivity. }
  assert (~ skewed "" scripted_Make scripted_Execute example_config tt [] 1%nat skew_then_ok)
    as Hnot.
  { intros (r & t & w' & Ha & Hs). vm_compute in Ha. injection Ha as <- _ _.
    vm_compute in Hs. discriminate. }
  split.
  - split; [exact Hall|].
    exact (proj1 (proj2 (proj2 (Request_retries_clock_skew_three_times
             "" scripted_Make scripted_Execute example_config tt [] three_skews))) Hall).
  - split; [exact Hnot|].
    exact (proj1 (proj2 (proj2 (proj2 (proj2 (Request_retries_clock_skew_three_times
             "" scripted_Make scripted_Execute example_config tt [] skew_then_ok)))
             1%nat ltac:(lia) Hone Hnot))).
Defined.

Lemma request_checks_status_and_body_witness :
  exists reqErr,
    request "" scripted_Make scripted_Execute example_config tt [] bad_status =
      (Returns (Some skew_response, "", reqErr),
       [MakeCalled; TransportCalled Get; StatusChecked 400; BodyDecoded skew_body],
       {| made := []; replied := [] |}) /\
    IsNil reqErr = false /\
    fmt_v (RequestError_Err reqErr) =
      "cex: request, resty err: resty: status 400, http err: bnc: http status 400, body unmarshal err: code: -1021, msg: Timestamp for this request is outside of the recvWindow., err: bnc: cex: invalid timestamp".
Proof.
  destruct (request_checks_status_and_body
              "" scripted_Make scripted_Execute example_config tt [] bad_status
              1%nat {| made := []; replied := replied bad_status |} Get skew_response
              (Some (errorString None "resty: status 400")) {| made := []; replied := [] |}
              example_checker example_unmarshaler
              eq_refl eq_refl eq_refl eq_refl eq_refl)
    as (reqErr & Hrun & _ & Hnil & _ & Herr).
  exists reqErr. split; [exact Hrun|].
  assert (IsNil reqErr = false) as Hfalse.
  { destruct (IsNil reqErr); [|reflexivity].
    destruct (proj1 Hnil eq_refl) as [Hh _]. vm_compute in Hh. discriminate. }
  split; [exact Hfalse|].
  destruct (Herr Hfalse) as (_ & _ & ->). vm_compute. reflexivity.
Defined.

Lemma construction_failure_is_final_witness :
  Request "" scripted_Make scripted_Execute example_config tt [] maker_fails =
    (Returns (None, "",
       {| RequestError_ReqBaseConfig := example_base;
          RequestError_HTTPError := None;
          RequestError_RespBodyUnmarshalerError := None;
          RequestError_Err :=
            Some (wrapError "cex: make request, s2m: unsupported field type"
                    (Some (errorString None "s2m: unsupported field type"))) |}),
     [MakeCalled],
     {| made := []; replied := [(Some ok_response, None)] |}).
Proof.
  exact (proj1 (proj2 (proj2 (construction_failure_is_final_unless_clock_skew
           "" scripted_Make scripted_Execute example_config tt [] 0%nat maker_fails
           None (errorString None "s2m: unsupported field type")
           {| made := []; replied := [(Some ok_response, None)] |}
           ltac:(lia) ltac:(intros; lia) eq_refl))) eq_refl).
Defined.

(** C7 as stated fails: the request maker fails in the first attempt and the
    executor asks it again, twice, before it returns the error of the third
    failure. *)
Lemma construction_failure_retried :
  fst (scripted_Make example_base tt [] maker_fails_with_skew)
    = (None, Some ErrInvalidTimestamp) /\
  snd (fst (Request "" scripted_Make scripted_Execute example_config tt []
              maker_fails_with_skew))
    = [MakeCalled; MakeCalled; MakeCalled].
Proof. split; vm_compute; reflexivity. Qed.

Lemma no_response_is_final_witness :
  Request "" scripted_Make scripted_Execute example_config tt [] transport_fails =
    (Returns (None, "",
       {| RequestError_ReqBaseConfig := example_base;
          RequestError_HTTPError := None;
          RequestError_RespBodyUnmarshalerError := None;
          RequestError_Err :=
            Some (wrapError "cex: request err: dial tcp: connection refused"
                    (Some (errorString None "dial tcp: connection refused"))) |}),
     [MakeCalled; TransportCalled Get],
     {| made := [(Some 2%nat, None)]; replied := [(Some ok_response, None)] |}) /\
  Request "" scripted_Make scripted_Execute example_config tt [] transport_silent =
    (Returns (None, "",
       {| RequestError_ReqBaseConfig := example_base;
          RequestError_HTTPError := None;
          RequestError_RespBodyUnmarshalerError := None;
          RequestError_Err :=
            Some (errorString None "cex: resp and err are all nil, resty may have bugs") |}),
     [MakeCalled; TransportCalled Get],
     {| made := [(Some 2%nat, None)]; replied := [(Some ok_response, None)] |}).
Proof.
  split.
  - exact (proj1 (proj2 (no_response_is_final_unless_clock_skew
             "" scripted_Make scripted_Execute example_config tt [] 0%nat transport_fails
             1%nat {| made := [(Some 2%nat, None)]; replied := replied transport_fails |}
             Get (Some (errorString None "dial tcp: connection refused"))
             {| made := [(Some 2%nat, None)]; replied := [(Some ok_response, None)] |}
             ltac:(lia) ltac:(intros; lia) eq_refl eq_refl eq_refl)) eq_refl).
  - exact (proj1 (proj2 (no_response_is_final_unless_clock_skew
             "" scripted_Make scripted_Execute example_config tt [] 0%nat transport_silent
             1%nat {| made := [(Some 2%nat, None)]; replied := replied transport_silent |}
             Get None
             {| made := [(Some 2%nat, None)]; replied := [(Some ok_response, None)] |}
             ltac:(lia) ltac:(intros; lia) eq_refl eq_refl eq_refl)) I).
Defined.

(** C8 as stated fails: the transport returns an error and no response in
    the first attempt, and the executor sends the request again, twice. *)
Lemma no_response_retried :
  fst (scripted_Execute Get 1%nat transport_fails_with_skew)
    = (None, Some ErrInvalidTimestamp) /\
  snd (fst (Request "" scripted_Make scripted_Execute example_config tt []
              transport_fails_with_skew))
    = [MakeCalled; TransportCalled Get; MakeCalled; TransportCalled Get;
       MakeCalled; TransportCalled Get].
Proof. split; vm_compute; reflexivity. Qed.

(** A status error next to a body that decodes: the composite error wraps
    the nil body error, the retry test of [Request] dereferences it, and the
    call panics after its first attempt. *)
Lemma status_error_with_decoded_body_panics :
  fst (request "" scripted_Make scripted_Execute example_config tt [] server_error) =
    (Returns
       (Some {| resp_StatusCode := 500; resp_Status := "500 Internal Server Error";
                resp_Body := {| bytes := "{}"; scan := Value (JObject []) |} |},
        "{}",
        {| RequestError_ReqBaseConfig := example_base;
           RequestError_HTTPError :=
             Some {| StatusCode := 500; Status := "500 Internal Server Error";
                     HTTPError_Err := Some (errorString None "bnc: http status 500") |};
           RequestError_RespBodyUnmarshalerError := None;
           RequestError_Err :=
             Some (wrapErrors
                     "cex: request, resty err: %!w(<nil>), http err: bnc: http status 500, body unmarshal err: <nil>"
                     [errorString None "bnc: http status 500"; asError None]) |}),
     [MakeCalled; TransportCalled Get; StatusChecked 500;
      BodyDecoded {| bytes := "{}"; scan := Value (JObject []) |}]) /\
  fst (Request "" scripted_Make scripted_Execute example_config tt [] server_error) =
    (Panics,
     [MakeCalled; TransportCalled Get; StatusChecked 500;
      BodyDecoded {| bytes := "{}"; scan := Value (JObject []) |}]).
Proof. split; vm_compute; reflexivity. Qed.

(** ** Credentials *)

(** C9.  Without a configured signer, [Sign] returns, and returns the nil
    slice, for every payload and key. *)
Theorem Sign_without_signer_returns_nil (a : Api) (payload key : string) :
  signer a = None -> Sign a payload key = Returns None.
Proof. intros H. unfold Sign. now rewrite H. Qed.

Lemma Sign_without_signer_witness :
  Sign (api (NewUser "key" "secret")) "symbol=ETHUSDT" "secret" = Returns None.
Proof.
  exact (Sign_without_signer_returns_nil
           (api (NewUser "key" "secret")) "symbol=ETHUSDT" "secret" eq_refl).
Defined.

(** ** The futures body unmarshaler *)

Section FuBodyFacts.

Context (spotCexCustomErrCodes : gmap Z error).
Context {D : Type} (zero : D) (unmarshaler : RespBodyUnmarshaler D).

Local Abbreviation codeMsg_check := (fuBodyUnmshCodeMsg spotCexCustomErrCodes).
Local Abbreviation wrapped := (fuBodyUnmshWrapper spotCexCustomErrCodes zero unmarshaler).

(** The check lets a body through exactly on the codes 0 and 200. *)
Lemma fuBodyUnmshCodeMsg_None body :
  codeMsg_check body = None <->
  Code (decoded_envelope body) = 0 \/ Code (decoded_envelope body) = 200.
Proof.
  unfold fuBodyUnmshCodeMsg.
  destruct (Z.eqb_spec (Code (decoded_envelope body)) 0) as [H0|H0]; cbn.
  - intuition.
  - destruct (Z.eqb_spec (Code (decoded_envelope body)) 200) as [H2|H2]; cbn.
    + intuition.
    + destruct (Z.ltb 0 (Code (decoded_envelope body))); split; intros H;
        try discriminate; destruct H; contradiction.
Qed.

(** A body that is not valid JSON, or whose value is not an object, leaves
    the envelope as it was: code 0. *)
Lemma decoded_envelope_not_object body :
  (forall members, scan body <> Value (JObject members)) ->
  decoded_envelope body = {| Code := 0; Msg := "" |}.
Proof.
  intros Hno. unfold decoded_envelope, json_Unmarshal_CodeMsg.
  destruct (scan body) as [msg | v]; [reflexivity|].
  destruct v; try reflexivity. now destruct (Hno members).
Qed.

(** C10.  A body whose decoded envelope code is positive and not 200 is
    answered with a structured error that carries the code and the message
    and has the cause [ErrUnexpected]; the wrapped decoder has no part in the
    result.  The check passes a body on exactly for the codes 0 and 200. *)
Theorem positive_code_is_unexpected_error body :
  0 < Code (decoded_envelope body) ->
  Code (decoded_envelope body) <> 200 ->
  let code := Code (decoded_envelope body) in
  let msg := Msg (decoded_envelope body) in
  let err :=
    Build_RespBodyUnmarshalerError code msg
      (Some (wrapError
               ("bnc: " ++ fmt_v (Some ErrUnexpected) ++
                ": code: " ++ FormatInt code ++ ", msg: " ++ msg)
               (Some ErrUnexpected))) in
  codeMsg_check body = Some err /\
  errors_Is (Some (asError (Some err))) (Some ErrUnexpected) = Returns true /\
  (forall (D' : Type) (zero' : D') (unmarshaler' : RespBodyUnmarshaler D'),
     fuBodyUnmshWrapper spotCexCustomErrCodes zero' unmarshaler' body = (zero', Some err)) /\
  (forall body', codeMsg_check body' = None <->
     Code (decoded_envelope body') = 0 \/ Code (decoded_envelope body') = 200).
Proof.
  intros Hpos H200 code msg err.
  assert (codeMsg_check body = Some err) as Hcheck.
  { unfold fuBodyUnmshCodeMsg. fold code. fold msg.
    destruct (Z.eqb_spec code 0) as [H0|H0]; [subst code; lia|].
    destruct (Z.eqb_spec code 200) as [H2|H2]; [contradiction|]. cbn.
    destruct (Z.ltb_spec 0 code) as [Hlt|Hge]; [reflexivity | subst code; lia]. }
  repeat split.
  - exact Hcheck.
  - intros D' zero' unmarshaler'. unfold fuBodyUnmshWrapper. now rewrite Hcheck.
  - apply fuBodyUnmshCodeMsg_None.
  - apply fuBodyUnmshCodeMsg_None.
Qed.

(** C5, as the code has it.  The error of parsing the envelope is dropped,
    and the wrapper goes by the code that is in the envelope after the
    attempt.  A body that is not valid JSON, or whose JSON value is not an
    object, leaves the code at 0 and is passed on to the wrapped decoder; so
    is every body whose code ends up 0 or 200.  A body whose parse fails
    after a code other than these was stored gets the error of that code. *)
Theorem envelope_parse_failure_goes_by_code body e :
  envelope_error body = Some e ->
  ((forall members, scan body <> Value (JObject members)) ->
     wrapped body = unmarshaler body) /\
  (Code (decoded_envelope body) = 0 \/ Code (decoded_envelope body) = 200 ->
     wrapped body = unmarshaler body) /\
  (Code (decoded_envelope body) <> 0 -> Code (decoded_envelope body) <> 200 ->
     exists err, wrapped body = (zero, Some err) /\
       CexErrCode err = Code (decoded_envelope body) /\
       CexErrMsg err = Msg (decoded_envelope body)).
Proof.
  intros _. unfold fuBodyUnmshWrapper. repeat split.
  - intros Hno.
    assert (codeMsg_check body = None) as ->; [|reflexivity].
    apply fuBodyUnmshCodeMsg_None. left.
    now rewrite (decoded_envelope_not_object body Hno).
  - intros Hcode. now apply fuBodyUnmshCodeMsg_None in Hcode as ->.
  - intros H0 H2. unfold fuBodyUnmshCodeMsg.
    destruct (Z.eqb_spec (Code (decoded_envelope body)) 0); [contradiction|].
    destruct (Z.eqb_spec (Code (decoded_envelope body)) 200); [contradiction|]. cbn.
    destruct (Z.ltb 0 (Code (decoded_envelope body))); eexists; repeat split.
Qed.

End FuBodyFacts.

Lemma positive_code_is_unexpected_error_witness :
  fuBodyUnmshWrapper example_codes "" string_unmarshaler positive_envelope =
    ("", Some (Build_RespBodyUnmarshalerError 429 "busy"
                 (Some (wrapError "bnc: cex: unexpected: code: 429, msg: busy"
                          (Some ErrUnexpected))))).
Proof.
  exact (proj1 (proj2 (proj2 (positive_code_is_unexpected_error example_codes
           positive_envelope eq_refl ltac:(discriminate))))
           string "" string_unmarshaler).
Defined.

Lemma envelope_parse_failure_witness :
  is_Some (envelope_error html_body) /\
  fuBodyUnmshWrapper example_codes "" string_unmarshaler html_body =
    ("<html>502 Bad Gateway</html>", None).
Proof.
  split; [eexists; reflexivity|].
  exact (proj1 (envelope_parse_failure_goes_by_code example_codes "" string_unmarshaler
           html_body _ eq_refl) ltac:(discriminate)).
Defined.

(** C5 as stated fails: [{"code":-1021,"msg":5}] does not parse as an
    envelope (the message is a number), and yet the wrapper returns an error
    instead of what the wrapped decoder makes of the body. *)
Lemma envelope_parse_failure_not_passed_on :
  is_Some (envelope_error half_envelope) /\
  string_unmarshaler half_envelope = (bytes half_envelope, None) /\
  fuBodyUnmshWrapper example_codes "" string_unmarshaler half_envelope =
    ("", Some (Build_RespBodyUnmarshalerError (-1021) ""
                 (Some (wrapError "bnc: cex: invalid timestamp" (Some ErrInvalidTimestamp))))).
Proof. split; [eexists; reflexivity | split; reflexivity]. Qed.

(** ** The kline body unmarshaler *)

Section KlineFacts.

Context {float64 Kline : Type}.
Context (ParseFloat : string -> option float64).
Context (zero_Kline : Kline).
Context (json_Marshal : gmap string (@any float64) -> string * option error).
Context (json_Unmarshal_Kline : string -> Kline -> Kline * option error).

Local Abbreviation value := (@any float64).
Local Abbreviation row_decodes := (row_decodes zero_Kline json_Marshal json_Unmarshal_Kline).

Lemma klineMapKeys_lookup i :
  (i <= 11)%nat -> exists key, klineMapKeys !! i = Some key.
Proof.
  intros Hi. do 12 (destruct i as [|i]; [eexists; reflexivity|]). lia.
Qed.

Lemma klineMapKeys_NoDup : NoDup klineMapKeys.
Proof. compute_done. Qed.

(** The inner loop does not panic, and sets the keys from [i] on to the
    values of the row, pairwise, as far as both reach. *)
Lemma kline_fill_pairs (row : list value) : forall i m,
  kline_fill i row m = Returns (set_pairs m (zip (drop i klineMapKeys) row)).
Proof.
  induction row as [|v rest IH]; intros i m.
  - cbn. now rewrite zip_with_nil_r.
  - cbn [kline_fill]. unfold klineLastIndex. change (Z.of_nat (length klineMapKeys) - 1) with 11.
    destruct (Z.ltb_spec 11 (Z.of_nat i)) as [Hgt | Hle].
    + rewrite drop_ge; [reflexivity | cbn; lia].
    + destruct (klineMapKeys_lookup i) as [key Hkey]; [lia|].
      rewrite Hkey, IH, (drop_S _ _ _ Hkey). reflexivity.
Qed.

Lemma set_pairs_cons (m : gmap string value) k v kvs :
  set_pairs m ((k, v) :: kvs) = set_pairs (<[k:=v]> m) kvs.
Proof. reflexivity. Qed.

Lemma set_pairs_lookup_other (kvs : list (string * value)) : forall m key,
  key ∉ kvs.*1 -> set_pairs m kvs !! key = m !! key.
Proof.
  induction kvs as [|[k v] kvs IH]; intros m key Hnot; [reflexivity|].
  rewrite set_pairs_cons, IH.
  - apply lookup_insert_ne. intros ->. apply Hnot. cbn. left.
  - intros Hin. apply Hnot. cbn. now right.
Qed.

Lemma zip_fst_elem_of (ks : list string) (vs : list value) key :
  key ∈ (zip ks vs).*1 -> key ∈ ks.
Proof.
  intros Hin. apply list_elem_of_fmap in Hin as [[k' v'] [-> Hin]].
  apply (elem_of_zip_l _ _ _ _ Hin).
Qed.

Lemma set_pairs_lookup (ks : list string) : forall (vs : list value) m i key,
  NoDup ks -> ks !! i = Some key ->
  set_pairs m (zip ks vs) !! key =
    match vs !! i with Some v => Some v | None => m !! key end.
Proof.
  induction ks as [|k ks IH]; intros vs m i key Hnd Hi; [discriminate|].
  apply NoDup_cons in Hnd as [Hk Hnd].
  destruct vs as [|v vs]; [reflexivity|].
  change (zip (k :: ks) (v :: vs)) with ((k, v) :: zip ks vs).
  rewrite set_pairs_cons.
  destruct i as [|i]; cbn in Hi |- *.
  - injection Hi as ->.
    rewrite set_pairs_lookup_other; [apply lookup_insert_eq|].
    intros Hin. apply Hk. now apply zip_fst_elem_of in Hin.
  - rewrite (IH vs _ i key Hnd Hi).
    destruct (vs !! i); [reflexivity|]. apply lookup_insert_ne.
    intros ->. apply Hk. eapply list_elem_of_lookup_2. exact Hi.
Qed.

(** What the inner loop makes of a row. *)
Lemma kline_fill_row (row : list value) :
  exists m, kline_fill 0 row ∅ = Returns m /\
    (forall i key, klineMapKeys !! i = Some key -> m !! key = row !! i) /\
    (forall key, key ∉ klineMapKeys -> m !! key = None).
Proof.
  exists (set_pairs ∅ (zip klineMapKeys row)). split; [|split].
  - apply (kline_fill_pairs row 0 ∅).
  - intros i key Hi. rewrite (set_pairs_lookup _ _ _ i key klineMapKeys_NoDup Hi).
    now destruct (row !! i).
  - intros key Hnot. rewrite set_pairs_lookup_other; [reflexivity|].
    intros Hin. apply Hnot. now apply zip_fst_elem_of in Hin.
Qed.

(** Positions past index 11 do not enter the map. *)
Lemma kline_fill_take (row : list value) :
  kline_fill 0 row ∅ = kline_fill 0 (take 12 row) ∅.
Proof.
  rewrite !kline_fill_pairs. cbn [drop]. f_equal. f_equal.
  symmetry. apply (zip_with_take_r' _ 12).
  etransitivity; [apply Nat.le_min_l | reflexivity].
Qed.

Lemma kline_rows_take (data : list (list value)) : forall klines,
  kline_rows zero_Kline json_Marshal json_Unmarshal_Kline data klines =
  kline_rows zero_Kline json_Marshal json_Unmarshal_Kline (take 12 <$> data) klines.
Proof.
  induction data as [|row data IH]; intros klines; [reflexivity|].
  cbn [kline_rows fmap list_fmap]. rewrite <- kline_fill_take.
  destruct (kline_fill 0 row ∅) as [m|]; [|reflexivity].
  destruct (json_Marshal m) as [d [err|]]; [reflexivity|].
  destruct (json_Unmarshal_Kline d zero_Kline) as [k [err|]]; [reflexivity|].
  apply IH.
Qed.

Lemma kline_rows_decode (data : list (list value)) : forall decoded klines,
  Forall2 row_decodes data decoded ->
  kline_rows zero_Kline json_Marshal json_Unmarshal_Kline data klines =
    Returns ((klines ++ decoded)%list, None).
Proof.
  induction data as [|row data IH]; intros decoded klines Hall.
  - apply Forall2_nil_inv_l in Hall as ->. cbn. now rewrite app_nil_r.
  - apply Forall2_cons_inv_l in Hall as (k & decoded' & (m & d & Hm & Hd & Hk) & Hall & ->).
    cbn [kline_rows]. rewrite kline_fill_take, Hm, Hd, Hk.
    rewrite (IH decoded' _ Hall). now rewrite <- app_assoc.
Qed.

(** C6.  For a body that decodes as an array of rows: the inner loop makes
    of each row the map from the twelve declared field names ([openTime] to
    [unused]) to the row's positions 0 to 11, in order, and nothing else;
    positions past index 11 have no effect on the result; and when the map
    of the first twelve positions of every row decodes, the call returns the
    klines and no error, however long the rows are. *)
Theorem klineBodyUnmsher_maps_first_twelve body data :
  json_Unmarshal_rows ParseFloat body = (data, None) ->
  (length klineMapKeys = 12%nat /\
   klineMapKeys !! 0%nat = Some "openTime" /\ klineMapKeys !! 11%nat = Some "unused") /\
  (forall row, row ∈ data ->
     exists m, kline_fill 0 row ∅ = Returns m /\
       (forall i key, klineMapKeys !! i = Some key -> m !! key = row !! i) /\
       (forall key, key ∉ klineMapKeys -> m !! key = None)) /\
  klineBodyUnmsher ParseFloat zero_Kline json_Marshal json_Unmarshal_Kline body =
    kline_rows zero_Kline json_Marshal json_Unmarshal_Kline (take 12 <$> data) [] /\
  (forall klines, Forall2 row_decodes data klines ->
     klineBodyUnmsher ParseFloat zero_Kline json_Marshal json_Unmarshal_Kline body =
       Returns (klines, None)).
Proof.
  intros Hdata. split; [repeat split|]. split; [|split].
  - intros row _. apply kline_fill_row.
  - unfold klineBodyUnmsher. rewrite Hdata. apply kline_rows_take.
  - intros klines Hall. unfold klineBodyUnmsher. rewrite Hdata.
    apply (kline_rows_decode data klines [] Hall).
Qed.

End KlineFacts.

Lemma klineBodyUnmsher_witness :
  klineBodyUnmsher example_ParseFloat "" example_Marshal example_Unmarshal_Kline
    (body_of (JArray [long_row])) =
  Returns (["closePrice,closeTime,highPrice,lowPrice,openPrice,openTime,quoteAssetVolume,takerBuyBaseAssetVolume,takerBuyQuoteAssetVolume,tradesNumber,unused,volume"],
           None).
Proof.
  refine (proj2 (proj2 (proj2 (klineBodyUnmsher_maps_first_twelve
            example_ParseFloat "" example_Marshal example_Unmarshal_Kline
            (body_of (JArray [long_row])) _ eq_refl))) _ _).
  constructor; [|constructor].
  eexists _, _. repeat split; vm_compute; reflexivity.
Defined.

(** ** The canonical encoding and the signature *)

Lemma append_cons (x : ascii) (a b : string) : String x a ++ b = String x (a ++ b).
Proof. reflexivity. Qed.

Lemma append_nil_l (b : string) : "" ++ b = b.
Proof. reflexivity. Qed.

Lemma string_app_assoc (a b c : string) : (a ++ b) ++ c = a ++ b ++ c.
Proof.
  induction a as [|x a IH]; [reflexivity|]. rewrite !append_cons. now rewrite IH.
Qed.

Lemma string_app_nil_r (a : string) : a ++ "" = a.
Proof.
  induction a as [|x a IH]; [reflexivity|]. rewrite append_cons. now rewrite IH.
Qed.

Lemma nonempty_length (s : string) : s <> "" -> (0 <? String.length s)%nat = true.
Proof. destruct s; [congruence | reflexivity]. Qed.

Lemma app_nonempty_l (a b : string) : a <> "" -> a ++ b <> "".
Proof. destruct a; [congruence | discriminate]. Qed.

Lemma pair_text_nonempty kv : pair_text kv <> "".
Proof. unfold pair_text. destruct (QueryEscape kv.1); discriminate. Qed.

(** Behind a buffer that holds something, every piece goes behind a [&]. *)
Lemma written_cons buf s l :
  written buf (s :: l) =
    written ((if (0 <? String.length buf)%nat then buf ++ "&" else buf) ++ s) l.
Proof. reflexivity. Qed.

Lemma amp_each_cons s l : amp_each (s :: l) = "&" ++ s ++ amp_each l.
Proof. reflexivity. Qed.

Lemma written_nonempty (l : list string) : forall buf,
  buf <> "" -> written buf l = buf ++ amp_each l.
Proof.
  induction l as [|s l IH]; intros buf Hbuf.
  - cbn. now rewrite string_app_nil_r.
  - rewrite written_cons, amp_each_cons, (nonempty_length _ Hbuf), IH.
    + now rewrite !string_app_assoc.
    + now apply app_nonempty_l, app_nonempty_l.
Qed.

Lemma concat_amp_each (s : string) (l : list string) :
  String.concat "&" (s :: l) = s ++ amp_each l.
Proof.
  revert s. induction l as [|x l IH]; intros s.
  - cbn. now rewrite string_app_nil_r.
  - change (String.concat "&" (s :: x :: l)) with (s ++ "&" ++ String.concat "&" (x :: l)).
    now rewrite IH.
Qed.

(** Written into an empty buffer, pieces that are not empty come out joined
    by [&]. *)
Lemma written_concat (l : list string) :
  Forall (fun s => s <> "") l -> written "" l = String.concat "&" l.
Proof.
  destruct l as [|s l]; intros Hall; [reflexivity|].
  apply Forall_cons in Hall as [Hs _]. rewrite concat_amp_each, written_cons.
  now apply written_nonempty.
Qed.

Lemma Encode_keys_written (val : gmap string (list string)) (kvs : list (string * string)) :
  forall buf,
  Forall (fun kv => val !! kv.1 = Some [kv.2]) kvs ->
  Encode_keys val kvs.*1 buf = written buf (pair_text <$> kvs).
Proof.
  induction kvs as [|[k v] kvs IH]; intros buf Hall; [reflexivity|].
  apply Forall_cons in Hall as [Hk Hall]. cbn in Hk.
  cbn [fmap list_fmap Encode_keys fst]. rewrite Hk. cbn [default Encode_key].
  rewrite (IH _ Hall). reflexivity.
Qed.

(** [Encode] on single-valued entries: the parameters are those of the map,
    in the order of their keys, joined by [&]. *)
Lemma Values_Encode_singletons (m : gmap string string) :
  exists pairs,
    pairs ≡ₚ map_to_list m /\
    StronglySorted by_key pairs /\
    NoDup pairs.*1 /\
    Values_Encode (singletons m) = String.concat "&" (pair_text <$> pairs).
Proof.
  set (ks := merge_sort String.le (map_to_list (singletons m)).*1).
  set (entry := fun k : string => (k, default "" (m !! k))).
  assert (ks ≡ₚ (map_to_list m).*1) as Hks.
  { unfold ks. rewrite merge_sort_Permutation. unfold singletons.
    rewrite map_to_list_fmap, <- list_fmap_compose. reflexivity. }
  assert (entry <$> (map_to_list m).*1 = map_to_list m) as Hentries.
  { rewrite <- list_fmap_compose. rewrite <- (list_fmap_id (map_to_list m)) at 2.
    apply list_fmap_ext. intros i [k v] Hkv. unfold entry. cbn.
    apply list_elem_of_lookup_2, elem_of_map_to_list in Hkv. now rewrite Hkv. }
  assert ((entry <$> ks).*1 = ks) as Hfst.
  { rewrite <- list_fmap_compose. apply list_fmap_id. }
  exists (entry <$> ks). repeat split.
  - rewrite Hks. now rewrite Hentries.
  - apply StronglySorted_fmap with (R1 := String.le); [now intros x y Hxy|].
    apply (StronglySorted_merge_sort String.le).
  - rewrite Hfst, Hks. apply NoDup_fst_map_to_list.
  - unfold Values_Encode.
    change (map fst (map_to_list (singletons m))) with ((map_to_list (singletons m)).*1).
    fold ks.
    replace (Encode_keys (singletons m) ks "")
      with (Encode_keys (singletons m) (entry <$> ks).*1 "") by now rewrite Hfst.
    rewrite Encode_keys_written.
    + apply written_concat. apply Forall_fmap, Forall_forall. intros; apply pair_text_nonempty.
    + apply Forall_fmap, Forall_forall. intros k Hk. cbn.
      rewrite Hks in Hk. apply list_elem_of_fmap in Hk as [[k' v] [-> Hkv]].
      apply elem_of_map_to_list in Hkv. unfold singletons. cbn.
      now rewrite lookup_fmap, Hkv.
Qed.

(** The loop [for k, v := range m { val.Set(k, v) }] gives every key of [m]
    its one value and leaves the other keys of [val] alone, in whatever
    order the keys come. *)
Lemma set_all_union (m : gmap string string) (val : gmap string (list string)) :
  set_all m val = singletons m ∪ val.
Proof.
  unfold set_all, singletons. induction m as [|k v m Hk IH] using map_ind.
  - now rewrite map_fold_empty, fmap_empty, (left_id_L ∅ (∪)).
  - rewrite map_fold_insert_L; [| |assumption].
    + rewrite IH. unfold Values_Set. now rewrite fmap_insert, insert_union_l.
    + intros j1 j2 z1 z2 y Hne _ _. unfold Values_Set. now apply insert_insert_ne.
Qed.

Lemma set_all_singletons (m : gmap string string) (k v : string) :
  set_all m {[ k := [v] ]} = singletons (m ∪ {[ k := v ]}).
Proof.
  rewrite set_all_union. unfold singletons.
  now rewrite map_fmap_union, map_fmap_singleton.
Qed.

Lemma set_all_empty (m : gmap string string) : set_all m ∅ = singletons m.
Proof. rewrite set_all_union. apply (right_id_L ∅ (∪)). Qed.

(** *** The parameters of a query string *)

Lemma params_nonempty q : params q <> [].
Proof.
  destruct q as [|c q]; cbn; [discriminate|].
  destruct (Ascii.eqb c "&"); [discriminate|]. destruct (params q); discriminate.
Qed.

Lemma params_no_amp q :
  all_chars (fun c => negb (Ascii.eqb c "&")) q = true -> params q = [q].
Proof.
  induction q as [|c q IH]; cbn; [reflexivity|].
  intros [Hc Hq]%andb_prop. apply negb_true_iff in Hc. rewrite Hc, (IH Hq). reflexivity.
Qed.

Lemma params_app_amp (a b : string) : params (a ++ "&" ++ b) = (params a ++ params b)%list.
Proof.
  induction a as [|c a IH].
  - reflexivity.
  - rewrite append_cons. cbn [params]. rewrite IH.
    destruct (Ascii.eqb c "&"); [reflexivity|].
    destruct (params a) as [|p ps] eqn:Hp; [now destruct (params_nonempty a)|].
    reflexivity.
Qed.

(** The last parameter of anything followed by [&] and a piece without
    [&] is that piece. *)
Lemma params_last (a b : string) :
  all_chars (fun c => negb (Ascii.eqb c "&")) b = true ->
  last (params (a ++ "&" ++ b)) = Some b.
Proof.
  intros Hb. rewrite params_app_amp, (params_no_amp b Hb). apply last_snoc.
Qed.

(** *** The signature is 64 lower-case hex digits *)

Lemma all_chars_app p (a b : string) :
  all_chars p (a ++ b) = all_chars p a && all_chars p b.
Proof.
  induction a as [|c a IH]; [reflexivity|].
  rewrite append_cons. cbn [all_chars]. now rewrite IH, andb_assoc.
Qed.

Lemma all_chars_impl (p q : ascii -> bool) (s : string) :
  (forall c, p c = true -> q c = true) -> all_chars p s = true -> all_chars q s = true.
Proof.
  intros Hpq. induction s as [|c s IH]; cbn; [reflexivity|].
  intros [Hc Hs]%andb_prop. now rewrite (Hpq c Hc), (IH Hs).
Qed.

Lemma lower_hex_not_amp c : is_lower_hex c = true -> negb (Ascii.eqb c "&") = true.
Proof.
  intros Hc. apply negb_true_iff, Ascii.eqb_neq. intros ->. discriminate.
Qed.

Lemma hex_digit_lower n : 0 <= n < 16 -> is_lower_hex (hex_digit n) = true.
Proof.
  intros Hn. rewrite <- (Z2Nat.id n) by lia.
  assert (Z.to_nat n < 16)%nat as Hk by lia. revert Hk.
  generalize (Z.to_nat n) as k. intros k Hk.
  do 16 (destruct k as [|k]; [reflexivity|]). lia.
Qed.

Lemma hex_EncodeToString_digits (bs : list Z) :
  Forall is_byte bs ->
  all_chars is_lower_hex (hex_EncodeToString bs) = true /\
  String.length (hex_EncodeToString bs) = (2 * length bs)%nat.
Proof.
  induction 1 as [|b bs Hb _ [IHc IHl]]; [split; reflexivity|].
  unfold is_byte in Hb. cbn [hex_EncodeToString all_chars String.length length].
  rewrite IHc, IHl, !hex_digit_lower.
  - split; [reflexivity | lia].
  - apply Z.mod_pos_bound. lia.
  - split; [apply Z.div_pos; lia | apply Z.div_lt_upper_bound; lia].
Qed.

Lemma be_bytes_bytes k : forall n, Forall is_byte (SHA256.be_bytes k n) /\
  length (SHA256.be_bytes k n) = k.
Proof.
  induction k as [|k IH]; intros n; cbn [SHA256.be_bytes]; [split; [constructor | reflexivity]|].
  destruct (IH (n / 256)) as [Hb Hl]. split.
  - apply Forall_app. split; [assumption|]. constructor; [|constructor].
    apply Z.mod_pos_bound. lia.
  - rewrite length_app, Hl. cbn. lia.
Qed.

Lemma Sum256_bytes (msg : list Z) :
  Forall is_byte (SHA256.Sum256 msg) /\ length (SHA256.Sum256 msg) = 32%nat.
Proof.
  unfold SHA256.Sum256, SHA256.digest.
  generalize (fold_left SHA256.compress
                (SHA256.blocks (length (SHA256.pad msg)) (SHA256.pad msg)) SHA256.init).
  intros s. split.
  - rewrite !Forall_app. repeat split; apply be_bytes_bytes.
  - rewrite !length_app. rewrite !(proj2 (be_bytes_bytes 4 _)). reflexivity.
Qed.

Lemma SignByHmacSHA256ToHex_digits (payload key : string) :
  all_chars is_lower_hex (SignByHmacSHA256ToHex payload key) = true /\
  String.length (SignByHmacSHA256ToHex payload key) = 64%nat.
Proof.
  unfold SignByHmacSHA256ToHex, hmac_sha256.
  match goal with
  | |- context [hex_EncodeToString (SHA256.Sum256 ?x)] => destruct (Sum256_bytes x) as [Hb Hl]
  end.
  destruct (hex_EncodeToString_digits _ Hb) as [Hc Hlen].
  split; [assumption|]. now rewrite Hlen, Hl.
Qed.

(** *** A decimal number needs no escaping *)

Lemma QueryEscape_unreserved (s : string) :
  all_chars unreserved s = true -> QueryEscape s = s.
Proof.
  induction s as [|c s IH]; cbn; [reflexivity|].
  intros [Hc Hs]%andb_prop. now rewrite Hc, (IH Hs).
Qed.

Lemma pretty_N_go_unreserved (x : N) : forall s,
  all_chars unreserved s = true -> all_chars unreserved (pretty_N_go x s) = true.
Proof.
  induction (N.lt_wf_0 x) as [x _ IH]; intros s Hs.
  destruct (N.eq_dec x 0%N) as [-> | Hx]; [assumption|].
  rewrite pretty_N_go_step by lia. apply IH; [apply N.div_lt; lia|].
  cbn [all_chars]. rewrite Hs, andb_true_r.
  unfold pretty_N_char. repeat case_match; reflexivity.
Qed.

Lemma FormatInt_unreserved (n : Z) : all_chars unreserved (FormatInt n) = true.
Proof.
  unfold FormatInt, pretty, pretty_Z. destruct n as [|p|p]; [reflexivity| |].
  - unfold pretty, pretty_positive, pretty, pretty_N. case_decide; [reflexivity|].
    now apply pretty_N_go_unreserved.
  - unfold pretty, pretty_positive, pretty, pretty_N.
    rewrite all_chars_app. apply andb_true_intro. split; [reflexivity|].
    case_decide; [reflexivity|]. now apply pretty_N_go_unreserved.
Qed.

Section SignFacts.

Context {W ReqData : Type}.
Context (ToStrMap : ReqData -> gmap string string * option error).
Context (UnixMilli : W -> Z * W).

(** Two pairs in key order, in the one way a sorted list can hold them. *)
Lemma sorted_two (a b : string * string) (pairs : list (string * string)) :
  pairs ≡ₚ [a; b] -> StronglySorted by_key pairs -> ~ by_key b a -> pairs = [a; b].
Proof.
  intros Hperm Hsorted Hnot.
  symmetry in Hperm. apply Permutation_length_2_inv in Hperm as [-> | ->]; [reflexivity|].
  apply StronglySorted_inv in Hsorted as [_ Hall].
  apply Forall_cons in Hall as [Hba _]. contradiction.
Qed.

(** C1, as the code has it.  For an endpoint that requires authentication
    and parameters that serialize, the request maker returns a request whose
    URL is base URL, path, [?] and a query string made of
    - the parameters and a [timestamp] entry, each as escaped key [=] escaped
      value, in the byte-wise order of their keys and joined by [&]; the
      [timestamp] is the clock's milliseconds unless the parameters have a
      [timestamp] of their own, which then stands;
    - and behind them [&signature=] and the HMAC-SHA256 of exactly that
      encoded string under the credential's secret key, 64 lower-case hex
      digits, which is the last parameter of the query.
    With the one parameter [symbol = ETHUSDT] the encoded string is
    [symbol=ETHUSDT&timestamp=<ms>]. *)
Theorem signed_query_ends_with_signature
    (u : User) (config : ReqBaseConfig) (data : ReqData) (opts : list ReqOpt)
    (w : W) (m : gmap string string) (now : Z) (w' : W) :
  IsUserData config = true ->
  ToStrMap data = (m, None) ->
  UnixMilli w = (now, w') ->
  exists pairs,
    pairs ≡ₚ map_to_list (m ∪ {[ "timestamp" := FormatInt now ]}) /\
    StronglySorted by_key pairs /\
    NoDup pairs.*1 /\
    let enc := String.concat "&" (pair_text <$> pairs) in
    let sig := SignByHmacSHA256ToHex enc (SecretKey (api u)) in
    let query := enc ++ "&signature=" ++ sig in
    signReqData ToStrMap UnixMilli data (SecretKey (api u)) w = ((query, None), w') /\
    User_Make ToStrMap UnixMilli u config data opts w =
      ((Some (apply_opts opts
                {| BaseURL := BaseUrl config ++ Path config ++ "?" ++ query;
                   Header := {[ "X-MBX-APIKEY" := ApiKey (api u) ]};
                   QueryString := "" |}), None), w') /\
    last (params query) = Some ("signature=" ++ sig) /\
    all_chars is_lower_hex sig = true /\
    String.length sig = 64%nat /\
    (m !! "timestamp" = None -> ("timestamp", FormatInt now) ∈ pairs) /\
    (m = {[ "symbol" := "ETHUSDT" ]} ->
       enc = "symbol=ETHUSDT&timestamp=" ++ FormatInt now).
Proof.
  intros Hauth Hm Hnow.
  destruct (Values_Encode_singletons (m ∪ {[ "timestamp" := FormatInt now ]}))
    as (pairs & Hperm & Hsorted & Hnodup & Henc).
  exists pairs. split; [assumption|]. split; [assumption|]. split; [assumption|].
  intros enc sig query.
  assert (signReqData ToStrMap UnixMilli data (SecretKey (api u)) w = (query, None, w'))
    as Hsign.
  { unfold signReqData. rewrite Hm, Hnow, set_all_singletons, Henc. reflexivity. }
  destruct (SignByHmacSHA256ToHex_digits enc (SecretKey (api u))) as [Hhex Hlen].
  fold sig in Hhex, Hlen.
  split; [assumption|]. split; [|split; [|split; [|split; [|split]]]].
  - unfold User_Make, makePrivateReq, sign. rewrite Hauth, Hsign. reflexivity.
  - apply params_last. rewrite all_chars_app. apply andb_true_intro. split; [reflexivity|].
    apply (all_chars_impl is_lower_hex); [apply lower_hex_not_amp | assumption].
  - assumption.
  - assumption.
  - intros Hnone. rewrite Hperm. apply elem_of_map_to_list.
    rewrite lookup_union_r by assumption. apply lookup_singleton_eq.
  - intros ->. subst enc.
    assert (pairs = [("symbol", "ETHUSDT"); ("timestamp", FormatInt now)]) as ->.
    { apply sorted_two; [|assumption|].
      - rewrite Hperm. rewrite <- insert_union_singleton_l.
        rewrite map_to_list_insert by reflexivity. now rewrite map_to_list_singleton.
      - unfold by_key, String.le. cbn. exact id. }
    cbn [fmap list_fmap String.concat]. unfold pair_text. cbn [fst snd].
    rewrite (QueryEscape_unreserved _ (FormatInt_unreserved now)). reflexivity.
Qed.

End SignFacts.

Lemma signed_query_witness :
  BaseURL <$> fst (fst (User_Make ToStrMap_id clock (NewUser "key" "k") example_base
                          {[ "symbol" := "ETHUSDT" ]} [] 1700000000000)) =
  Some ("https://fapi.binance.com/fapi/v1/order?symbol=ETHUSDT&timestamp=1700000000000" ++
        "&signature=986508843f64d97f9ff7de9be205600e735dd36e6f834715941829d7ebfffded").
Proof.
  destruct (signed_query_ends_with_signature ToStrMap_id clock
              (NewUser "key" "k") example_base {[ "symbol" := "ETHUSDT" ]} []
              1700000000000 {[ "symbol" := "ETHUSDT" ]} 1700000000000 1700000000001
              eq_refl eq_refl eq_refl)
    as (pairs & _ & _ & _ & _ & HMake & _ & _ & _ & _ & Henc).
  rewrite HMake, (Henc eq_refl). vm_compute. reflexivity.
Defined.

(** C1 as stated fails: parameters that have a [timestamp] of their own keep
    it, and the clock's milliseconds (1700000000000 here) are not in the
    query. *)
Lemma own_timestamp_stands :
  signReqData ToStrMap_id clock {[ "timestamp" := "7" ]} "k" 1700000000000 =
    (("timestamp=7&signature=9a625083a10a5639163ce185008b255b82cf006dd3e4b930269c36ec14059c6d",
      None), 1700000000001).
Proof. vm_compute. reflexivity. Qed.

(** ** The public request maker *)

Section PublicFacts.

Context {W ReqData : Type}.
Context (ToStrMap : ReqData -> gmap string string * option error).
Context (UnixMilli : W -> Z * W).

(** What [makePublicReq] builds: the base URL alone and the parameters in
    key order as the query string ... *)
Lemma makePublicReq_req_canonical (config : ReqBaseConfig) (m : gmap string string) :
  exists pairs,
    pairs ≡ₚ map_to_list m /\ StronglySorted by_key pairs /\ NoDup pairs.*1 /\
    makePublicReq_req config m [] =
      {| BaseURL := BaseUrl config; Header := ∅;
         QueryString := String.concat "&" (pair_text <$> pairs) |}.
Proof.
  destruct (Values_Encode_singletons m) as (pairs & Hperm & Hsorted & Hnodup & Henc).
  exists pairs. repeat split; try assumption.
  unfold makePublicReq_req. now rewrite set_all_empty, Henc.
Qed.

(** ... and what it returns: neither that request nor an error. *)
Lemma makePublicReq_returns_nil (u : User) (config : ReqBaseConfig) (reqData : ReqData)
    (opts : list ReqOpt) (w : W) (m : gmap string string) :
  ToStrMap reqData = (m, None) ->
  makePublicReq ToStrMap u config reqData opts w = ((None, None), w).
Proof. intros Hm. unfold makePublicReq. now rewrite Hm. Qed.

Lemma User_Make_public_nil (u : User) (config : ReqBaseConfig) (reqData : ReqData)
    (opts : list ReqOpt) (w : W) (m : gmap string string) :
  IsUserData config = false ->
  ToStrMap reqData = (m, None) ->
  User_Make ToStrMap UnixMilli u config reqData opts w = ((None, None), w).
Proof.
  intros Hpublic Hm. unfold User_Make. rewrite Hpublic.
  now apply makePublicReq_returns_nil with (m := m).
Qed.

End PublicFacts.

(** C2, on the code: for the public endpoint [/api/v3/depth] and the
    parameter [symbol = ETHUSDT], [makePublicReq] builds the request with the
    base URL and the query string [symbol=ETHUSDT], and [Make] returns no
    request and no error; the executor then calls a method of the nil
    request. *)
Theorem public_request_is_built_and_dropped :
  makePublicReq_req depth_config {[ "symbol" := "ETHUSDT" ]} [] =
    {| BaseURL := "https://api.binance.com"; Header := ∅; QueryString := "symbol=ETHUSDT" |} /\
  User_Make ToStrMap_id clock (NewUser "key" "k") depth_config {[ "symbol" := "ETHUSDT" ]} [] 0
    = ((None, None), 0) /\
  Request "" (User_Make ToStrMap_id clock (NewUser "key" "k")) no_transport
    depth_req_config {[ "symbol" := "ETHUSDT" ]} [] 0 = (Panics, [MakeCalled], 0).
Proof. repeat split; vm_compute; reflexivity. Qed.

(** ** What every attempt and every call keeps to *)

Section ExecutorInvariants.

Context {W Rq ReqDataType RespDataType Opt : Type}.
Context (zero : RespDataType).
Context (Make : ReqBaseConfig -> ReqDataType -> list Opt -> W -> (option Rq * option error) * W).
Context (Execute : verb -> Rq -> W -> (option Response * option error) * W).
Context (config : ReqConfig RespDataType) (reqData : ReqDataType) (opts : list Opt).

Local Abbreviation request1 := (request zero Make Execute config reqData opts).
Local Abbreviation Request3 := (Request zero Make Execute config reqData opts).
Local Abbreviation attempt_no := (attempt zero Make Execute config reqData opts).

Local Abbreviation no_error :=
  {| RequestError_ReqBaseConfig := base config;
     RequestError_HTTPError := None;
     RequestError_RespBodyUnmarshalerError := None;
     RequestError_Err := None |}.

(** The body of [request], test by test. *)
Ltac enter_request w :=
  unfold request, bind, call_Make;
  destruct (Make (base config) reqData opts w) as [[?req [?e|]] ?w] eqn:?HMake; cbn;
  [ | destruct (method_verb (Method (base config))) as [?v|] eqn:?Hverb; cbn;
      [ unfold call_Execute, panic, lift;
        destruct req as [?rq|]; cbn;
        [ match goal with
          | |- context [Execute ?v ?r ?w] =>
              destruct (Execute v r w) as [[[?resp|] [?e|]] ?w] eqn:?HExecute; cbn
          end;
          try (destruct (config_HTTPStatusCodeChecker config) as [?checker|] eqn:?Hchecker; cbn;
               [ destruct (config_RespBodyUnmarshaler config) as [?unmarshaler|]
                   eqn:?Hunmarshaler; cbn;
                 [ match goal with
                   | |- context [unmarshaler ?b] =>
                       destruct (unmarshaler b) as [?d [?eb|]] eqn:?Hbody; cbn
                   end;
                   match goal with
                   | |- context [checker ?c] => destruct (checker c) as [?eh|] eqn:?Hstatus; cbn
                   end
                 | ]
               | ])
        | ]
      | ] ].

(** An attempt that returns the empty error has a response, and the status
    checker and the body unmarshaler of the configuration both accepted
    it. *)
Lemma request_nil_error w resp d e t w' :
  request1 w = (Returns (resp, d, e), t, w') ->
  IsNil e = true ->
  exists r checker unmarshaler,
    resp = Some r /\
    config_HTTPStatusCodeChecker config = Some checker /\
    config_RespBodyUnmarshaler config = Some unmarshaler /\
    checker (resp_StatusCode r) = None /\
    unmarshaler (resp_Body r) = (d, None) /\
    e = no_error.
Proof.
  enter_request w; intros Hrun Hnil; try discriminate;
    injection Hrun as <- <- <- <- <-; try discriminate;
    eexists _, _, _; repeat split; eassumption.
Qed.

(** X1.  A call that returns the empty error.  Then it returns a response, the
    configuration has a status checker and a body unmarshaler, both accepted
    that response, and the payload is what the unmarshaler made of its body:
    no error means that nothing was skipped.  In particular a call that
    returns no response returns an error. *)
Theorem nil_error_means_accepted_response w resp d e t w' :
  Request3 w = (Returns (resp, d, e), t, w') ->
  IsNil e = true ->
  exists r checker unmarshaler,
    resp = Some r /\
    config_HTTPStatusCodeChecker config = Some checker /\
    config_RespBodyUnmarshaler config = Some unmarshaler /\
    checker (resp_StatusCode r) = None /\
    unmarshaler (resp_Body r) = (d, None) /\
    e = no_error.
Proof.
  intros Hrun Hnil.
  destruct (last_attempt zero Make Execute config reqData opts 3 w ltac:(lia))
    as (k & Hk & Hbefore & Hlast).
  unfold Request in Hrun.
  rewrite (Request_loop_stops zero Make Execute config reqData opts 3 k w _ Hk Hbefore Hlast)
    in Hrun.
  destruct (attempt_no k w) as [[[r|] t0] w0] eqn:Ha; [|discriminate].
  destruct (clock_skew r) as [b|]; [|discriminate].
  injection Hrun as -> _ _.
  exact (request_nil_error _ _ _ _ _ _ Ha Hnil).
Qed.

(** X2.  The calls of one attempt, in their order.  An attempt asks the request
    maker; if it goes on, it calls the transport once, with the method of
    the configuration; and if it goes on from there, it runs the status
    checker and then the body unmarshaler, both on the response that it
    returns.  There is no attempt that runs one of the two without the
    other, or either of them without a response. *)
Theorem attempt_calls_in_order w :
  let events := snd (fst (request1 w)) in
  events = [MakeCalled] \/
  (exists v, method_verb (Method (base config)) = Some v /\
             events = [MakeCalled; TransportCalled v]) \/
  (exists v r d e,
     method_verb (Method (base config)) = Some v /\
     fst (fst (request1 w)) = Returns (Some r, d, e) /\
     events = [MakeCalled; TransportCalled v;
               StatusChecked (resp_StatusCode r); BodyDecoded (resp_Body r)]).
Proof.
  enter_request w;
    first [ left; reflexivity
          | right; left; eexists; split; [reflexivity | reflexivity]
          | right; right; eexists _, _, _, _; split; [reflexivity|]; split; reflexivity ].
Qed.

End ExecutorInvariants.

Lemma nil_error_means_accepted_response_witness :
  exists r checker unmarshaler,
    Some ok_response = Some r /\
    config_HTTPStatusCodeChecker example_config = Some checker /\
    config_RespBodyUnmarshaler example_config = Some unmarshaler /\
    checker (resp_StatusCode r) = None /\
    unmarshaler (resp_Body r) = ("{}", None).
Proof.
  destruct (nil_error_means_accepted_response
              "" scripted_Make scripted_Execute example_config tt [] ok_with_transport_error
              (Some ok_response) "{}"
              {| RequestError_ReqBaseConfig := example_base;
                 RequestError_HTTPError := None;
                 RequestError_RespBodyUnmarshalerError := None;
                 RequestError_Err := None |} _ _
              ltac:(vm_compute; reflexivity) eq_refl)
    as (r & checker & unmarshaler & Hr & Hc & Hu & Hs & Hb & _).
  now exists r, checker, unmarshaler.
Defined.

(** ** More on the executor: the other ways an attempt ends *)

Section ExecutorEnds.

Context {W Rq ReqDataType RespDataType Opt : Type}.
Context (zero : RespDataType).
Context (Make : ReqBaseConfig -> ReqDataType -> list Opt -> W -> (option Rq * option error) * W).
Context (Execute : verb -> Rq -> W -> (option Response * option error) * W).
Context (config : ReqConfig RespDataType) (reqData : ReqDataType) (opts : list Opt).

Local Abbreviation Request3 := (Request zero Make Execute config reqData opts).
Local Abbreviation attempt_no := (attempt zero Make Execute config reqData opts).
Local Abbreviation before := (world_before zero Make Execute config reqData opts).
Local Abbreviation skewed_at := (skewed zero Make Execute config reqData opts).

(** The error of an attempt that stops at one of the tests of [request]. *)
Local Abbreviation stopped err :=
  {| RequestError_ReqBaseConfig := base config;
     RequestError_HTTPError := None;
     RequestError_RespBodyUnmarshalerError := None;
     RequestError_Err := Some err |}.

(** An attempt after which the retry test panics is the last one. *)
Lemma Request_ends_in_panic k w r t w' :
  (k < 3)%nat ->
  (forall j, (j < k)%nat -> skewed_at j w) ->
  attempt_no k w = (Returns r, t, w') ->
  clock_skew r = Panics ->
  Request3 w = (Panics, (fst (before k w) ++ t)%list, w').
Proof.
  intros Hk Hbefore Ha Hs. unfold Request.
  rewrite (Request_loop_stops zero Make Execute config reqData opts 3 k w _ Hk Hbefore).
  - rewrite Ha, Hs, (before_snoc zero Make Execute config reqData opts k w), Ha. reflexivity.
  - right. intros (r' & t' & w'' & Ha' & Hs'). congruence.
Qed.

(** The four methods, spelled as [net/http] spells them. *)
Lemma method_verb_None (m : string) :
  method_verb m = None <-> m <> "GET" /\ m <> "POST" /\ m <> "PUT" /\ m <> "DELETE".
Proof.
  unfold method_verb. repeat case_bool_decide; subst; split;
    try discriminate; try (intros (? & ? & ? & ?); congruence); intros _; repeat split;
    try assumption; discriminate.
Qed.

(** X3.  A method other than GET, POST, PUT and DELETE.  The attempt asks the
    request maker and then stops: the transport is not called and the request
    is not touched, be it nil or not.  Its error wraps nothing, so the call
    ends with this attempt. *)
Theorem unsupported_method_is_final k w rq w' :
  (k < 3)%nat ->
  (forall j, (j < k)%nat -> skewed_at j w) ->
  method_verb (Method (base config)) = None ->
  Make (base config) reqData opts (snd (before k w)) = ((rq, None), w') ->
  let reqErr :=
    stopped (errorString None
               ("cex: http method " ++ Method (base config) ++ " is not supported")) in
  (Method (base config) <> "GET" /\ Method (base config) <> "POST" /\
   Method (base config) <> "PUT" /\ Method (base config) <> "DELETE") /\
  attempt_no k w = (Returns (None, zero, reqErr), [MakeCalled], w') /\
  Request3 w = (Returns (None, zero, reqErr), (fst (before k w) ++ [MakeCalled])%list, w').
Proof.
  intros Hk Hbefore Hverb HMake reqErr.
  split; [now apply method_verb_None|].
  assert (attempt_no k w = (Returns (None, zero, reqErr), [MakeCalled], w')) as Ha.
  { unfold attempt, request, bind, call_Make. rewrite HMake. cbn. now rewrite Hverb. }
  split; [assumption|].
  now apply (Request_ends_with zero Make Execute config reqData opts k w _ _ _ Hk Hbefore Ha).
Qed.

(** X4.  A configuration without a status checker or without a body unmarshaler.
    The attempt is sent, and the response comes back with the zero payload
    and an error that names the missing one (the checker, when both are
    missing); neither of the two is run, the one that is there included.
    The call ends with this attempt. *)
Theorem missing_strategy_is_final k w rq w1 v resp errResty w2 :
  (k < 3)%nat ->
  (forall j, (j < k)%nat -> skewed_at j w) ->
  Make (base config) reqData opts (snd (before k w)) = ((Some rq, None), w1) ->
  method_verb (Method (base config)) = Some v ->
  Execute v rq w1 = ((Some resp, errResty), w2) ->
  config_HTTPStatusCodeChecker config = None \/ config_RespBodyUnmarshaler config = None ->
  let reqErr :=
    stopped (errorString None
               (match config_HTTPStatusCodeChecker config with
                | None => "cex: config http status code checker is nil"
                | Some _ => "cex: config resp body unmarshaler is nil"
                end)) in
  attempt_no k w = (Returns (Some resp, zero, reqErr), [MakeCalled; TransportCalled v], w2) /\
  Request3 w =
    (Returns (Some resp, zero, reqErr),
     (fst (before k w) ++ [MakeCalled; TransportCalled v])%list, w2).
Proof.
  intros Hk Hbefore HMake Hverb HExecute Hmissing reqErr.
  assert (attempt_no k w = (Returns (Some resp, zero, reqErr), [MakeCalled; TransportCalled v], w2))
    as Ha.
  { unfold attempt, request, bind, call_Make. rewrite HMake. cbn. rewrite Hverb. cbn.
    rewrite HExecute. subst reqErr.
    destruct (config_HTTPStatusCodeChecker config) as [checker|];
      [destruct Hmissing as [Hc | Hu]; [discriminate | rewrite Hu]|];
      now destruct errResty. }
  split; [assumption|].
  apply (Request_ends_with zero Make Execute config reqData opts k w _ _ _ Hk Hbefore Ha).
  subst reqErr. unfold clock_skew, RequestError_Is. cbn.
  now destruct (config_HTTPStatusCodeChecker config).
Qed.

(** X5.  Success.  When the status checker and the body unmarshaler both accept
    the response, the attempt returns the decoded payload and the empty
    error, and the call ends with it; an error that the transport returned
    next to the response is dropped. *)
Theorem accepted_response_ends_the_call
    k w rq w1 v resp errResty w2 checker unmarshaler :
  (k < 3)%nat ->
  (forall j, (j < k)%nat -> skewed_at j w) ->
  Make (base config) reqData opts (snd (before k w)) = ((Some rq, None), w1) ->
  method_verb (Method (base config)) = Some v ->
  Execute v rq w1 = ((Some resp, errResty), w2) ->
  config_HTTPStatusCodeChecker config = Some checker ->
  config_RespBodyUnmarshaler config = Some unmarshaler ->
  checker (resp_StatusCode resp) = None ->
  snd (unmarshaler (resp_Body resp)) = None ->
  let reqErr :=
    {| RequestError_ReqBaseConfig := base config;
       RequestError_HTTPError := None;
       RequestError_RespBodyUnmarshalerError := None;
       RequestError_Err := None |} in
  IsNil reqErr = true /\
  Request3 w =
    (Returns (Some resp, fst (unmarshaler (resp_Body resp)), reqErr),
     (fst (before k w) ++
      [MakeCalled; TransportCalled v;
       StatusChecked (resp_StatusCode resp); BodyDecoded (resp_Body resp)])%list,
     w2).
Proof.
  intros Hk Hbefore HMake Hverb HExecute Hchecker Hunmarshaler Hstatus Hbody reqErr.
  split; [reflexivity|].
  apply (Request_ends_with zero Make Execute config reqData opts k w _ _ _ Hk Hbefore);
    [|reflexivity].
  unfold attempt, request, bind, call_Make. rewrite HMake. cbn. rewrite Hverb. cbn.
  rewrite HExecute. cbn.
  destruct (unmarshaler (resp_Body resp)) as [d eb] eqn:Hd. cbn in Hbody. subst eb.
  destruct errResty as [e|]; cbn; rewrite Hchecker, Hunmarshaler; cbn;
    rewrite Hd, Hstatus; reflexivity.
Qed.

(** The retry test on the composite error of [request]: the causes are asked
    in the order transport, status, body. *)
Lemma clock_skew_composite (resp : option Response) (d : RespDataType)
    (he : option HTTPError) (errResty errHttp : option error)
    (errBody : option RespBodyUnmarshalerError) :
  errors_Is errResty (Some ErrInvalidTimestamp) = Returns false ->
  errors_Is errHttp (Some ErrInvalidTimestamp) = Returns false ->
  clock_skew (resp, d,
    {| RequestError_ReqBaseConfig := base config;
       RequestError_HTTPError := he;
       RequestError_RespBodyUnmarshalerError := errBody;
       RequestError_Err := Some (request_Errorf errResty errHttp errBody) |}) =
  errors_is ErrInvalidTimestamp (asError errBody).
Proof.
  intros Hr Hh. unfold clock_skew, RequestError_Is, request_Errorf. cbn.
  destruct errResty as [er|], errHttp as [eh|]; cbn in *; rewrite ?Hr, ?Hh;
    destruct errBody as [[c m [e|]]|]; try reflexivity;
    now destruct (errors_is ErrInvalidTimestamp e) as [[|]|].
Qed.

(** X6.  A status error next to a body that decodes.  The status checker refuses
    the response and the body unmarshaler returns no error: the composite
    error of the attempt then wraps the nil pointer of the body error, and
    unless the transport's or the checker's error has the clock-skew cause,
    the retry test reaches it and calls its method [Is], which dereferences
    it.  [Request] panics after this attempt instead of returning its
    result. *)
Theorem status_error_with_clean_body_panics
    k w rq w1 v resp errResty w2 checker unmarshaler eh :
  (k < 3)%nat ->
  (forall j, (j < k)%nat -> skewed_at j w) ->
  Make (base config) reqData opts (snd (before k w)) = ((Some rq, None), w1) ->
  method_verb (Method (base config)) = Some v ->
  Execute v rq w1 = ((Some resp, errResty), w2) ->
  config_HTTPStatusCodeChecker config = Some checker ->
  config_RespBodyUnmarshaler config = Some unmarshaler ->
  checker (resp_StatusCode resp) = Some eh ->
  snd (unmarshaler (resp_Body resp)) = None ->
  errors_Is errResty (Some ErrInvalidTimestamp) = Returns false ->
  errors_Is (Some eh) (Some ErrInvalidTimestamp) = Returns false ->
  let events :=
    [MakeCalled; TransportCalled v;
     StatusChecked (resp_StatusCode resp); BodyDecoded (resp_Body resp)] in
  (exists reqErr,
     attempt_no k w =
       (Returns (Some resp, fst (unmarshaler (resp_Body resp)), reqErr), events, w2) /\
     RequestError_RespBodyUnmarshalerError reqErr = None /\
     RequestError_Err reqErr = Some (request_Errorf errResty (Some eh) None)) /\
  Request3 w = (Panics, (fst (before k w) ++ events)%list, w2).
Proof.
  intros Hk Hbefore HMake Hverb HExecute Hchecker Hunmarshaler Hstatus Hbody Hr Hh events.
  destruct (unmarshaler (resp_Body resp)) as [d eb] eqn:Hd. cbn in Hbody. subst eb.
  cbn [fst].
  assert (attempt_no k w =
            (Returns (Some resp, d,
               {| RequestError_ReqBaseConfig := base config;
                  RequestError_HTTPError :=
                    Some {| StatusCode := resp_StatusCode resp; Status := resp_Status resp;
                            HTTPError_Err := Some eh |};
                  RequestError_RespBodyUnmarshalerError := None;
                  RequestError_Err := Some (request_Errorf errResty (Some eh) None) |}),
             events, w2)) as Ha.
  { unfold attempt, request, bind, call_Make. rewrite HMake. cbn. rewrite Hverb. cbn.
    rewrite HExecute. cbn.
    destruct errResty as [e|]; cbn; rewrite Hchecker, Hunmarshaler; cbn;
      rewrite Hd, Hstatus; reflexivity. }
  split.
  - eexists. split; [exact Ha|]. split; reflexivity.
  - apply (Request_ends_in_panic k w _ _ _ Hk Hbefore Ha).
    now rewrite clock_skew_composite.
Qed.

End ExecutorEnds.

(** *** The futures wrapper inside the executor *)

Section ExecutorWithWrapper.

Context {W Rq ReqDataType RespDataType Opt : Type}.
Context (zero : RespDataType).
Context (Make : ReqBaseConfig -> ReqDataType -> list Opt -> W -> (option Rq * option error) * W).
Context (Execute : verb -> Rq -> W -> (option Response * option error) * W).
Context (config : ReqConfig RespDataType) (reqData : ReqDataType) (opts : list Opt).
Context (spotCexCustomErrCodes : gmap Z error).

Local Abbreviation Request3 := (Request zero Make Execute config reqData opts).
Local Abbreviation attempt_no := (attempt zero Make Execute config reqData opts).
Local Abbreviation before := (world_before zero Make Execute config reqData opts).
Local Abbreviation skewed_at := (skewed zero Make Execute config reqData opts).

(** X7.  A response whose envelope code the table maps to the clock-skew cause.
    Behind the futures wrapper the attempt comes back with that cause
    whatever the HTTP status is and whether or not the transport reported an
    error of its own, and the payload decoder is not asked; the loop of
    [Request] goes on to another attempt unless this was the third. *)
Theorem clock_skew_code_is_retried
    k w rq w1 v resp errResty w2 checker unmarshaler :
  (forall j, (j < k)%nat -> skewed_at j w) ->
  Make (base config) reqData opts (snd (before k w)) = ((Some rq, None), w1) ->
  method_verb (Method (base config)) = Some v ->
  Execute v rq w1 = ((Some resp, errResty), w2) ->
  config_HTTPStatusCodeChecker config = Some checker ->
  config_RespBodyUnmarshaler config =
    Some (fuBodyUnmshWrapper spotCexCustomErrCodes zero unmarshaler) ->
  Code (decoded_envelope (resp_Body resp)) < 0 ->
  spotCexCustomErrCodes !! Code (decoded_envelope (resp_Body resp)) = Some ErrInvalidTimestamp ->
  errors_Is errResty (Some ErrInvalidTimestamp) <> Panics ->
  errors_Is (checker (resp_StatusCode resp)) (Some ErrInvalidTimestamp) <> Panics ->
  skewed_at k w /\
  (exists reqErr t w',
     attempt_no k w = (Returns (Some resp, zero, reqErr), t, w') /\
     (CexErrCode <$> RequestError_RespBodyUnmarshalerError reqErr) =
       Some (Code (decoded_envelope (resp_Body resp)))) /\
  ((k < 2)%nat -> (S k < makes (snd (fst (Request3 w))))%nat).
Proof.
  intros Hbefore HMake Hverb HExecute Hchecker Hunmarshaler Hneg Htable Hr Hh.
  set (code := Code (decoded_envelope (resp_Body resp))) in *.
  set (msg := Msg (decoded_envelope (resp_Body resp))).
  set (be := Build_RespBodyUnmarshalerError code msg
               (Some (wrapError ("bnc: " ++ fmt_w (Some ErrInvalidTimestamp))
                        (Some ErrInvalidTimestamp)))).
  assert (fuBodyUnmshWrapper spotCexCustomErrCodes zero unmarshaler (resp_Body resp)
          = (zero, Some be)) as Hwrapped.
  { unfold fuBodyUnmshWrapper, fuBodyUnmshCodeMsg. fold code msg.
    destruct (Z.eqb_spec code 0) as [H0|_]; [lia|].
    destruct (Z.eqb_spec code 200) as [H2|_]; [lia|].
    destruct (Z.ltb_spec 0 code) as [Hpos|_]; [lia|].
    cbn [orb]. now rewrite Htable. }
  set (reqErr :=
    {| RequestError_ReqBaseConfig := base config;
       RequestError_HTTPError :=
         match checker (resp_StatusCode resp) with
         | Some eh => Some {| StatusCode := resp_StatusCode resp; Status := resp_Status resp;
                              HTTPError_Err := Some eh |}
         | None => None
         end;
       RequestError_RespBodyUnmarshalerError := Some be;
       RequestError_Err :=
         Some (request_Errorf errResty (checker (resp_StatusCode resp)) (Some be)) |}).
  assert (attempt_no k w =
            (Returns (Some resp, zero, reqErr),
             [MakeCalled; TransportCalled v;
              StatusChecked (resp_StatusCode resp); BodyDecoded (resp_Body resp)], w2)) as Ha.
  { unfold attempt, request, bind, call_Make. rewrite HMake. cbn. rewrite Hverb. cbn.
    rewrite HExecute. cbn. subst reqErr.
    destruct errResty as [e|]; cbn; rewrite Hchecker, Hunmarshaler; cbn;
      rewrite Hwrapped; now destruct (checker (resp_StatusCode resp)). }
  assert (clock_skew (Some resp, zero, reqErr) = Returns true) as Hskew.
  { unfold clock_skew, RequestError_Is, request_Errorf. subst reqErr. cbn.
    destruct errResty as [er|]; cbn in *;
      [destruct (errors_is ErrInvalidTimestamp er) as [[|]|]; try reflexivity;
         try congruence|];
      (destruct (checker (resp_StatusCode resp)) as [eh|]; cbn in *;
         [destruct (errors_is ErrInvalidTimestamp eh) as [[|]|]; try reflexivity;
            try congruence|]; reflexivity). }
  assert (skewed_at k w) as Hk_skewed by (eexists _, _, _; split; [exact Ha | exact Hskew]).
  split; [assumption|]. split.
  - eexists _, _, _. split; [exact Ha | reflexivity].
  - intros Hk2. apply Request_goes_on; [assumption|].
    intros j Hj. destruct (Nat.eq_dec j k) as [-> | Hne]; [assumption | apply Hbefore; lia].
Qed.

End ExecutorWithWrapper.

(** *** These ends on scripted worlds *)

Lemma unsupported_method_is_final_witness :
  Request "" scripted_Make scripted_Execute patch_config tt [] maker_silent =
    (Returns (None, "",
       {| RequestError_ReqBaseConfig := base patch_config;
          RequestError_HTTPError := None;
          RequestError_RespBodyUnmarshalerError := None;
          RequestError_Err :=
            Some (errorString None "cex: http method PATCH is not supported") |}),
     [MakeCalled],
     {| made := []; replied := [(Some ok_response, None)] |}).
Proof.
  exact (proj2 (proj2 (unsupported_method_is_final
           "" scripted_Make scripted_Execute patch_config tt [] 0%nat maker_silent
           None {| made := []; replied := [(Some ok_response, None)] |}
           ltac:(lia) ltac:(intros; lia) eq_refl eq_refl))).
Defined.

Lemma missing_strategy_is_final_witness :
  Request "" scripted_Make scripted_Execute no_checker_config tt [] ok_with_transport_error =
    (Returns (Some ok_response, "",
       {| RequestError_ReqBaseConfig := example_base;
          RequestError_HTTPError := None;
          RequestError_RespBodyUnmarshalerError := None;
          RequestError_Err :=
            Some (errorString None "cex: config http status code checker is nil") |}),
     [MakeCalled; TransportCalled Get],
     {| made := [(Some 2%nat, None)]; replied := [(Some ok_response, None)] |}).
Proof.
  exact (proj2 (missing_strategy_is_final
           "" scripted_Make scripted_Execute no_checker_config tt [] 0%nat
           ok_with_transport_error 1%nat
           {| made := [(Some 2%nat, None)]; replied := replied ok_with_transport_error |}
           Get ok_response (Some (errorString None "resty: redirect loop"))
           {| made := [(Some 2%nat, None)]; replied := [(Some ok_response, None)] |}
           ltac:(lia) ltac:(intros; lia) eq_refl eq_refl eq_refl (or_introl eq_refl))).
Defined.

Lemma accepted_response_ends_the_call_witness :
  Request "" scripted_Make scripted_Execute example_config tt [] ok_with_transport_error =
    (Returns (Some ok_response, "{}",
       {| RequestError_ReqBaseConfig := example_base;
          RequestError_HTTPError := None;
          RequestError_RespBodyUnmarshalerError := None;
          RequestError_Err := None |}),
     [MakeCalled; TransportCalled Get; StatusChecked 200;
      BodyDecoded {| bytes := "{}"; scan := Value (JObject []) |}],
     {| made := [(Some 2%nat, None)]; replied := [(Some ok_response, None)] |}).
Proof.
  exact (proj2 (accepted_response_ends_the_call
           "" scripted_Make scripted_Execute example_config tt [] 0%nat
           ok_with_transport_error 1%nat
           {| made := [(Some 2%nat, None)]; replied := replied ok_with_transport_error |}
           Get ok_response (Some (errorString None "resty: redirect loop"))
           {| made := [(Some 2%nat, None)]; replied := [(Some ok_response, None)] |}
           example_checker example_unmarshaler
           ltac:(lia) ltac:(intros; lia) eq_refl eq_refl eq_refl eq_refl eq_refl
           eq_refl eq_refl)).
Defined.

Lemma status_error_with_clean_body_panics_witness :
  Request "" scripted_Make scripted_Execute example_config tt [] server_error =
    (Panics,
     [MakeCalled; TransportCalled Get; StatusChecked 500;
      BodyDecoded {| bytes := "{}"; scan := Value (JObject []) |}],
     {| made := [(Some 2%nat, None)]; replied := [(Some ok_response, None)] |}).
Proof.
  exact (proj2 (status_error_with_clean_body_panics
           "" scripted_Make scripted_Execute example_config tt [] 0%nat server_error 1%nat
           {| made := [(Some 2%nat, None)]; replied := replied server_error |}
           Get
           {| resp_StatusCode := 500; resp_Status := "500 Internal Server Error";
              resp_Body := {| bytes := "{}"; scan := Value (JObject []) |} |}
           None
           {| made := [(Some 2%nat, None)]; replied := [(Some ok_response, None)] |}
           example_checker example_unmarshaler (errorString None "bnc: http status 500")
           ltac:(lia) ltac:(intros; lia) eq_refl eq_refl eq_refl eq_refl eq_refl
           eq_refl eq_refl eq_refl eq_refl)).
Defined.

Lemma clock_skew_code_is_retried_witness :
  skewed "" scripted_Make scripted_Execute example_config tt [] 0%nat bad_status /\
  skewed "" scripted_Make scripted_Execute example_config tt [] 0%nat three_skews /\
  (1 < makes (snd (fst (Request "" scripted_Make scripted_Execute example_config tt []
                          three_skews))))%nat.
Proof.
  split.
  - exact (proj1 (clock_skew_code_is_retried
             "" scripted_Make scripted_Execute example_config tt [] example_codes
             0%nat bad_status 1%nat {| made := []; replied := replied bad_status |}
             Get skew_response (Some (errorString None "resty: status 400"))
             {| made := []; replied := [] |}
             example_checker string_unmarshaler
             ltac:(intros; lia) eq_refl eq_refl eq_refl eq_refl eq_refl
             eq_refl eq_refl ltac:(discriminate) ltac:(discriminate))).
  - pose proof (clock_skew_code_is_retried
             "" scripted_Make scripted_Execute example_config tt [] example_codes
             0%nat three_skews 1%nat
             {| made := [(Some 2%nat, None); (Some 3%nat, None)];
                replied := replied three_skews |}
             Get skew_response None
             {| made := [(Some 2%nat, None); (Some 3%nat, None)];
                replied := [(Some skew_response, None); (Some skew_response, None)] |}
             example_checker string_unmarshaler
             ltac:(intros; lia) eq_refl eq_refl eq_refl eq_refl eq_refl
             eq_refl eq_refl ltac:(discriminate) ltac:(discriminate)) as (Hs & _ & Hmore).
    split; [exact Hs | apply Hmore; lia].
Defined.

(** ** The standard body unmarshaler *)

Section StdBodyFacts.

Context {D : Type} (T : GoType D).

(** X8.  When [StdBodyUnmarshaler] succeeds.  For the type [string] it does so on
    every body, JSON or not, and returns the bytes as they are; for a slice,
    struct or map type it does so exactly when [json.Unmarshal] accepts the
    body, and returns what that decoded; for every other type it fails. *)
Theorem StdBodyUnmarshaler_succeeds_iff (body : Body) :
  (snd (StdBodyUnmarshaler T body) = None <->
     (type_Kind T = reflect.String /\ is_Some (of_string T)) \/
     (is_json_kind (type_Kind T) = true /\
      snd (type_Unmarshal T body (type_zero T)) = None)) /\
  (forall conv, type_Kind T = reflect.String -> of_string T = Some conv ->
     StdBodyUnmarshaler T body = (conv (bytes body), None)) /\
  (is_json_kind (type_Kind T) = true ->
   snd (type_Unmarshal T body (type_zero T)) = None ->
     StdBodyUnmarshaler T body = (fst (type_Unmarshal T body (type_zero T)), None)).
Proof.
  unfold StdBodyUnmarshaler. split; [|split].
  - destruct (type_Kind T); cbn;
      try (split; [discriminate | intros [[? _] | [? _]]; discriminate]).
    + destruct (type_Unmarshal T body (type_zero T)) as [d [err|]]; cbn;
        split; try discriminate; try (intros _; right; now split);
        try reflexivity; intros [[? _] | [_ ?]]; discriminate.
    + destruct (type_Unmarshal T body (type_zero T)) as [d [err|]]; cbn;
        split; try discriminate; try (intros _; right; now split);
        try reflexivity; intros [[? _] | [_ ?]]; discriminate.
    + destruct (of_string T) as [conv|]; cbn; split; try discriminate; try reflexivity.
      * intros _. left. split; [reflexivity | now eexists].
      * intros [[_ [? ?]] | [? _]]; discriminate.
    + destruct (type_Unmarshal T body (type_zero T)) as [d [err|]]; cbn;
        split; try discriminate; try (intros _; right; now split);
        try reflexivity; intros [[? _] | [_ ?]]; discriminate.
  - intros conv -> ->. reflexivity.
  - intros Hkind Hok.
    destruct (type_Unmarshal T body (type_zero T)) as [d [err|]]; [discriminate|].
    destruct (type_Kind T); try discriminate; reflexivity.
Qed.

(** X9.  A body that [json.Unmarshal] refuses for a slice, struct or map type.
    [StdBodyUnmarshaler] returns the error together with the value that
    [json.Unmarshal] left behind, which is not the zero value when part of
    the body was decoded.  The error has no code and no message, and its
    causes are [ErrJsonUnmarshal] and whatever the decoder's error has. *)
Theorem StdBodyUnmarshaler_keeps_partial_data (body : Body) (d : D) (err : error) :
  is_json_kind (type_Kind T) = true ->
  type_Unmarshal T body (type_zero T) = (d, Some err) ->
  let e :=
    Build_RespBodyUnmarshalerError 0 ""
      (Some (wrapErrors
               (fmt_v (Some ErrJsonUnmarshal) ++ ": unmarshal response body, " ++
                fmt_v (Some err))
               [ErrJsonUnmarshal; err])) in
  StdBodyUnmarshaler T body = (d, Some e) /\
  errors_Is (Some (asError (Some e))) (Some ErrJsonUnmarshal) = Returns true /\
  (forall t, errors_is t err = Returns true ->
     errors_Is (Some (asError (Some e))) (Some t) = Returns true).
Proof.
  intros Hkind Hd e. split; [|split].
  - unfold StdBodyUnmarshaler.
    destruct (type_Kind T); try discriminate; rewrite Hd; reflexivity.
  - reflexivity.
  - intros t Ht. cbn. rewrite Ht.
    destruct t as [[b|] s| | |]; try reflexivity. now case_bool_decide.
Qed.

(** X10.  A type that is neither [string] nor a slice, struct or map type: a
    number, a pointer, an interface, or a defined type whose underlying type
    is [string].  [StdBodyUnmarshaler] fails on every body with one and the
    same error, returns the zero value, and does not look at the body. *)
Theorem StdBodyUnmarshaler_refuses_type (body : Body) :
  is_json_kind (type_Kind T) = false ->
  (type_Kind T = reflect.String -> of_string T = None) ->
  StdBodyUnmarshaler T body =
    (type_zero T,
     Some (Build_RespBodyUnmarshalerError 0 ""
             (Some (errorString None
                      (match type_Kind T with
                       | reflect.String => "cex: cannot convert to " ++ type_name T
                       | k => "response data type " ++ reflect.Kind_String k ++
                              " is not supported"
                       end))))).
Proof.
  intros Hkind Hstring. unfold StdBodyUnmarshaler.
  destruct (type_Kind T); try discriminate; try reflexivity.
  now rewrite Hstring.
Qed.

End StdBodyFacts.

Lemma StdBodyUnmarshaler_succeeds_iff_witness :
  StdBodyUnmarshaler string_GoType html_body = ("<html>502 Bad Gateway</html>", None).
Proof.
  exact (proj1 (proj2 (StdBodyUnmarshaler_succeeds_iff string_GoType html_body))
           (fun s => s) eq_refl eq_refl).
Defined.

Lemma StdBodyUnmarshaler_keeps_partial_data_witness :
  fst (StdBodyUnmarshaler CodeMsg_GoType half_envelope) = {| Code := -1021; Msg := "" |} /\
  is_Some (snd (StdBodyUnmarshaler CodeMsg_GoType half_envelope)).
Proof.
  pose proof (proj1 (StdBodyUnmarshaler_keeps_partial_data CodeMsg_GoType half_envelope
                       {| Code := -1021; Msg := "" |} _ eq_refl eq_refl)) as H.
  rewrite H. split; [reflexivity | now eexists].
Defined.

Lemma StdBodyUnmarshaler_refuses_type_witness :
  StdBodyUnmarshaler int_GoType ok_response.(resp_Body) =
    (0, Some (Build_RespBodyUnmarshalerError 0 ""
                (Some (errorString None "response data type int is not supported")))) /\
  StdBodyUnmarshaler Symbol_GoType ok_response.(resp_Body) =
    (Symbol_of "", Some (Build_RespBodyUnmarshalerError 0 ""
                (Some (errorString None "cex: cannot convert to bnc.Symbol")))).
Proof.
  split.
  - exact (StdBodyUnmarshaler_refuses_type int_GoType _ eq_refl ltac:(discriminate)).
  - exact (StdBodyUnmarshaler_refuses_type Symbol_GoType _ eq_refl (fun _ => eq_refl)).
Defined.

(** ** More on the futures body unmarshaler *)

(** Decoding the members of an object one part after the other. *)
Lemma store_members_app (a b : list (string * json)) (st : CodeMsg * option error) :
  store_members (a ++ b) st = store_members b (store_members a st).
Proof.
  revert st. induction a as [|[k v] a IH]; intros st; [reflexivity|].
  cbn [app store_members]. apply IH.
Qed.

(** A value for the field [msg] leaves the code alone. *)
Lemma store_Msg_Code (v : json) (st : CodeMsg * option error) :
  Code (fst (store_Msg v st)) = Code (fst st).
Proof. destruct st as [c saved]. now destruct v. Qed.

(** Members none of which is the code. *)
Lemma store_members_Code (l : list (string * json)) : forall st,
  Forall (fun kv => key_is "code" kv.1 = false) l ->
  Code (fst (store_members l st)) = Code (fst st).
Proof.
  induction l as [|[k v] l IH]; intros st Hall; [reflexivity|].
  apply Forall_cons in Hall as [Hk Hl]. cbn in Hk. cbn [store_members].
  rewrite (IH _ Hl), Hk. destruct (key_is "msg" k); [apply store_Msg_Code | reflexivity].
Qed.


Section FuBodyMore.

Context (spotCexCustomErrCodes : gmap Z error).
Context {D : Type} (zero : D) (unmarshaler : RespBodyUnmarshaler D).

Local Abbreviation codeMsg_check := (fuBodyUnmshCodeMsg spotCexCustomErrCodes).
Local Abbreviation wrapped := (fuBodyUnmshWrapper spotCexCustomErrCodes zero unmarshaler).


(** X12.  Wrapping twice is wrapping once. *)
Theorem fuBodyUnmshWrapper_idempotent (body : Body) :
  fuBodyUnmshWrapper spotCexCustomErrCodes zero wrapped body = wrapped body.
Proof.
  unfold fuBodyUnmshWrapper. now destruct (codeMsg_check body).
Qed.

(** X13.  Any member that spells [code], in whatever case, decides.  When the last
    member of a JSON object whose key is [code] up to case holds an integer
    other than 0 and 200, the wrapper answers with the error of that code,
    whatever else the object holds, and the wrapped decoder does not see the
    body; when it holds 0 or 200, the body is passed on. *)
Theorem code_member_decides (body : Body) (pre post : list (string * json))
    (k lit : string) (c : Z) :
  scan body = Value (JObject (pre ++ (k, JNumber lit) :: post)) ->
  key_is "code" k = true ->
  ParseInt lit = Some c ->
  Forall (fun kv => key_is "code" kv.1 = false) post ->
  Code (decoded_envelope body) = c /\
  (c <> 0 -> c <> 200 ->
     exists err, wrapped body = (zero, Some err) /\ CexErrCode err = c) /\
  (c = 0 \/ c = 200 -> wrapped body = unmarshaler body).
Proof.
  intros Hscan Hk Hlit Hpost.
  assert (Code (decoded_envelope body) = c) as Hcode.
  { unfold decoded_envelope, json_Unmarshal_CodeMsg. rewrite Hscan.
    rewrite store_members_app. cbn [store_members]. rewrite Hk.
    rewrite (store_members_Code post _ Hpost).
    destruct (store_members pre _) as [cm saved]. cbn. now rewrite Hlit. }
  split; [assumption|]. split.
  - intros H0 H2. unfold fuBodyUnmshWrapper, fuBodyUnmshCodeMsg. rewrite Hcode.
    destruct (Z.eqb_spec c 0); [contradiction|].
    destruct (Z.eqb_spec c 200); [contradiction|]. cbn.
    destruct (Z.ltb 0 c); eexists; split; reflexivity.
  - intros Hc. unfold fuBodyUnmshWrapper.
    assert (codeMsg_check body = None) as ->; [|reflexivity].
    apply fuBodyUnmshCodeMsg_None. now rewrite Hcode.
Qed.

End FuBodyMore.


Lemma code_member_decides_witness :
  exists err,
    fuBodyUnmshWrapper example_codes "" string_unmarshaler tagged_payload = ("", Some err) /\
    CexErrCode err = 7.
Proof.
  exact (proj1 (proj2 (code_member_decides example_codes "" string_unmarshaler tagged_payload
           [("symbol", JString "ETHUSDT")] [("data", JArray [])] "Code" "7" 7
           eq_refl eq_refl eq_refl ltac:(repeat constructor)))
           ltac:(discriminate) ltac:(discriminate)).
Defined.

(** ** The response check of [bnc.User] *)

Section HandleRespFacts.

Context (bnc_HTTPStatusCodeChecker : Z -> option error).
Context (spotCexCustomErrCodes : gmap Z error).

Local Abbreviation handle := (HandleResp bnc_HTTPStatusCodeChecker).

(** X14.  When [HandleResp] reports an error.  It does so for a nil response; for
    a status other than 200 that the status checker refuses; and otherwise
    exactly when the body parses as an envelope without any error and the
    code in it is negative.  A body that is no envelope, or an envelope that
    does not parse cleanly, passes. *)
Theorem HandleResp_reports_iff (u : User) (r : Response) (req : option RestyRequest) :
  is_Some (handle u None req) /\
  (is_Some (handle u (Some r) req) <->
     (resp_StatusCode r <> 200 /\ is_Some (bnc_HTTPStatusCodeChecker (resp_StatusCode r))) \/
     (envelope_error (resp_Body r) = None /\ Code (decoded_envelope (resp_Body r)) < 0)).
Proof.
  split; [now eexists|].
  unfold HandleResp, envelope_error, decoded_envelope.
  destruct (json_Unmarshal_CodeMsg (resp_Body r) _) as [codeMsg perr]. cbn [fst snd].
  destruct (Z.eqb_spec (resp_StatusCode r) 200) as [H200 | H200]; cbn [negb].
  - destruct perr as [pe|].
    + split; [intros [? ?]; discriminate | intros [[? _] | [? _]]; [contradiction | discriminate]].
    + destruct (Z.leb_spec 0 (Code codeMsg)) as [Hge | Hlt].
      * split; [intros [? ?]; discriminate | intros [[? _] | [_ ?]]; [contradiction | lia]].
      * split; [intros _; right; now split | intros _; now eexists].
  - destruct (bnc_HTTPStatusCodeChecker (resp_StatusCode r)) as [e|].
    + split; [intros _; left; split; [assumption | now eexists] | intros _; now eexists].
    + destruct perr as [pe|].
      * split; [intros [? ?]; discriminate
               | intros [[_ [? ?]] | [? _]]; discriminate].
      * destruct (Z.leb_spec 0 (Code codeMsg)) as [Hge | Hlt].
        -- split; [intros [? ?]; discriminate | intros [[_ [? ?]] | [_ ?]]; [discriminate | lia]].
        -- split; [intros _; right; now split | intros _; now eexists].
Qed.


End HandleRespFacts.


(** ** The order book unmarshaler *)

Section OrderBookFacts.

Context {float64 UpdateId EventTime TransactTime : Type}.
Context (ParseFloat : string -> float64 * option error).
Context (zero_UpdateId : UpdateId) (zero_EventTime : EventTime)
        (zero_TransactTime : TransactTime).
Context (json_Unmarshal_RawOrderBook :
           Body -> @RawOrderBook UpdateId EventTime TransactTime ->
           @RawOrderBook UpdateId EventTime TransactTime * option error).
Context (SpotCodeMsgChecker : Z -> option error).

Local Abbreviation conv_loop := (convRawStrBookToFloatBook_loop ParseFloat).
Local Abbreviation conv := (convRawStrBookToFloatBook ParseFloat).
Local Abbreviation converts := (converts ParseFloat).
Local Abbreviation unmsher :=
  (obBodyUnmsher ParseFloat zero_UpdateId zero_EventTime zero_TransactTime
     json_Unmarshal_RawOrderBook SpotCodeMsgChecker).
Local Abbreviation zero_raw := (zero_RawOrderBook zero_UpdateId zero_EventTime zero_TransactTime).
Local Abbreviation zero_book :=
  (@zero_OrderBook float64 _ _ _ zero_UpdateId zero_EventTime zero_TransactTime).

Local Abbreviation refused := (refused ParseFloat).

(** One turn of the loop on an entry of two. *)
Lemma conv_loop_cons pq0 pq1 rest book :
  conv_loop ([pq0; pq1] :: rest) book =
    match ParseFloat pq0 with
    | (_, Some err) =>
        ([], Some (wrapError ("parse price " ++ pq0 ++ ", " ++ fmt_v (Some err)) (Some err)))
    | (p, None) =>
        match ParseFloat pq1 with
        | (_, Some err) =>
            ([], Some (wrapError ("parse qty " ++ pq1 ++ ", " ++ fmt_v (Some err)) (Some err)))
        | (q, None) => conv_loop rest (book ++ [[p; q]])%list
        end
    end.
Proof. reflexivity. Qed.

Lemma conv_loop_converts raw : forall book rows,
  Forall2 converts raw rows -> conv_loop raw book = ((book ++ rows)%list, None).
Proof.
  induction raw as [|pq raw IH]; intros book rows Hall.
  - apply Forall2_nil_inv_l in Hall as ->. cbn. now rewrite app_nil_r.
  - apply Forall2_cons_inv_l in Hall as (row & rows' & Hrow & Hrows & ->).
    destruct Hrow as (pq0 & pq1 & p & q & -> & Hp & Hq & ->).
    rewrite conv_loop_cons, Hp, Hq, (IH _ _ Hrows).
    now rewrite <- app_assoc.
Qed.

(** The outcome of the loop: either every entry converts, or the entries
    before some entry do and that one is refused. *)
Lemma conv_loop_outcome raw : forall book,
  (exists rows, Forall2 converts raw rows /\ conv_loop raw book = ((book ++ rows)%list, None)) \/
  (exists good rows pq rest err,
     raw = (good ++ pq :: rest)%list /\ Forall2 converts good rows /\ refused pq err /\
     conv_loop raw book = ([], Some err)).
Proof.
  induction raw as [|pq raw IH]; intros book.
  - left. exists []. split; [constructor | cbn; now rewrite app_nil_r].
  - assert (forall err,
              length pq <> 2%nat ->
              err = errorString None ("price and qty in book " ++ fmt_v_strings pq ++ " len != 2") ->
              conv_loop (pq :: raw) book = ([], Some err) ->
              exists good rows pq' rest err',
                pq :: raw = (good ++ pq' :: rest)%list /\ Forall2 converts good rows /\
                refused pq' err' /\ conv_loop (pq :: raw) book = ([], Some err')) as Hlen.
    { intros err Hl -> Hrun. exists [], [], pq, raw. eexists.
      split; [reflexivity|]. split; [constructor|]. split; [|exact Hrun].
      left. now split. }
    destruct pq as [|pq0 [|pq1 [|pq2 pq]]];
      try (right; eapply Hlen; [cbn; lia | reflexivity | reflexivity]).
    clear Hlen. rewrite conv_loop_cons.
    destruct (ParseFloat pq0) as [p [e|]] eqn:Hp.
    { right. exists [], [], [pq0; pq1], raw. eexists.
      split; [reflexivity|]. split; [constructor|]. split; [|reflexivity].
      right. left. now exists pq0, pq1, p, e. }
    destruct (ParseFloat pq1) as [q [e|]] eqn:Hq.
    { right. exists [], [], [pq0; pq1], raw. eexists.
      split; [reflexivity|]. split; [constructor|]. split; [|reflexivity].
      right. right. now exists pq0, pq1, p, q, e. }
    destruct (IH (book ++ [[p; q]])%list)
      as [(rows & Hrows & Hrun) | (good & rows & pq' & rest & err & -> & Hgood & Hbad & Hrun)].
    + left. exists ([p; q] :: rows). split.
      * constructor; [now exists pq0, pq1, p, q | assumption].
      * rewrite Hrun. now rewrite <- app_assoc.
    + right. exists ([pq0; pq1] :: good), ([p; q] :: rows), pq', rest, err.
      split; [reflexivity|]. split; [|split; assumption].
      constructor; [now exists pq0, pq1, p, q | assumption].
Qed.

Lemma conv_converts (raw : list (list string)) (book : list (list float64)) :
  conv raw = (book, None) <-> Forall2 converts raw book.
Proof.
  unfold convRawStrBookToFloatBook. split.
  - intros Hrun.
    destruct (conv_loop_outcome raw [])
      as [(rows & Hrows & Hrun') | (good & rows & pq & rest & err & _ & _ & _ & Hrun')];
      rewrite Hrun in Hrun'; [|discriminate].
    injection Hrun' as ->. exact Hrows.
  - intros Hall. now rewrite (conv_loop_converts raw [] book Hall).
Qed.

(** X16.  A raw book converts to a row of two numbers per entry, in the order of
    the entries, exactly when each entry holds two strings that both parse
    as numbers; the book then has as many rows as the raw book has entries.
    Either the conversion gives a book or it gives an error, never both. *)
Theorem convRawStrBookToFloatBook_converts_iff (raw : list (list string))
    (book : list (list float64)) :
  (conv raw = (book, None) <-> Forall2 converts raw book) /\
  (conv raw = (book, None) -> length book = length raw) /\
  (is_Some (snd (conv raw)) -> fst (conv raw) = []).
Proof.
  split; [apply conv_converts|]. split.
  - intros Hrun. apply conv_converts in Hrun. symmetry. exact (Forall2_length _ _ _ Hrun).
  - unfold convRawStrBookToFloatBook. intros [err Herr].
    destruct (conv_loop_outcome raw [])
      as [(rows & _ & Hrun) | (good & rows & pq & rest & err' & _ & _ & _ & Hrun)];
      rewrite Hrun in *; [discriminate | reflexivity].
Qed.

(** X17.  A raw book that does not convert.  The conversion stops at the first
    entry that is not a pair of numbers and returns no book at all, the rows
    of the entries before it included; the error names that entry: its
    length when it is not two, else the string that does not parse, with
    the parser's error as its cause. *)
Theorem convRawStrBookToFloatBook_stops_at_first_bad_entry (raw : list (list string))
    (book : list (list float64)) (err : error) :
  conv raw = (book, Some err) ->
  book = [] /\
  exists good rows pq rest,
    raw = (good ++ pq :: rest)%list /\ Forall2 converts good rows /\ refused pq err.
Proof.
  unfold convRawStrBookToFloatBook. intros Hrun.
  destruct (conv_loop_outcome raw [])
    as [(rows & Hrows & Hrun') | (good & rows & pq & rest & err' & Hraw & Hgood & Hbad & Hrun')];
    rewrite Hrun in Hrun'; [discriminate|].
  injection Hrun' as -> ->. split; [reflexivity|].
  now exists good, rows, pq, rest.
Qed.

(** X18.  When [obBodyUnmsher] succeeds: the body decodes into a raw book, the
    code of that is 0, and bids and asks both convert.  The order book then
    holds the converted bids and asks and the three other fields of the raw
    book as they are. *)
Theorem obBodyUnmsher_succeeds_iff (body : Body) (ob : OrderBook) :
  unmsher body = (ob, None) <->
  exists raw,
    json_Unmarshal_RawOrderBook body zero_raw = (raw, None) /\
    RawOrderBook_Code raw = 0 /\
    Forall2 converts (RawOrderBook_Bids raw) (Bids ob) /\
    Forall2 converts (RawOrderBook_Asks raw) (Asks ob) /\
    LastUpdateId ob = RawOrderBook_LastUpdateId raw /\
    E ob = RawOrderBook_E raw /\ T ob = RawOrderBook_T raw.
Proof.
  unfold obBodyUnmsher. split.
  - intros Hrun.
    destruct (json_Unmarshal_RawOrderBook body zero_raw) as [raw [err|]]; [discriminate|].
    exists raw. split; [reflexivity|].
    destruct (Z.eqb_spec (RawOrderBook_Code raw) 0) as [H0|H0]; [|discriminate].
    cbn [negb] in Hrun. split; [assumption|].
    destruct (conv (RawOrderBook_Bids raw)) as [bids [err|]] eqn:Hbids; [discriminate|].
    destruct (conv (RawOrderBook_Asks raw)) as [asks [err|]] eqn:Hasks; [discriminate|].
    injection Hrun as <-. cbn.
    apply conv_converts in Hbids, Hasks. now repeat split.
  - intros (raw & -> & H0 & Hbids & Hasks & Hid & HE & HT).
    rewrite H0. cbn [Z.eqb negb].
    apply conv_converts in Hbids, Hasks.
    rewrite Hbids, Hasks. destruct ob. cbn in *. now subst.
Qed.

(** X19.  When [obBodyUnmsher] fails.  It returns the zero order book, and an
    error whose cause is never nil.  The error has a code exactly when the
    body decoded into a raw book with a code other than 0 (200 is such a
    code here): it then carries that code and the message, its cause is what
    [SpotCodeMsgChecker] has for the code or else the plain message, and
    bids and asks are not looked at.  A body that does not decode has the
    cause [ErrJsonUnmarshal]; with the code 0, bad bids are reported before
    bad asks. *)
Theorem obBodyUnmsher_failure (body : Body) (ob : OrderBook) (e : RespBodyUnmarshalerError) :
  unmsher body = (ob, Some e) ->
  ob = zero_book /\ is_Some (Err e) /\
  (CexErrCode e <> 0 <->
     exists raw,
       json_Unmarshal_RawOrderBook body zero_raw = (raw, None) /\
       RawOrderBook_Code raw <> 0) /\
  (forall raw, json_Unmarshal_RawOrderBook body zero_raw = (raw, None) ->
     RawOrderBook_Code raw <> 0 ->
     e = Build_RespBodyUnmarshalerError (RawOrderBook_Code raw) (RawOrderBook_Msg raw)
           (Some (default (errorString None (RawOrderBook_Msg raw))
                    (SpotCodeMsgChecker (RawOrderBook_Code raw))))) /\
  (is_Some (snd (json_Unmarshal_RawOrderBook body zero_raw)) ->
     errors_Is (Some (asError (Some e))) (Some ErrJsonUnmarshal) = Returns true) /\
  (forall raw err, json_Unmarshal_RawOrderBook body zero_raw = (raw, None) ->
     RawOrderBook_Code raw = 0 ->
     snd (conv (RawOrderBook_Bids raw)) = Some err ->
     Err e = Some (wrapError ("parse raw orderbook bids, " ++ fmt_v (Some err)) (Some err))).
Proof.
  unfold obBodyUnmsher. intros Hrun.
  destruct (json_Unmarshal_RawOrderBook body zero_raw) as [raw [jerr|]].
  { injection Hrun as <- <-. cbn [CexErrCode Err].
    split; [reflexivity|]. split; [now eexists|]. split; [|split; [|split]].
    - split; [intros H; now destruct H | intros (raw' & Heq & _); discriminate].
    - intros raw' Heq. discriminate.
    - intros _. cbn. now rewrite bool_decide_eq_true_2.
    - intros raw' err Heq. discriminate. }
  destruct (Z.eqb_spec (RawOrderBook_Code raw) 0) as [H0|H0]; cbn [negb] in Hrun.
  - assert (exists err, e = Build_RespBodyUnmarshalerError 0 "" (Some err) /\
              ob = zero_book /\
              forall berr, snd (conv (RawOrderBook_Bids raw)) = Some berr ->
                err = wrapError ("parse raw orderbook bids, " ++ fmt_v (Some berr)) (Some berr))
      as (err & -> & -> & Hbids).
    { destruct (conv (RawOrderBook_Bids raw)) as [bids [berr|]].
      - injection Hrun as <- <-. eexists. split; [reflexivity|]. split; [reflexivity|].
        intros berr' Heq. now injection Heq as ->.
      - destruct (conv (RawOrderBook_Asks raw)) as [asks [aerr|]]; [|discriminate].
        injection Hrun as <- <-. eexists. split; [reflexivity|]. split; [reflexivity|].
        intros berr' Heq. discriminate. }
    cbn [CexErrCode Err].
    split; [reflexivity|]. split; [now eexists|]. split; [|split; [|split]].
    + split; [intros H; now destruct H|].
      intros (raw' & Heq & Hne). injection Heq as <-. contradiction.
    + intros raw' Heq Hne. injection Heq as <-. contradiction.
    + intros [? ?]. discriminate.
    + intros raw' berr Heq _ Hberr. injection Heq as <-. now rewrite (Hbids berr Hberr).
  - injection Hrun as <- <-. cbn [CexErrCode Err].
    split; [reflexivity|]. split; [now eexists|]. split; [|split; [|split]].
    + split; [intros _; now exists raw | intros _; assumption].
    + intros raw' Heq _. injection Heq as <-.
      now destruct (SpotCodeMsgChecker (RawOrderBook_Code raw)).
    + intros [? ?]. discriminate.
    + intros raw' err Heq Hz. injection Heq as <-. contradiction.
Qed.

End OrderBookFacts.

Lemma convRawStrBookToFloatBook_stops_at_first_bad_entry_witness :
  convRawStrBookToFloatBook example_ParseFloat64 [["4"; "431"]; ["5"]; ["x"; "7"]] =
    ([], Some (errorString None "price and qty in book [5] len != 2")) /\
  exists good rows pq rest,
    [["4"; "431"]; ["5"]; ["x"; "7"]] = (good ++ pq :: rest)%list /\
    Forall2 (converts example_ParseFloat64) good rows /\ length pq <> 2%nat.
Proof.
  split; [reflexivity|].
  destruct (convRawStrBookToFloatBook_stops_at_first_bad_entry example_ParseFloat64
              [["4"; "431"]; ["5"]; ["x"; "7"]] [] _ eq_refl)
    as (_ & good & rows & pq & rest & Hraw & Hgood & Hbad).
  exists good, rows, pq, rest. split; [assumption|]. split; [assumption|].
  destruct Hbad as [[Hlen _] | [(pq0 & pq1 & f & e & _ & _ & Herr)
                               | (pq0 & pq1 & p & f & e & _ & _ & _ & Herr)]];
    [assumption | discriminate | discriminate].
Defined.

Lemma obBodyUnmsher_failure_witness :
  exists ob e,
    obBodyUnmsher example_ParseFloat64 0 0 0 example_Unmarshal_RawOrderBook
      example_SpotCodeMsgChecker {| bytes := "-1121"; scan := Value (JNumber "-1121") |} =
      (ob, Some e) /\
    ob = zero_OrderBook 0 0 0 /\
    e = Build_RespBodyUnmarshalerError (-1121) "Invalid symbol."
          (Some (errorString None "Invalid symbol.")).
Proof.
  eexists _, _. split; [reflexivity|].
  destruct (obBodyUnmsher_failure example_ParseFloat64 0 0 0 example_Unmarshal_RawOrderBook
              example_SpotCodeMsgChecker
              {| bytes := "-1121"; scan := Value (JNumber "-1121") |} _ _ eq_refl)
    as (Hob & _ & _ & He & _).
  split; [exact Hob|].
  exact (He _ eq_refl ltac:(discriminate)).
Defined.

Lemma obBodyUnmsher_succeeds_iff_witness :
  obBodyUnmsher example_ParseFloat64 0 0 0 example_Unmarshal_RawOrderBook
      example_SpotCodeMsgChecker {| bytes := "0"; scan := Value (JNumber "0") |} =
    ({| Bids := [[4; 431]]; Asks := [[5; 12]; [6; 1]];
        LastUpdateId := 1027024; E := 0; T := 0 |}, None).
Proof.
  apply (obBodyUnmsher_succeeds_iff example_ParseFloat64 0 0 0 example_Unmarshal_RawOrderBook
           example_SpotCodeMsgChecker).
  eexists. split; [reflexivity|]. split; [reflexivity|].
  split; [|split; [|repeat split]].
  - constructor; [|constructor]. now exists "4", "431", 4, 431.
  - constructor; [|constructor; [|constructor]].
    + now exists "5", "12", 5, 12.
    + now exists "6", "1", 6, 1.
Defined.

(** ** More on the kline body unmarshaler *)

Section KlineMore.

Context {float64 Kline : Type}.
Context (ParseFloat : string -> option float64).
Context (zero_Kline : Kline).
Context (json_Marshal : gmap string (@any float64) -> string * option error).
Context (json_Unmarshal_Kline : string -> Kline -> Kline * option error).

Local Abbreviation value := (@any float64).
Local Abbreviation row_decodes := (row_decodes zero_Kline json_Marshal json_Unmarshal_Kline).
Local Abbreviation rows_loop := (kline_rows zero_Kline json_Marshal json_Unmarshal_Kline).
Local Abbreviation unmsher :=
  (klineBodyUnmsher ParseFloat zero_Kline json_Marshal json_Unmarshal_Kline).

(** The error of a failed library call: no code, no message, and the cause
    [sentinel] next to the library's own error. *)
Local Abbreviation library_failure sentinel e :=
  (exists err,
     e = Build_RespBodyUnmarshalerError 0 ""
           (Some (wrapErrors (fmt_v (Some sentinel) ++ ": " ++ fmt_v (Some err))
                    [sentinel; err]))).

(** The outer loop returns: with one kline for each row, or with the error
    of the first row that does not marshal or unmarshal and without any
    kline. *)
Lemma kline_rows_outcome (data : list (list value)) : forall klines,
  (exists decoded,
     Forall2 row_decodes data decoded /\
     rows_loop data klines = Returns ((klines ++ decoded)%list, None)) \/
  (exists e,
     rows_loop data klines = Returns ([], Some e) /\
     (library_failure ErrJsonMarshal e \/ library_failure ErrJsonUnmarshal e)).
Proof.
  induction data as [|row data IH]; intros klines.
  - left. exists []. split; [constructor | cbn; now rewrite app_nil_r].
  - cbn [kline_rows]. rewrite kline_fill_take.
    destruct (kline_fill 0 (take 12 row) ∅) as [m|] eqn:Hm;
      [|rewrite kline_fill_pairs in Hm; discriminate].
    destruct (json_Marshal m) as [d [err|]] eqn:Hd.
    { right. eexists. split; [reflexivity|]. left. now exists err. }
    destruct (json_Unmarshal_Kline d zero_Kline) as [k [err|]] eqn:Hk.
    { right. eexists. split; [reflexivity|]. right. now exists err. }
    destruct (IH (klines ++ [k])%list) as [(decoded & Hall & Hrun) | (e & Hrun & He)].
    + left. exists (k :: decoded). split.
      * constructor; [now exists m, d | assumption].
      * rewrite Hrun. now rewrite <- app_assoc.
    + right. exists e. now split.
Qed.

Lemma store_rows_length (rows : list json) : forall saved,
  length (fst (store_rows ParseFloat rows saved)) = length rows.
Proof.
  induction rows as [|x rows IH]; intros saved; [reflexivity|].
  cbn [store_rows].
  destruct (store_row ParseFloat x saved) as [row saved1].
  specialize (IH saved1).
  destruct (store_rows ParseFloat rows saved1) as [r saved2]. cbn in *. now rewrite IH.
Qed.

(** X20.  [klineBodyUnmsher] returns on every body, and never klines next to an
    error.  An error has no code and no message, and its causes are
    [ErrJsonUnmarshal] or [ErrJsonMarshal] and the library's own error; the
    klines of the rows before the one that failed are dropped. *)
Theorem klineBodyUnmsher_returns (body : Body) :
  exists klines err,
    unmsher body = Returns (klines, err) /\
    forall e, err = Some e ->
      klines = [] /\
      (library_failure ErrJsonUnmarshal e \/ library_failure ErrJsonMarshal e) /\
      (errors_Is (Some (asError (Some e))) (Some ErrJsonUnmarshal) = Returns true \/
       errors_Is (Some (asError (Some e))) (Some ErrJsonMarshal) = Returns true).
Proof.
  unfold klineBodyUnmsher.
  destruct (json_Unmarshal_rows ParseFloat body) as [data [err|]].
  - eexists _, _. split; [reflexivity|]. intros e He. injection He as <-.
    split; [reflexivity|]. split; [left; now exists err | left; reflexivity].
  - destruct (kline_rows_outcome data []) as [(decoded & _ & ->) | (e & -> & He)].
    + eexists _, _. split; [reflexivity|]. intros e He. discriminate.
    + eexists _, _. split; [reflexivity|]. intros e' He'. injection He' as <-.
      split; [reflexivity|].
      destruct He as [(err & ->) | (err & ->)].
      * split; [right; now exists err | right; reflexivity].
      * split; [left; now exists err | left; reflexivity].
Qed.

(** X21.  When [klineBodyUnmsher] succeeds, the body decoded into rows, and the
    klines are those of the rows, one for each and in their order: each is
    what the map of the row's first twelve positions marshals and then
    unmarshals to.  For a body that is a JSON array there are as many klines
    as the array has elements. *)
Theorem klineBodyUnmsher_decodes_every_row (body : Body) (klines : list Kline) :
  unmsher body = Returns (klines, None) ->
  exists data,
    json_Unmarshal_rows ParseFloat body = (data, None) /\
    Forall2 row_decodes data klines /\
    length klines = length data /\
    forall rows, scan body = Value (JArray rows) -> length klines = length rows.
Proof.
  unfold klineBodyUnmsher. intros Hrun.
  destruct (json_Unmarshal_rows ParseFloat body) as [data [err|]] eqn:Hdata; [discriminate|].
  exists data. split; [reflexivity|].
  destruct (kline_rows_outcome data []) as [(decoded & Hall & Hrun') | (e & Hrun' & _)];
    rewrite Hrun in Hrun'; [|discriminate].
  injection Hrun' as ->. cbn [app].
  assert (length decoded = length data) as Hlen by (symmetry; exact (Forall2_length _ _ _ Hall)).
  split; [assumption|]. split; [assumption|].
  intros rows Hscan. rewrite Hlen.
  unfold json_Unmarshal_rows in Hdata. rewrite Hscan in Hdata.
  pose proof (store_rows_length rows None) as Hrows. rewrite Hdata in Hrows. exact Hrows.
Qed.

End KlineMore.

Lemma klineBodyUnmsher_decodes_every_row_witness :
  exists data,
    json_Unmarshal_rows example_ParseFloat (body_of (JArray [long_row; JArray []])) =
      (data, None) /\
    length data = 2%nat /\
    Forall2 (row_decodes "" example_Marshal example_Unmarshal_Kline) data
      ["closePrice,closeTime,highPrice,lowPrice,openPrice,openTime,quoteAssetVolume,takerBuyBaseAssetVolume,takerBuyQuoteAssetVolume,tradesNumber,unused,volume"; ""].
Proof.
  destruct (klineBodyUnmsher_decodes_every_row example_ParseFloat "" example_Marshal
              example_Unmarshal_Kline (body_of (JArray [long_row; JArray []])) _
              ltac:(vm_compute; reflexivity))
    as (data & Hdata & Hall & Hlen & _).
  exists data. split; [exact Hdata|]. split; [now rewrite <- Hlen | exact Hall].
Defined.

(** ** More on the request maker of [bnc.User] *)

Section MakerFailures.

Context {W ReqData RespDataType : Type}.
Context (ToStrMap : ReqData -> gmap string string * option error).
Context (UnixMilli : W -> Z * W).
Context (zero : RespDataType).
Context (Execute : verb -> RestyRequest -> W -> (option Response * option error) * W).

Local Abbreviation Make := (User_Make ToStrMap UnixMilli).

(** What [Make] returns for request data that does not serialize. *)
Lemma User_Make_refuses
    (u : User) (config : ReqBaseConfig) (data : ReqData) (opts : list ReqOpt) (w : W)
    (m : gmap string string) (err : error) :
  ToStrMap data = (m, Some err) ->
  Make u config data opts w =
    ((None,
      Some (if IsUserData config
            then wrapErrors (fmt_v (Some ErrS2M) ++ ": " ++ fmt_v (Some err)) [ErrS2M; err]
            else wrapError ("bnc: make public request, " ++ fmt_v (Some err)) (Some err))),
     w).
Proof.
  intros Hm.
  unfold User_Make, makePrivateReq, makePublicReq, sign, signReqData. rewrite Hm.
  now destruct (IsUserData config).
Qed.

(** X22.  Request data that does not serialize.  [Make] returns no request and an
    error, and has not read the clock.  For an endpoint that requires
    authentication the error has the causes [ErrS2M] and the serializer's
    error; for a public endpoint it has the serializer's error as its only
    cause, behind a text of its own, and [ErrS2M] is not among its causes
    unless the serializer put it there. *)
Theorem serialization_failure_makes_no_request
    (u : User) (config : ReqBaseConfig) (data : ReqData) (opts : list ReqOpt) (w : W)
    (m : gmap string string) (err : error) :
  ToStrMap data = (m, Some err) ->
  let e :=
    if IsUserData config
    then wrapErrors (fmt_v (Some ErrS2M) ++ ": " ++ fmt_v (Some err)) [ErrS2M; err]
    else wrapError ("bnc: make public request, " ++ fmt_v (Some err)) (Some err) in
  Make u config data opts w = ((None, Some e), w) /\
  errors_Is (Some e) (Some ErrS2M) =
    (if IsUserData config then Returns true else errors_Is (Some err) (Some ErrS2M)) /\
  (forall t, errors_is t err = Returns true -> errors_Is (Some e) (Some t) = Returns true).
Proof.
  intros Hm e. subst e. split; [now apply User_Make_refuses with (m := m)|].
  destruct (IsUserData config); (split; [reflexivity|]).
  - intros t Ht. cbn. rewrite Ht.
    destruct t as [[b|] s| | |]; try reflexivity. now case_bool_decide.
  - intros t Ht. exact Ht.
Qed.

(** X23.  Such request data ends the whole call: [Request] with this request maker
    makes one attempt, sends nothing, leaves the clock unread, and returns
    the request-construction error around the maker's error; unless the
    serializer's error has the clock-skew cause, there is no retry. *)
Theorem serialization_failure_ends_the_call
    (u : User) (config : ReqConfig RespDataType) (data : ReqData) (opts : list ReqOpt) (w : W)
    (m : gmap string string) (err : error) :
  ToStrMap data = (m, Some err) ->
  errors_Is (Some err) (Some ErrInvalidTimestamp) = Returns false ->
  let e :=
    if IsUserData (base config)
    then wrapErrors (fmt_v (Some ErrS2M) ++ ": " ++ fmt_v (Some err)) [ErrS2M; err]
    else wrapError ("bnc: make public request, " ++ fmt_v (Some err)) (Some err) in
  Request zero (Make u) Execute config data opts w =
    (Returns (None, zero,
       {| RequestError_ReqBaseConfig := base config;
          RequestError_HTTPError := None;
          RequestError_RespBodyUnmarshalerError := None;
          RequestError_Err :=
            Some (wrapError ("cex: make request, " ++ fmt_v (Some e)) (Some e)) |}),
     [MakeCalled], w).
Proof.
  intros Hm Hnot e.
  pose proof (User_Make_refuses u (base config) data opts w m err Hm) as HMake.
  fold e in HMake.
  apply (Request_ends_with zero (Make u) Execute config data opts 0 w _ _ _
           ltac:(lia) ltac:(intros; lia)).
  - unfold attempt, request, bind, call_Make. cbn [world_before snd]. now rewrite HMake.
  - unfold clock_skew, RequestError_Is. cbn [snd RequestError_Err].
    subst e. cbn in Hnot |- *.
    destruct (IsUserData (base config)); cbn; now rewrite Hnot.
Qed.

(** X24.  A public endpoint with request data that serializes.  [Make] returns
    neither a request nor an error, whatever the data and the options are,
    and with one of the four methods the executor calls that method on the
    nil request: [Request] panics in its first attempt, before anything is
    sent. *)
Theorem public_endpoint_panics
    (u : User) (config : ReqConfig RespDataType) (data : ReqData) (opts : list ReqOpt) (w : W)
    (m : gmap string string) (v : verb) :
  IsUserData (base config) = false ->
  ToStrMap data = (m, None) ->
  method_verb (Method (base config)) = Some v ->
  Make u (base config) data opts w = ((None, None), w) /\
  Request zero (Make u) Execute config data opts w = (Panics, [MakeCalled], w).
Proof.
  intros Hpublic Hm Hverb.
  assert (Make u (base config) data opts w = ((None, None), w)) as HMake.
  { unfold User_Make, makePublicReq. now rewrite Hpublic, Hm. }
  split; [assumption|].
  unfold Request. cbn [Request_loop]. unfold bind at 1.
  assert (request zero (Make u) Execute config data opts w = (Panics, [MakeCalled], w)) as ->;
    [|reflexivity].
  unfold request, bind, call_Make. rewrite HMake. cbn. now rewrite Hverb.
Qed.

End MakerFailures.

Lemma serialization_failure_makes_no_request_witness :
  User_Make ToStrMap_refuses clock (NewUser "key" "k") example_base tt [] 1700000000000 =
    ((None,
      Some (wrapErrors "cex: struct to map: s2m: unsupported field type"
              [ErrS2M; errorString None "s2m: unsupported field type"])),
     1700000000000) /\
  User_Make ToStrMap_refuses clock (NewUser "key" "k") depth_config tt [] 1700000000000 =
    ((None,
      Some (wrapError "bnc: make public request, s2m: unsupported field type"
              (Some (errorString None "s2m: unsupported field type")))),
     1700000000000).
Proof.
  split.
  - exact (proj1 (serialization_failure_makes_no_request ToStrMap_refuses clock
                    (NewUser "key" "k") example_base tt [] 1700000000000 ∅ _ eq_refl)).
  - exact (proj1 (serialization_failure_makes_no_request ToStrMap_refuses clock
                    (NewUser "key" "k") depth_config tt [] 1700000000000 ∅ _ eq_refl)).
Defined.

Lemma serialization_failure_ends_the_call_witness :
  Request "" (User_Make ToStrMap_refuses clock (NewUser "key" "k")) no_transport
    example_config tt [] 1700000000000 =
    (Returns (None, "",
       {| RequestError_ReqBaseConfig := example_base;
          RequestError_HTTPError := None;
          RequestError_RespBodyUnmarshalerError := None;
          RequestError_Err :=
            Some (wrapError
                    "cex: make request, cex: struct to map: s2m: unsupported field type"
                    (Some (wrapErrors "cex: struct to map: s2m: unsupported field type"
                             [ErrS2M; errorString None "s2m: unsupported field type"]))) |}),
     [MakeCalled], 1700000000000).
Proof.
  exact (serialization_failure_ends_the_call ToStrMap_refuses clock "" no_transport
           (NewUser "key" "k") example_config tt [] 1700000000000 ∅ _ eq_refl eq_refl).
Defined.

Lemma public_endpoint_panics_witness :
  Request "" (User_Make ToStrMap_id clock (NewUser "key" "k")) no_transport
    depth_req_config {[ "symbol" := "BTCUSDT"; "limit" := "5" ]} [] 1700000000000 =
    (Panics, [MakeCalled], 1700000000000).
Proof.
  exact (proj2 (public_endpoint_panics ToStrMap_id clock "" no_transport
           (NewUser "key" "k") depth_req_config {[ "symbol" := "BTCUSDT"; "limit" := "5" ]} []
           1700000000000 _ Get eq_refl eq_refl eq_refl)).
Defined.

(** ** Numbers written and read back *)

Lemma pretty_N_char_value (x : N) :
  (x < 10)%N ->
  is_digit (pretty_N_char x) = true /\
  Z.of_nat (nat_of_ascii (pretty_N_char x)) - 48 = Z.of_N x.
Proof.
  intros Hx. rewrite <- (N2Nat.id x).
  assert (N.to_nat x < 10)%nat as Hn by lia. clear Hx.
  generalize dependent (N.to_nat x). intros n Hn.
  do 10 (destruct n as [|n]; [split; reflexivity|]). lia.
Qed.

(** Reading the digits that [pretty_N_go] puts in front of [s]. *)
Lemma parse_digits_pretty_N_go (x : N) :
  exists k : nat, forall acc s,
    parse_digits acc (pretty_N_go x s) = parse_digits (acc * 10 ^ Z.of_nat k + Z.of_N x) s.
Proof.
  induction (N.lt_wf_0 x) as [x _ IH].
  destruct (N.eq_dec x 0%N) as [-> | Hx].
  - exists 0%nat. intros acc s. rewrite pretty_N_go_0. f_equal. cbn. lia.
  - destruct (IH (x `div` 10)%N) as [k Hk]; [apply N.div_lt; lia|].
    exists (S k). intros acc s. rewrite pretty_N_go_step by lia. rewrite Hk.
    destruct (pretty_N_char_value (x `mod` 10)%N) as [Hdigit Hvalue];
      [apply N.mod_lt; lia|].
    cbn [parse_digits]. rewrite Hdigit, Hvalue. f_equal.
    rewrite Nat2Z.inj_succ, Z.pow_succ_r by lia.
    rewrite N2Z.inj_mod, N2Z.inj_div. change (Z.of_N 10) with 10.
    pose proof (Z.div_mod (Z.of_N x) 10 ltac:(lia)). lia.
Qed.

Lemma pretty_N_go_digits (x : N) : forall s,
  all_chars is_digit s = true -> all_chars is_digit (pretty_N_go x s) = true.
Proof.
  induction (N.lt_wf_0 x) as [x _ IH]; intros s Hs.
  destruct (N.eq_dec x 0%N) as [-> | Hx]; [now rewrite pretty_N_go_0|].
  rewrite pretty_N_go_step by lia. apply IH; [apply N.div_lt; lia|].
  cbn [all_chars]. rewrite Hs, andb_true_r.
  apply pretty_N_char_value, N.mod_lt. lia.
Qed.

Lemma pretty_N_go_empty (x : N) : forall s, pretty_N_go x s = "" -> s = "".
Proof.
  induction (N.lt_wf_0 x) as [x _ IH]; intros s Hs.
  destruct (N.eq_dec x 0%N) as [-> | Hx]; [now rewrite pretty_N_go_0 in Hs|].
  rewrite pretty_N_go_step in Hs by lia.
  apply IH in Hs; [discriminate | apply N.div_lt; lia].
Qed.

(** A string that starts with a digit has no sign. *)
Lemma ParseInt_unsigned (c : ascii) (s : string) (n : Z) :
  is_digit c = true ->
  parse_digits 0 (String c s) = Some n -> - 2 ^ 63 <= n < 2 ^ 63 ->
  ParseInt (String c s) = Some n.
Proof.
  intros Hc Hn Hrange.
  assert (ParseInt (String c s) =
            match parse_digits 0 (String c s) with
            | Some n => if ((- 2 ^ 63 <=? n) && (n <? 2 ^ 63))%Z then Some n else None
            | None => None
            end) as ->.
  { destruct c as [[] [] [] [] [] [] [] []]; try discriminate Hc; reflexivity. }
  rewrite Hn.
  destruct (Z.leb_spec (- 2 ^ 63) n); [|lia]. destruct (Z.ltb_spec n (2 ^ 63)); [|lia].
  reflexivity.
Qed.

Lemma pretty_positive_digits (p : positive) :
  exists c s, pretty (N.pos p) = String c s /\ is_digit c = true /\
              parse_digits 0 (String c s) = Some (Z.pos p).
Proof.
  unfold pretty, pretty_N. case_decide; [lia|].
  destruct (pretty_N_go (N.pos p) "") as [|c s] eqn:Hs.
  { rewrite pretty_N_go_step in Hs by lia. apply pretty_N_go_empty in Hs. discriminate Hs. }
  exists c, s. split; [reflexivity|].
  pose proof (pretty_N_go_digits (N.pos p) "" eq_refl) as Hdigits.
  rewrite Hs in Hdigits. cbn [all_chars] in Hdigits.
  apply andb_prop in Hdigits as [Hc _]. split; [assumption|].
  destruct (parse_digits_pretty_N_go (N.pos p)) as [k Hk].
  rewrite <- Hs, Hk. cbn. reflexivity.
Qed.

Lemma ParseInt_FormatInt (n : Z) :
  - 2 ^ 63 <= n < 2 ^ 63 -> ParseInt (FormatInt n) = Some n.
Proof.
  intros Hrange. unfold FormatInt, pretty, pretty_Z.
  destruct n as [|p|p]; [reflexivity| |].
  - unfold pretty at 1, pretty_positive.
    destruct (pretty_positive_digits p) as (c & s & -> & Hc & Hn).
    now apply ParseInt_unsigned.
  - unfold pretty at 1, pretty_positive.
    destruct (pretty_positive_digits p) as (c & s & -> & Hc & Hn).
    change ("-" +:+ String c s) with (String "-" (String c s)).
    cbn [ParseInt]. rewrite Hn.
    change (- Z.pos p) with (Z.neg p).
    destruct (Z.leb_spec (- 2 ^ 63) (Z.neg p)); [|lia].
    destruct (Z.ltb_spec (Z.neg p) (2 ^ 63)); [|lia]. reflexivity.
Qed.

Section EnvelopeRoundTrip.

Context (spotCexCustomErrCodes : gmap Z error).
Context (bnc_HTTPStatusCodeChecker : Z -> option error).
Context {D : Type} (zero : D) (unmarshaler : RespBodyUnmarshaler D).

Local Abbreviation wrapped := (fuBodyUnmshWrapper spotCexCustomErrCodes zero unmarshaler).

(** X25.  An envelope read back.  For every code within [int64] and every
    message, the envelope with the two members [code], written in decimal,
    and [msg] parses without error into exactly that code and message.  The
    futures wrapper passes it on for the codes 0 and 200 and otherwise
    returns an error with that code and message; [HandleResp], on a response
    with the status 200, reports it exactly when the code is negative. *)
Theorem envelope_round_trip (body : Body) (c : Z) (m : string) (status : string) (u : User) :
  - 2 ^ 63 <= c < 2 ^ 63 ->
  scan body = Value (JObject [("code", JNumber (FormatInt c)); ("msg", JString m)]) ->
  decoded_envelope body = {| Code := c; Msg := m |} /\
  envelope_error body = None /\
  (c = 0 \/ c = 200 -> wrapped body = unmarshaler body) /\
  (c <> 0 -> c <> 200 ->
     exists err, wrapped body = (zero, Some err) /\ CexErrCode err = c /\ CexErrMsg err = m) /\
  HandleResp bnc_HTTPStatusCodeChecker u
    (Some {| resp_StatusCode := 200; resp_Status := status; resp_Body := body |}) None =
    (if (0 <=? c)%Z then None
     else Some (errorString None ("bnc: msg: " ++ m ++ ", code: " ++ FormatInt c))).
Proof.
  intros Hrange Hscan.
  assert (json_Unmarshal_CodeMsg body {| Code := 0; Msg := "" |} =
            ({| Code := c; Msg := m |}, None)) as Hdecoded.
  { unfold json_Unmarshal_CodeMsg. rewrite Hscan. cbn [store_members].
    change (key_is "code" "code") with true. change (key_is "code" "msg") with false.
    change (key_is "msg" "msg") with true. cbn -[ParseInt FormatInt].
    now rewrite (ParseInt_FormatInt c Hrange). }
  assert (decoded_envelope body = {| Code := c; Msg := m |}) as Henv
    by (unfold decoded_envelope; now rewrite Hdecoded).
  split; [assumption|]. split; [unfold envelope_error; now rewrite Hdecoded|].
  split; [|split].
  - intros Hc. unfold fuBodyUnmshWrapper.
    assert (fuBodyUnmshCodeMsg spotCexCustomErrCodes body = None) as ->; [|reflexivity].
    apply fuBodyUnmshCodeMsg_None. now rewrite Henv.
  - intros H0 H2. unfold fuBodyUnmshWrapper, fuBodyUnmshCodeMsg. rewrite Henv. cbn [Code Msg].
    destruct (Z.eqb_spec c 0); [contradiction|].
    destruct (Z.eqb_spec c 200); [contradiction|]. cbn [orb].
    destruct (Z.ltb 0 c); eexists; repeat split.
  - unfold HandleResp. cbn [resp_StatusCode resp_Body resp_Status]. cbn [Z.eqb Pos.eqb negb].
    rewrite Hdecoded. reflexivity.
Qed.

End EnvelopeRoundTrip.

Lemma envelope_round_trip_witness :
  decoded_envelope skew_body =
    {| Code := -1021; Msg := "Timestamp for this request is outside of the recvWindow." |} /\
  envelope_error skew_body = None.
Proof.
  destruct (envelope_round_trip example_codes example_checker "" string_unmarshaler skew_body
              (-1021) "Timestamp for this request is outside of the recvWindow." "200 OK"
              (NewUser "key" "k") ltac:(lia) eq_refl) as (Henv & Herr & _).
  now split.
Defined.

(** ** The query string determines the parameters *)

Lemma unreserved_plain (c : ascii) :
  unreserved c = true -> plain c = true /\ c <> "+"%char /\ c <> "%"%char.
Proof.
  destruct c as [[] [] [] [] [] [] [] []]; intros H; try discriminate H;
    repeat split; discriminate.
Qed.

Lemma upperhex_unreserved (n : nat) : (n < 16)%nat -> unreserved (upperhex n) = true.
Proof. intros Hn. do 16 (destruct n as [|n]; [reflexivity|]). lia. Qed.

Lemma upperhex_inj (n m : nat) :
  (n < 16)%nat -> (m < 16)%nat -> upperhex n = upperhex m -> n = m.
Proof.
  intros Hn Hm Heq. apply (f_equal nat_of_ascii) in Heq. unfold upperhex in Heq.
  destruct (Nat.ltb_spec n 10), (Nat.ltb_spec m 10);
    rewrite !nat_ascii_embedding in Heq by lia; lia.
Qed.

(** What [QueryEscape] writes holds no separator. *)
Lemma QueryEscape_plain (s : string) : all_chars plain (QueryEscape s) = true.
Proof.
  induction s as [|c s IH]; [reflexivity|]. cbn [QueryEscape].
  destruct (unreserved c) eqn:Hc.
  - cbn [all_chars]. now rewrite (proj1 (unreserved_plain c Hc)), IH.
  - destruct (nat_of_ascii c =? 32)%nat; cbn [all_chars]; rewrite ?IH.
    + reflexivity.
    + pose proof (nat_ascii_bounded c) as Hb.
      rewrite (proj1 (unreserved_plain _ (upperhex_unreserved (nat_of_ascii c / 16)
                 ltac:(apply Nat.Div0.div_lt_upper_bound; lia)))).
      rewrite (proj1 (unreserved_plain _ (upperhex_unreserved (nat_of_ascii c mod 16)
                 ltac:(apply Nat.mod_upper_bound; lia)))).
      reflexivity.
Qed.

(** The first character that [QueryEscape] reads is told by what it wrote. *)
Lemma QueryEscape_cons_inj (a b : ascii) (s t : string) :
  QueryEscape (String a s) = QueryEscape (String b t) ->
  a = b /\ QueryEscape s = QueryEscape t.
Proof.
  cbn [QueryEscape].
  pose proof (nat_ascii_bounded a) as Ha. pose proof (nat_ascii_bounded b) as Hb.
  assert (forall n, (n < 256)%nat -> (n / 16 < 16)%nat) as Hdiv
    by (intros n Hn; apply Nat.Div0.div_lt_upper_bound; lia).
  assert (forall n, (n mod 16 < 16)%nat) as Hmod
    by (intros n; apply Nat.mod_upper_bound; lia).
  destruct (unreserved a) eqn:Hua, (unreserved b) eqn:Hub.
  - intros Heq. injection Heq as -> Hst. now split.
  - destruct (Nat.eqb_spec (nat_of_ascii b) 32); intros Heq; injection Heq as -> _;
      discriminate Hua.
  - destruct (Nat.eqb_spec (nat_of_ascii a) 32); intros Heq; injection Heq as <- _;
      discriminate Hub.
  - destruct (Nat.eqb_spec (nat_of_ascii a) 32) as [Ha32|Ha32],
             (Nat.eqb_spec (nat_of_ascii b) 32) as [Hb32|Hb32];
      intros Heq; try discriminate Heq.
    + injection Heq as Hst. split; [|assumption].
      rewrite <- (ascii_nat_embedding a), <- (ascii_nat_embedding b). congruence.
    + injection Heq as Hhi Hlo Hst. split; [|assumption].
      apply upperhex_inj in Hhi; [|now apply Hdiv..].
      apply upperhex_inj in Hlo; [|now apply Hmod..].
      change (nat_of_ascii a / 16 = nat_of_ascii b / 16)%nat in Hhi.
      change (nat_of_ascii a mod 16 = nat_of_ascii b mod 16)%nat in Hlo.
      rewrite <- (ascii_nat_embedding a), <- (ascii_nat_embedding b). f_equal.
      pose proof (Nat.div_mod_eq (nat_of_ascii a) 16).
      pose proof (Nat.div_mod_eq (nat_of_ascii b) 16). lia.
Qed.

Lemma QueryEscape_inj (s t : string) : QueryEscape s = QueryEscape t -> s = t.
Proof.
  revert t. induction s as [|a s IH]; intros [|b t] Heq.
  - reflexivity.
  - cbn in Heq. destruct (unreserved b); [discriminate|].
    destruct (nat_of_ascii b =? 32)%nat; discriminate.
  - cbn in Heq. destruct (unreserved a); [discriminate|].
    destruct (nat_of_ascii a =? 32)%nat; discriminate.
  - apply QueryEscape_cons_inj in Heq as [-> Heq]. f_equal. now apply IH.
Qed.

(** Two strings without [=], each followed by [=] and more. *)
Lemma split_at_equals (a a' b b' : string) :
  all_chars plain a = true -> all_chars plain a' = true ->
  a ++ "=" ++ b = a' ++ "=" ++ b' -> a = a' /\ b = b'.
Proof.
  change ("=" ++ b) with (String "=" b). change ("=" ++ b') with (String "=" b').
  revert a'. induction a as [|c a IH]; intros [|c' a'] Ha Ha' Heq.
  - change (String "=" b = String "=" b') in Heq. injection Heq as ->. now split.
  - change (String "=" b = String c' (a' ++ String "=" b')) in Heq.
    injection Heq as <- _. discriminate Ha'.
  - change (String c (a ++ String "=" b) = String "=" b') in Heq.
    injection Heq as -> _. discriminate Ha.
  - change (String c (a ++ String "=" b) = String c' (a' ++ String "=" b')) in Heq.
    injection Heq as -> Heq.
    cbn [all_chars] in Ha, Ha'. apply andb_prop in Ha as [_ Ha], Ha' as [_ Ha'].
    destruct (IH a' Ha Ha' Heq) as [-> ->]. now split.
Qed.

Lemma pair_text_inj (kv kv' : string * string) : pair_text kv = pair_text kv' -> kv = kv'.
Proof.
  unfold pair_text. intros Heq.
  apply split_at_equals in Heq as [Hk Hv]; try apply QueryEscape_plain.
  apply QueryEscape_inj in Hk, Hv. destruct kv, kv'. cbn in *. now subst.
Qed.

Lemma pair_text_no_amp (kv : string * string) :
  all_chars (fun c => negb (Ascii.eqb c "&")) (pair_text kv) = true.
Proof.
  unfold pair_text. rewrite !all_chars_app.
  assert (forall s, all_chars plain s = true ->
            all_chars (fun c => negb (Ascii.eqb c "&")) s = true) as Hplain.
  { intros s. apply all_chars_impl. intros c Hc. unfold plain in Hc.
    now apply andb_prop in Hc as [Hc _]. }
  rewrite (Hplain (QueryEscape kv.1)), (Hplain (QueryEscape kv.2)) by apply QueryEscape_plain.
  reflexivity.
Qed.

(** Pieces without [&], joined by [&], are the parameters of the result. *)
Lemma params_concat (l : list (string * string)) :
  l <> [] -> params (String.concat "&" (pair_text <$> l)) = pair_text <$> l.
Proof.
  induction l as [|kv l IH]; [congruence|]. intros _.
  destruct l as [|kv' l].
  - cbn. apply params_no_amp, pair_text_no_amp.
  - change (String.concat "&" (pair_text <$> kv :: kv' :: l))
      with (pair_text kv ++ "&" ++ String.concat "&" (pair_text <$> kv' :: l)).
    rewrite params_app_amp, (params_no_amp _ (pair_text_no_amp kv)), IH by discriminate.
    reflexivity.
Qed.

Section QueryDetermines.

Context {W ReqData : Type}.
Context (ToStrMap : ReqData -> gmap string string * option error).
Context (UnixMilli : W -> Z * W).

(** X26.  The signed query determines what was signed.  When two calls of
    [signReqData] return the same query string, their parameters, each with
    the timestamp entry of its call, are the same map: no two different sets
    of parameters are written, and hence signed, as the same string.  For
    parameters without a [timestamp] of their own, the parameters and the
    clock readings of the two calls are then the same. *)
Theorem signed_query_determines_parameters
    (data1 data2 : ReqData) (key1 key2 : string) (w1 w2 : W)
    (m1 m2 : gmap string string) (now1 now2 : Z) (w1' w2' : W) :
  ToStrMap data1 = (m1, None) -> ToStrMap data2 = (m2, None) ->
  UnixMilli w1 = (now1, w1') -> UnixMilli w2 = (now2, w2') ->
  fst (fst (signReqData ToStrMap UnixMilli data1 key1 w1)) =
  fst (fst (signReqData ToStrMap UnixMilli data2 key2 w2)) ->
  m1 ∪ {[ "timestamp" := FormatInt now1 ]} = m2 ∪ {[ "timestamp" := FormatInt now2 ]} /\
  (m1 !! "timestamp" = None -> m2 !! "timestamp" = None -> m1 = m2 /\ now1 = now2).
Proof.
  intros Hm1 Hm2 Hnow1 Hnow2. unfold signReqData.
  rewrite Hm1, Hm2, Hnow1, Hnow2, !set_all_singletons. cbn [fst].
  set (val1 := m1 ∪ {[ "timestamp" := FormatInt now1 ]}).
  set (val2 := m2 ∪ {[ "timestamp" := FormatInt now2 ]}).
  destruct (Values_Encode_singletons val1) as (ps1 & Hperm1 & _ & _ & ->).
  destruct (Values_Encode_singletons val2) as (ps2 & Hperm2 & _ & _ & ->).
  intros Heq.
  assert (forall (m : gmap string string) now ps,
            ps ≡ₚ map_to_list (m ∪ {[ "timestamp" := FormatInt now ]}) -> ps <> []) as Hne.
  { intros m now ps Hperm ->. apply Permutation_nil in Hperm.
    apply map_to_list_empty_iff in Hperm.
    apply (f_equal (fun x => x !! "timestamp")) in Hperm.
    rewrite lookup_empty in Hperm.
    destruct (m !! "timestamp") as [v|] eqn:Hv.
    - now rewrite (lookup_union_Some_l _ _ _ _ Hv) in Hperm.
    - rewrite (lookup_union_r _ _ _ Hv), lookup_singleton_eq in Hperm. discriminate. }
  apply (f_equal params) in Heq.
  change "&signature=" with ("&" ++ "signature=") in Heq.
  rewrite !string_app_assoc, !params_app_amp in Heq.
  assert (forall enc key,
            params ("signature=" ++ SignByHmacSHA256ToHex enc key) =
              ["signature=" ++ SignByHmacSHA256ToHex enc key]) as Hsig.
  { intros enc key. apply params_no_amp. rewrite all_chars_app.
    apply andb_true_intro. split; [reflexivity|].
    apply (all_chars_impl is_lower_hex); [apply lower_hex_not_amp|].
    apply SignByHmacSHA256ToHex_digits. }
  rewrite !Hsig in Heq. apply app_inj_tail_iff in Heq as [Heq _].
  - rewrite !params_concat in Heq by eauto.
    assert (ps1 = ps2) as Hps.
    { clear -Heq. revert ps2 Heq. induction ps1 as [|p ps1 IH]; intros [|q ps2] Heq;
        try discriminate; [reflexivity|].
      cbn in Heq. injection Heq as Hp Hps. apply pair_text_inj in Hp as ->.
      f_equal. now apply IH. }
    assert (val1 = val2) as Hval.
    { apply map_to_list_inj. now rewrite <- Hperm1, <- Hperm2, Hps. }
    split; [assumption|]. intros Hno1 Hno2.
    assert (now1 = now2) as Hnow.
    { apply (f_equal (fun x => x !! "timestamp")) in Hval. subst val1 val2.
      rewrite !lookup_union_r, !lookup_singleton_eq in Hval by assumption.
      injection Hval as Hval. now apply (inj pretty) in Hval. }
    split; [|assumption].
    apply map_eq. intros k. destruct (decide (k = "timestamp")) as [-> | Hk]; [congruence|].
    apply (f_equal (fun x => x !! k)) in Hval. subst val1 val2.
    rewrite !lookup_union_l in Hval by now apply lookup_singleton_ne. exact Hval.
Qed.

End QueryDetermines.

Lemma signed_query_determines_parameters_witness :
  ({[ "symbol" := "ETHUSDT" ]} : gmap string string) ∪ {[ "timestamp" := FormatInt 7 ]} =
  {[ "symbol" := "ETHUSDT"; "timestamp" := "7" ]} ∪ {[ "timestamp" := FormatInt 1700000000000 ]}.
Proof.
  refine (proj1 (signed_query_determines_parameters ToStrMap_id clock
           {[ "symbol" := "ETHUSDT" ]} {[ "symbol" := "ETHUSDT"; "timestamp" := "7" ]}
           "k" "k" 7 1700000000000
           {[ "symbol" := "ETHUSDT" ]} {[ "symbol" := "ETHUSDT"; "timestamp" := "7" ]}
           7 1700000000000 8 1700000000001
           eq_refl eq_refl eq_refl eq_refl _)).
  vm_compute. reflexivity.
Defined.
